(** * motionpy: presence reconciliation, accrual and statistics

    A shallow embedding of the player-tracking core of the bot:
    [services/database.py] (the store operations the core calls),
    [services/analytics.py] (reconciler, reaper, ping and peak statistics),
    [services/fivem_api.py] (roster cleaning), [services/notifications.py]
    (roster diff that also writes events) and the poll loop of [bot.py].

    Conventions of the embedding.
    - A [datetime] is an integer number of microseconds ([Z]); a
      [timedelta] is a difference of such numbers.  [total_seconds()] is
      therefore [d / 1_000_000] as a real number; quantities the source
      keeps as float seconds (session durations) are stored here in
      microseconds, and floats that hold ping values are idealised as
      rationals ([Q]).
    - A tick reads the clock several times ([datetime.utcnow()] in the
      caller and again inside each store operation); these readings are
      taken to be the same instant [now], passed explicitly.
    - Python dicts used as maps are [gmap string _], Python sets are
      [gset string].  Iteration over a set has no order guaranteed by the
      source; here it is the canonical order of [elements].
    - Store operations are assumed acknowledged (no persistence failure),
      so the [try/except] wrappers never fire.
    - Player names are ASCII strings; Unicode blanks and case mappings of
      [str.strip] and [str.lower] are outside the model. *)

From Stdlib Require Import ZArith QArith Qround Qminmax Qabs Lia Lqa.
From stdpp Require Import gmap strings list fin_maps sorting.

Local Open Scope Z_scope.

(** * The model *)

(** ** Time *)

Definition us_per_second : Z := 1000000.

(** [timedelta(seconds=n)], [timedelta(minutes=n)], ... *)
Definition timedelta_seconds (n : Z) : Z := n * us_per_second.
Definition timedelta_minutes (n : Z) : Z := timedelta_seconds (60 * n).
Definition timedelta_hours (n : Z) : Z := timedelta_seconds (3600 * n).
Definition timedelta_days (n : Z) : Z := timedelta_seconds (86400 * n).

(** ** Idealised float helpers *)

Definition Qsum (l : list Q) : Q := foldr Qplus 0%Q l.

(** [$avg] over a non-empty group. *)
Definition Qmean (l : list Q) : Q :=
  (Qsum l / inject_Z (Z.of_nat (length l)))%Q.

(** Round to the nearest integer, ties to the even one. *)
Definition round_half_even (q : Q) : Z :=
  let f := Qfloor q in
  match ((q - inject_Z f) ?= (1 # 2))%Q with
  | Lt => f
  | Gt => f + 1
  | Eq => if Z.even f then f else f + 1
  end.

(** Python's [round(x, 1)] on the exact value: the nearest multiple of
    0.1, a tie going to the even one.  The code rounds the binary double
    that holds the value, so at an exact decimal tie it can return the
    other neighbour; the statements rely on the distance of at most 0.05
    and on monotonicity, which both have. *)
Definition round1 (q : Q) : Q := (inject_Z (round_half_even (q * 10)) / 10)%Q.

(** ** Data model *)

(** One element of the roster handed to the reconciler (a player dict as
    produced by [FiveMAPI.get_players]; the fields [id], [endpoint] and
    [parsed_identifiers] are read by nothing modelled here).  A missing or
    [None] name behaves like the empty one ([not player_name]). *)
Record roster_entry := RosterEntry {
  name : string;
  ping : Z;
  identifiers : list string;
  job : string;
  role : string
}.

(** Value type of [AnalyticsManager.current_players]. *)
Record presence := Presence {
  last_update : Z;
  p_ping : Z;
  p_identifiers : list string;
  p_job : string;
  p_role : string
}.

(** Argument dict of [DatabaseManager.upsert_player]. *)
Record player_data := PlayerData {
  pd_name : string;
  pd_identifiers : list string;
  pd_ping : Z;
  pd_session_time : Z;
  pd_job : string;
  pd_role : string
}.

(** A document of the [players] collection. *)
Record player_record := PlayerRecord {
  r_name : string;
  r_identifiers : list string;
  firstSeen : Z;
  lastSeen : Z;
  playtime : Z;
  totalSessions : Z;
  r_ping : Z;
  r_job : string;
  r_role : string;
  r_status : option string
}.

(** The two event types the code ever logs (the strings ['join'] and
    ['leave']). *)
Inductive event_type := Join | Leave.

Global Instance event_type_eq_dec : EqDecision event_type.
Proof. solve_decision. Defined.

(** The [details] dict of an event: every key is optional. *)
Record details := Details {
  d_ping : option Z;
  d_identifiers : option (list string);
  session_duration : option Z;
  reason : option string
}.

(** A document of the [event_logs] collection. *)
Record event := Event {
  timestamp : Z;
  ev_type : event_type;
  player_name : string;
  ev_details : details
}.

(** A document of the [ping_logs] collection. *)
Record ping_sample := PingSample {
  ps_timestamp : Z;
  low : Q;
  avg : Q;
  high : Q;
  server_ping : Q
}.

(** The three collections of the store, documents in insertion order. *)
Record db := Db {
  players : gmap string player_record;
  event_logs : list event;
  ping_logs : list ping_sample
}.

Definition empty_db : db := Db ∅ [] [].

(** ** DatabaseManager *)

Module DatabaseManager.

(** The document [upsert_player] leaves under the name: [$set] of the
    metadata, [$inc] of [playtime] by [session_time], and
    [$setOnInsert] of [firstSeen]/[totalSessions] when there was no
    [existing_player]. *)
Definition upsert_doc (current_time : Z) (pd : player_data)
    (existing_player : option player_record) : player_record :=
  match existing_player with
  | Some r =>
      PlayerRecord (pd_name pd) (pd_identifiers pd) (firstSeen r) current_time
        (playtime r + pd_session_time pd) (totalSessions r)
        (pd_ping pd) (pd_job pd) (pd_role pd) (r_status r)
  | None =>
      PlayerRecord (pd_name pd) (pd_identifiers pd) current_time current_time
        (pd_session_time pd) 0
        (pd_ping pd) (pd_job pd) (pd_role pd) None
  end.

(** [upsert_player(player_data)]. *)
Definition upsert_player (current_time : Z) (pd : player_data) (d : db) : db :=
  Db (<[pd_name pd := upsert_doc current_time pd (players d !! pd_name pd)]>
        (players d))
     (event_logs d) (ping_logs d).

(** [get_player], reduced to the field the claims read. *)
Definition get_playtime (n : string) (d : db) : Z :=
  match players d !! n with
  | Some r => playtime r
  | None => 0
  end.

Definition get_totalSessions (n : string) (d : db) : Z :=
  match players d !! n with
  | Some r => totalSessions r
  | None => 0
  end.

(** [{"$inc": {"totalSessions": 1}}] on one document. *)
Definition bump_sessions (r : player_record) : player_record :=
  PlayerRecord (r_name r) (r_identifiers r) (firstSeen r) (lastSeen r)
    (playtime r) (totalSessions r + 1) (r_ping r) (r_job r) (r_role r)
    (r_status r).

(** [increment_player_sessions]: [update_one] without upsert, so a
    player without a document is left without one. *)
Definition increment_player_sessions (n : string) (d : db) : db :=
  Db (alter bump_sessions n (players d)) (event_logs d) (ping_logs d).

(** [log_event]: append the entry; a join also bumps the session count. *)
Definition log_event (now : Z) (ty : event_type) (n : string) (dt : details)
    (d : db) : db :=
  let d1 := Db (players d) (event_logs d ++ [Event now ty n dt]) (ping_logs d) in
  match ty with
  | Join => increment_player_sessions n d1
  | Leave => d1
  end.

(** [log_ping_data]: append one sample. *)
Definition log_ping_data (now : Z) (lo av hi sp : Q) (d : db) : db :=
  Db (players d) (event_logs d) (ping_logs d ++ [PingSample now lo av hi sp]).

(** Stable insertion by descending / ascending timestamp. *)
Fixpoint insert_desc (e : event) (l : list event) : list event :=
  match l with
  | [] => [e]
  | x :: l' =>
      if timestamp x <=? timestamp e then e :: l else x :: insert_desc e l'
  end.

Definition sort_desc (l : list event) : list event := foldr insert_desc [] l.

(** [get_recent_events(limit)]: [find().sort("timestamp",
    DESCENDING).limit(limit)]; the optional type filter is never passed
    by the modelled callers. *)
Definition get_recent_events (limit : nat) (d : db) : list event :=
  take limit (sort_desc (event_logs d)).

(** Result dict of [get_ping_stats]. *)
Record ping_stats := PingStats {
  st_low : Q;
  st_avg : Q;
  st_high : Q;
  st_min : Q;
  st_max : Q
}.

(** The [$match] stage: samples not older than the cutoff. *)
Definition in_window (cutoff : Z) (l : list ping_sample) : list ping_sample :=
  filter (λ s, cutoff <= ps_timestamp s) l.

(** [get_ping_stats(hours)]: the aggregation yields no group document
    when nothing matches, and then the result is [None]. *)
Definition get_ping_stats (now : Z) (hours : Z) (d : db) : option ping_stats :=
  let cutoff := now - timedelta_hours hours in
  match in_window cutoff (ping_logs d) with
  | [] => None
  | s :: rest =>
      let w := s :: rest in
      Some (PingStats
              (round1 (Qmean (low <$> w)))
              (round1 (Qmean (avg <$> w)))
              (round1 (Qmean (high <$> w)))
              (round1 (foldr Qmin (low s) (low <$> rest)))
              (round1 (foldr Qmax (high s) (high <$> rest))))
  end.

End DatabaseManager.

Arguments DatabaseManager.upsert_player : simpl never.
Arguments DatabaseManager.log_event : simpl never.
Arguments DatabaseManager.log_ping_data : simpl never.

(** ** AnalyticsManager *)

(** The in-memory tracking state of the reconciler. *)
Record analytics := Analytics {
  current_players : gmap string presence;
  session_start_times : gmap string Z
}.

Definition empty_analytics : analytics := Analytics ∅ ∅.

Module AnalyticsManager.

(** Nominal accrual per continuing tick, in seconds. *)
Definition tick_seconds : Z := 30.

(** Accumulator of the roster loop: [current_player_names], the tracking
    state and the store. *)
Definition loop_state : Type := gset string * analytics * db.

(** Body of [for player in players_data]. *)
Definition process_player (current_time : Z) (acc : loop_state)
    (player : roster_entry) : loop_state :=
  let '(names, a, d) := acc in
  let player_name := name player in
  if decide (player_name = "" ∨ player_name = "Unknown") then acc
  else
    let joining := bool_decide (current_players a !! player_name = None) in
    let session_time_increment := if joining then 0 else tick_seconds in
    let sst :=
      if joining then <[player_name := current_time]> (session_start_times a)
      else session_start_times a in
    let d1 :=
      if joining then
        DatabaseManager.log_event current_time Join player_name
          (Details (Some (ping player)) (Some (identifiers player)) None None) d
      else d in
    let cp :=
      <[player_name := Presence current_time (ping player) (identifiers player)
                         (job player) (role player)]> (current_players a) in
    let d2 :=
      DatabaseManager.upsert_player current_time
        (PlayerData player_name (identifiers player) (ping player)
           session_time_increment (job player) (role player)) d1 in
    ({[player_name]} ∪ names, Analytics cp sst, d2).

(** [int(session_duration % 30)], the duration being in microseconds. *)
Definition remaining_time (session_duration : Z) : Z :=
  (session_duration mod timedelta_seconds tick_seconds) / us_per_second.

Definition default_presence : presence := Presence 0 0 [] "civilian" "civilian".

(** Body of [for player_name in left_players]. *)
Definition process_left (current_time : Z) (acc : analytics * db)
    (player_name : string) : analytics * db :=
  let '(a, d) := acc in
  let '(sst, d') :=
    match session_start_times a !! player_name with
    | Some start =>
        let session_duration := current_time - start in
        let d1 :=
          DatabaseManager.log_event current_time Leave player_name
            (Details None None (Some session_duration) None) d in
        let pr := default default_presence (current_players a !! player_name) in
        let d2 :=
          if 0 <? remaining_time session_duration then
            DatabaseManager.upsert_player current_time
              (PlayerData player_name (p_identifiers pr) (p_ping pr)
                 (remaining_time session_duration) (p_job pr) (p_role pr)) d1
          else d1 in
        (delete player_name (session_start_times a), d2)
    | None => (session_start_times a, d)
    end in
  (Analytics (delete player_name (current_players a)) sst, d').

(** [update_player_data(players_data)]. *)
Definition update_player_data (current_time : Z) (players_data : list roster_entry)
    (a : analytics) (d : db) : analytics * db :=
  let '(current_player_names, a1, d1) :=
    foldl (process_player current_time) (∅, a, d) players_data in
  let left_players := elements (dom (current_players a1) ∖ current_player_names) in
  foldl (process_left current_time) (a1, d1) left_players.

(** [log_ping_data(server_ping)]. *)
Definition player_pings (a : analytics) : list Z :=
  filter (λ x, 0 < x) (p_ping <$> (map_to_list (current_players a)).*2).

Definition log_ping_data (now : Z) (server_ping : Q) (a : analytics) (d : db) : db :=
  match player_pings a with
  | [] => DatabaseManager.log_ping_data now server_ping server_ping server_ping
            server_ping d
  | x :: rest =>
      let total := foldr Z.add 0 (x :: rest) in
      let count := Z.of_nat (length (x :: rest)) in
      DatabaseManager.log_ping_data now
        (inject_Z (foldr Z.min x rest))
        (Qdiv (inject_Z total) (inject_Z count))
        (inject_Z (foldr Z.max x rest))
        server_ping d
  end.

(** [get_ping_stats(hours)] delegates to the store. *)
Definition get_ping_stats (now : Z) (hours : Z) (d : db) :
    option DatabaseManager.ping_stats :=
  DatabaseManager.get_ping_stats now hours d.

(** Stable ascending sort, as [events.sort(key=timestamp)]. *)
Fixpoint insert_asc (e : event) (l : list event) : list event :=
  match l with
  | [] => [e]
  | x :: l' =>
      if timestamp e <=? timestamp x then e :: l else x :: insert_asc e l'
  end.

Definition sort_by_timestamp (l : list event) : list event :=
  foldr insert_asc [] l.

(** One iteration of the replay loop: the running set and the maximum. *)
Definition replay_step (acc : gset string * nat) (e : event) : gset string * nat :=
  let concurrent_players :=
    match ev_type e with
    | Join => {[player_name e]} ∪ acc.1
    | Leave => acc.1 ∖ {[player_name e]}
    end in
  (concurrent_players, Nat.max acc.2 (size concurrent_players)).

Definition replay (events : list event) : nat :=
  (foldl replay_step (∅, 0%nat) events).2.

Definition recent_limit : nat := 1000.

(** [_calculate_peak_players(days)]. *)
Definition _calculate_peak_players (now : Z) (days : Z) (a : analytics) (d : db)
    : nat :=
  let cutoff := now - timedelta_days days in
  let events :=
    filter (λ e, cutoff <= timestamp e)
      (DatabaseManager.get_recent_events recent_limit d) in
  match events with
  | [] => size (current_players a)
  | _ => replay (sort_by_timestamp events)
  end.

Definition offline_threshold : Z := timedelta_minutes 2.

(** Body of [for player_name in offline_players]. *)
Definition reap_one (current_time : Z) (acc : analytics * db)
    (player_name : string) : analytics * db :=
  let '(a, d) := acc in
  let '(sst, d') :=
    match session_start_times a !! player_name with
    | Some start =>
        (delete player_name (session_start_times a),
         DatabaseManager.log_event current_time Leave player_name
           (Details None None (Some (current_time - start)) (Some "timeout")) d)
    | None => (session_start_times a, d)
    end in
  (Analytics (delete player_name (current_players a)) sst, d').

(** [clean_offline_players()]. *)
Definition offline_players (current_time : Z) (a : analytics) : list string :=
  (filter (λ kv, offline_threshold < current_time - last_update kv.2)
     (map_to_list (current_players a))).*1.

Definition clean_offline_players (current_time : Z) (a : analytics) (d : db)
    : analytics * db :=
  foldl (reap_one current_time) (a, d) (offline_players current_time a).

(** [_get_current_session_duration(player_name)], in whole seconds. *)
Definition _get_current_session_duration (now : Z) (player_name : string)
    (a : analytics) : Z :=
  match session_start_times a !! player_name with
  | Some start => Z.quot (now - start) us_per_second
  | None => 0
  end.

End AnalyticsManager.

(** ** FiveMAPI: roster cleaning *)

(** An element of the [/players.json] array, already a dict with a string
    name, an integer ping and a list of identifier strings. *)
Record raw_player := RawPlayer {
  raw_name : string;
  raw_ping : Z;
  raw_identifiers : list string
}.

Module FiveMAPI.

(** [str.isspace] on the ASCII range: tab to carriage return, the four
    separators 28..31 and the blank.  Names are taken to be ASCII, so the
    Unicode blanks and case mappings are outside this model. *)
Definition is_space (c : Ascii.ascii) : bool :=
  let n := Ascii.N_of_ascii c in
  ((9 <=? n) && (n <=? 13) || (28 <=? n) && (n <=? 32))%N.

Fixpoint lstrip (s : string) : string :=
  match s with
  | String c s' => if is_space c then lstrip s' else s
  | EmptyString => EmptyString
  end.

(** [str.strip()]. *)
Definition strip (s : string) : string :=
  String.rev (lstrip (String.rev (lstrip s))).

Definition lower_char (c : Ascii.ascii) : Ascii.ascii :=
  let n := Ascii.N_of_ascii c in
  if ((65 <=? n) && (n <=? 90))%N then Ascii.ascii_of_N (n + 32) else c.

(** [str.lower()]. *)
Fixpoint lower (s : string) : string :=
  match s with
  | String c s' => String (lower_char c) (lower s')
  | EmptyString => EmptyString
  end.

(** The guard of lines 239-241: the cleaned name is kept unless it is
    empty or its lower-case form is one of the sentinels. *)
Definition rejected (player_name : string) : bool :=
  bool_decide (player_name = "")
  || bool_decide (lower player_name ∈ ["unknown"; ""; "null"]).

(** Body of [for player_data in data]. *)
Definition clean_player (player_data : raw_player) : option roster_entry :=
  let player_name := strip (raw_name player_data) in
  if rejected player_name then None
  else Some (RosterEntry player_name (raw_ping player_data)
               (raw_identifiers player_data) "civilian" "civilian").

(** [get_players()] on a well-formed response. *)
Definition get_players (data : list raw_player) : list roster_entry :=
  omap clean_player data.

End FiveMAPI.

(** ** NotificationManager *)

Record notifications := Notifications {
  previous_players : gset string;
  player_join_times : gmap string Z
}.

Definition empty_notifications : notifications := Notifications ∅ ∅.

Module NotificationManager.

(** [_handle_player_join]: the first roster entry of that name supplies
    the details of the logged event. *)
Definition _handle_player_join (now : Z) (players_data : list roster_entry)
    (d : db) (player_name : string) : db :=
  match list_find (λ p, name p = player_name) players_data with
  | Some (_, p) =>
      DatabaseManager.log_event now Join player_name
        (Details (Some (ping p)) (Some (identifiers p)) None None) d
  | None => d
  end.

(** [_handle_player_leave]. *)
Definition _handle_player_leave (now : Z) (join_times : gmap string Z)
    (d : db) (player_name : string) : db :=
  let session_duration :=
    match join_times !! player_name with
    | Some join_time => now - join_time
    | None => 0
    end in
  DatabaseManager.log_event now Leave player_name
    (Details None None (Some session_duration) None) d.

Definition stamp_join (now : Z) (times : gmap string Z) (player_name : string)
    : gmap string Z :=
  match times !! player_name with
  | Some _ => times
  | None => <[player_name := now]> times
  end.

(** [check_player_changes(current_players_data)]. *)
Definition check_player_changes (now : Z) (current_players_data : list roster_entry)
    (n : notifications) (d : db) : notifications * db :=
  let current_players : gset string :=
    list_to_set (filter (λ s, s ≠ "") (name <$> current_players_data)) in
  let joined_players := elements (current_players ∖ previous_players n) in
  let left_players := elements (previous_players n ∖ current_players) in
  let d1 := foldl (_handle_player_join now current_players_data) d joined_players in
  let d2 := foldl (_handle_player_leave now (player_join_times n)) d1 left_players in
  let times1 := foldl (stamp_join now) (player_join_times n) (elements current_players) in
  let times2 := foldl (λ t p, delete p t) times1 left_players in
  (Notifications current_players times2, d2).

End NotificationManager.

(** ** The poll loop and the hourly task of the bot *)

(** What [get_comprehensive_server_data] returns, reduced to the keys the
    poll loop reads. *)
Record snapshot := Snapshot {
  online : bool;
  hostname : string;
  clients : Z;
  maxClients : Z;
  snap_ping : Q;
  snap_players : list roster_entry
}.

Record bot := Bot {
  server_status : snapshot;
  players_data : list roster_entry;
  last_server_online : bool;
  analytics_manager : analytics;
  notification_manager : notifications;
  db_manager : db
}.

Definition initial_bot : bot :=
  Bot (Snapshot false "" 0 0 0%Q []) [] false
    empty_analytics empty_notifications empty_db.

Module MotionlifeBot.

Definition offline_status : snapshot :=
  Snapshot false "Motionlife Roleplay" 0 0 0%Q [].

(** One run of [update_server_status]; [server_data] is the result of
    the fetch ([None] when it failed). *)
Definition update_server_status (now : Z) (server_data : option snapshot)
    (b : bot) : bot :=
  match server_data with
  | Some sd =>
      if online sd then
        match snap_players sd with
        | [] =>
            Bot sd (players_data b) true
              (analytics_manager b) (notification_manager b) (db_manager b)
        | _ :: _ =>
            let '(a1, d1) :=
              AnalyticsManager.update_player_data now (snap_players sd)
                (analytics_manager b) (db_manager b) in
            let d2 := AnalyticsManager.log_ping_data now (snap_ping sd) a1 d1 in
            let '(n1, d3) :=
              NotificationManager.check_player_changes now (snap_players sd)
                (notification_manager b) d2 in
            Bot sd (snap_players sd) true a1 n1 d3
        end
      else
        Bot offline_status [] false
          (analytics_manager b) (notification_manager b) (db_manager b)
  | None =>
      Bot offline_status [] false
        (analytics_manager b) (notification_manager b) (db_manager b)
  end.

(** [cleanup_old_data()]: retention of ping samples (30 days) and events
    (90 days), and the soft inactive flag. *)
Definition cleanup_old_data (now : Z) (d : db) : db :=
  let mark r :=
    if lastSeen r <? now - timedelta_days 30 then
      PlayerRecord (r_name r) (r_identifiers r) (firstSeen r) (lastSeen r)
        (playtime r) (totalSessions r) (r_ping r) (r_job r) (r_role r)
        (Some "inactive")
    else r in
  Db (mark <$> players d)
     (filter (λ e, ¬ timestamp e < now - timedelta_days 90) (event_logs d))
     (filter (λ s, ¬ ps_timestamp s < now - timedelta_days 30) (ping_logs d)).

(** One run of [cleanup_task]; [current_hour] is the local hour. *)
Definition cleanup_task (now : Z) (current_hour : Z) (b : bot) : bot :=
  let '(a1, d1) :=
    AnalyticsManager.clean_offline_players now (analytics_manager b)
      (db_manager b) in
  let d2 := if current_hour =? 0 then cleanup_old_data now d1 else d1 in
  Bot (server_status b) (players_data b) (last_server_online b) a1
    (notification_manager b) d2.

End MotionlifeBot.

(** ** Runs and observations used by the statements *)

(** The part of the log that concerns one player. *)
Definition events_of (p : string) (l : list event) : list event :=
  filter (λ e, player_name e = p) l.

(** Session durations of the leave events of one player, oldest first. *)
Definition leave_durations (p : string) (l : list event) : list Z :=
  omap (λ e, match ev_type e with
             | Leave => session_duration (ev_details e)
             | Join => None
             end) (events_of p l).

(** The roster loop keeps an entry unless its name is empty or "Unknown". *)
Definition kept (e : roster_entry) : bool :=
  bool_decide (¬ (name e = "" ∨ name e = "Unknown")).

(** [now - session_start_times[p]] for a tracked player, 0 otherwise. *)
Definition running_duration (now : Z) (p : string) (a : analytics) : Z :=
  match session_start_times a !! p with
  | Some start => now - start
  | None => 0
  end.

(** Session durations carried by the leave events of a list. *)
Definition durations_of (evs : list event) : list Z :=
  omap (λ e, match ev_type e with
             | Leave => session_duration (ev_details e)
             | Join => None
             end) evs.

Definition Zsum (l : list Z) : Z := foldr Z.add 0 l.

(** A sequence of reconciler calls, each with its clock reading. *)
Definition reconcile_run (ticks : list (Z * list roster_entry))
    (st : analytics * db) : analytics * db :=
  foldl (λ st t, AnalyticsManager.update_player_data t.1 t.2 st.1 st.2) st ticks.

(** The same with rosters processed exactly one nominal interval apart,
    the first one at [t]. *)
Fixpoint regular_run (t : Z) (rosters : list (list roster_entry))
    (st : analytics * db) : analytics * db :=
  match rosters with
  | [] => st
  | r :: rs =>
      regular_run (t + timedelta_seconds AnalyticsManager.tick_seconds) rs
        (AnalyticsManager.update_player_data t r st.1 st.2)
  end.

(** The roster lists the player under a name the loop does not skip. *)
Definition listed (p : string) (r : list roster_entry) : bool :=
  bool_decide (p ∈ name <$> r ∧ p ≠ "" ∧ p ≠ "Unknown").

(** Number of continuing ticks of a player over a sequence of processed
    rosters: the rosters that list the player right after one that did
    ([tracked] tells whether the player was tracked before the first). *)
Fixpoint continuing_ticks (p : string) (tracked : bool)
    (rosters : list (list roster_entry)) : nat :=
  match rosters with
  | [] => 0
  | r :: rs =>
      ((if tracked && listed p r then 1 else 0)
       + continuing_ticks p (listed p r) rs)%nat
  end.

(** The remainders [int(sessionDuration % 30)] flushed at the leaves of a
    player, in seconds. *)
Definition flushed (p : string) (l : list event) : Z :=
  Zsum (AnalyticsManager.remaining_time <$> leave_durations p l).

(** A sequence of reconciler calls fed by the roster cleaning of the
    fetcher, from raw responses. *)
Definition fetch_run (ticks : list (Z * list raw_player))
    (st : analytics * db) : analytics * db :=
  foldl (λ st t,
           AnalyticsManager.update_player_data t.1 (FiveMAPI.get_players t.2)
             st.1 st.2) st ticks.

(** A sequence of poll ticks of the bot. *)
Definition poll_run (ticks : list (Z * option snapshot)) (b : bot) : bot :=
  foldl (λ b t, MotionlifeBot.update_server_status t.1 t.2 b) b ticks.

(** What the state holds about one player: the tracked presence, the
    session start, the stored record and the player's events. *)
Definition view : Type :=
  option presence * option Z * option player_record * list event.

Definition view_of (p : string) (st : analytics * db) : view :=
  (current_players st.1 !! p, session_start_times st.1 !! p,
   players st.2 !! p, events_of p (event_logs st.2)).

(** The view of a player the system has never heard of. *)
Definition unknown_view : view := (None, None, None, []).

(** Stored playtime of a view net of the flushed remainders. *)
Definition net_playtime (v : view) : Z :=
  from_option playtime 0 v.1.2
  - Zsum (AnalyticsManager.remaining_time <$> durations_of v.2).

(** The condition of the [else] branch of the poll loop: no data, or data
    whose [online] flag is false. *)
Definition is_offline (server_data : option snapshot) : bool :=
  match server_data with
  | Some sd => negb (online sd)
  | None => true
  end.

(** The accumulator of the roster loop seen from one player: whether the
    name was added to [current_player_names], and the player's view. *)
Definition roster_view_of (p : string) (st : AnalyticsManager.loop_state)
    : bool * view :=
  (bool_decide (p ∈ st.1.1), view_of p (st.1.2, st.2)).

(** Effect of one roster-loop iteration on the view of the player it
    names. *)
Definition present_view (now : Z) (v : bool * view) (e : roster_entry)
    : bool * view :=
  let '(_, (cp, sst, rec, evs)) := v in
  if decide (name e = "" ∨ name e = "Unknown") then v
  else
    let joining := bool_decide (cp = None) in
    (true,
     (Some (Presence now (ping e) (identifiers e) (job e) (role e)),
      if joining then Some now else sst,
      Some (DatabaseManager.upsert_doc now
              (PlayerData (name e) (identifiers e) (ping e)
                 (if joining then 0 else AnalyticsManager.tick_seconds)
                 (job e) (role e))
              (if joining then DatabaseManager.bump_sessions <$> rec else rec)),
      if joining then
        evs ++ [Event now Join (name e)
                  (Details (Some (ping e)) (Some (identifiers e)) None None)]
      else evs)).

(** Effect of one left-players iteration on the view of the player it
    names. *)
Definition left_view (now : Z) (p : string) (v : view) : view :=
  let '(cp, sst, rec, evs) := v in
  match sst with
  | Some start =>
      let pr := default AnalyticsManager.default_presence cp in
      (None, None,
       if 0 <? AnalyticsManager.remaining_time (now - start) then
         Some (DatabaseManager.upsert_doc now
                 (PlayerData p (p_identifiers pr) (p_ping pr)
                    (AnalyticsManager.remaining_time (now - start))
                    (p_job pr) (p_role pr)) rec)
       else rec,
       evs ++ [Event now Leave p (Details None None (Some (now - start)) None)])
  | None => (None, None, rec, evs)
  end.

(** One call of [update_player_data] seen from player [p]; [occ] is the
    list of roster entries that carry the name [p]. *)
Definition player_step (now : Z) (p : string) (occ : list roster_entry)
    (v : view) : view :=
  let '(seen, v1) := foldl (present_view now) (false, v) occ in
  if seen : bool then v1
  else match v1.1.1.1 with
       | Some _ => left_view now p v1
       | None => v1
       end.

(** The accrual invariant of one player's view at the time [now] of the
    last processed roster: presence and session start go together, the
    running session is a whole number of nominal intervals old, and the
    stored playtime falls short of the logged and running durations by
    one interval per completed session. *)
Definition accrual_inv (now : Z) (v : view) : Prop :=
  let '(cp, sst, rec, evs) := v in
  (cp = None ↔ sst = None)
  ∧ (∀ start, sst = Some start →
       (now - start) mod timedelta_seconds AnalyticsManager.tick_seconds = 0)
  ∧ timedelta_seconds (from_option playtime 0 rec)
    + timedelta_seconds AnalyticsManager.tick_seconds
      * Z.of_nat (length (durations_of evs))
    = Zsum (durations_of evs) + from_option (λ start, now - start) 0 sst.

(** Effect of one reaping iteration on the reaped player's own view. *)
Definition reap_view (now : Z) (p : string) (v : view) : view :=
  let '(_, sst, rec, evs) := v in
  (None, None, rec,
   match sst with
   | Some start =>
       evs ++ [Event now Leave p
                 (Details None None (Some (now - start)) (Some "timeout"))]
   | None => evs
   end).

(** ** The claims in the words of the specification

    Each definition below follows a sentence of the specification, to be
    compared with what the code above computes. *)

(** Section 8, first property, as the claim words it: accrued playtime
    plus running duration against wall-clock time since the first join,
    within one tick interval. *)
Definition spec_accrual_matches_wall_clock (now first_join : Z) (p : string)
    (a : analytics) (d : db) : Prop :=
  Z.abs (timedelta_seconds (DatabaseManager.get_playtime p d)
         + running_duration now p a - (now - first_join))
  <= timedelta_seconds AnalyticsManager.tick_seconds.

(** Section 4.1 step 5: a leave event carrying reason "departed". *)
Definition is_leave (p : string) (e : event) : Prop :=
  player_name e = p ∧ ev_type e = Leave.

Definition is_departed_leave (p : string) (e : event) : Prop :=
  is_leave p e ∧ reason (ev_details e) = Some "departed".

Definition is_join (p : string) (e : event) : Prop :=
  player_name e = p ∧ ev_type e = Join.

Global Instance is_leave_dec p e : Decision (is_leave p e).
Proof. unfold is_leave. apply _. Defined.
Global Instance is_departed_leave_dec p e : Decision (is_departed_leave p e).
Proof. unfold is_departed_leave. apply _. Defined.
Global Instance is_join_dec p e : Decision (is_join p e).
Proof. unfold is_join. apply _. Defined.

(** Section 4.3: replay of all the events of the window in chronological
    order, with the live count as fallback. *)
Definition spec_peak (now days : Z) (live : nat) (log : list event) : nat :=
  let window := filter (λ e, now - timedelta_days days <= timestamp e) log in
  match window with
  | [] => live
  | _ => AnalyticsManager.replay (AnalyticsManager.sort_by_timestamp window)
  end.

(** Section 4.3: "on each tick ... appends one PingSample". *)
Definition spec_appends_one_sample (now : Z) (server_data : option snapshot)
    (b : bot) : Prop :=
  length (ping_logs (db_manager (MotionlifeBot.update_server_status now server_data b)))
  = S (length (ping_logs (db_manager b))).

(** Section 4.3: the answer of [queryPingStats] holds the arithmetic means
    of the per-sample fields. *)
Definition spec_ping_means (w : list ping_sample) (s : DatabaseManager.ping_stats)
    : Prop :=
  (DatabaseManager.st_low s == Qmean (low <$> w)
   ∧ DatabaseManager.st_avg s == Qmean (avg <$> w)
   ∧ DatabaseManager.st_high s == Qmean (high <$> w))%Q.

(** Claim C10, last clause: without a reaper run, later poll ticks never
    notice the departure of [p]. *)
Definition spec_only_reaper_detects (p : string) (b : bot) : Prop :=
  ∀ ticks : list (Z * option snapshot),
    current_players (analytics_manager (poll_run ticks b)) !! p
    = current_players (analytics_manager b) !! p.

(** ** Concrete states used as examples *)

Definition reaper_example : analytics :=
  Analytics
    {[ "Ann" := Presence 0 40 [] "civilian" "civilian" ]}
    {[ "Ann" := -timedelta_seconds 90 ]}.


Definition entry (n : string) (pg : Z) : roster_entry :=
  RosterEntry n pg [] "civilian" "civilian".

Definition online_snapshot (r : list roster_entry) : snapshot :=
  Snapshot true "Motionlife RP" (Z.of_nat (length r)) 128 (25 # 1) r.

(** Ann and Bob online, then Bob alone, then both again, 30 s apart. *)
Definition rejoin_bot_1 : bot :=
  MotionlifeBot.update_server_status 0
    (Some (online_snapshot [entry "Ann" 40; entry "Bob" 50])) initial_bot.

Definition rejoin_bot_2 : bot :=
  MotionlifeBot.update_server_status (timedelta_seconds 30)
    (Some (online_snapshot [entry "Bob" 50])) rejoin_bot_1.

Definition rejoin_bot_3 : bot :=
  MotionlifeBot.update_server_status (timedelta_seconds 60)
    (Some (online_snapshot [entry "Ann" 40; entry "Bob" 50])) rejoin_bot_2.

(** Ann alone on three rosters 30 s apart. *)
Definition steady_run : analytics * db :=
  reconcile_run
    [(0, [entry "Ann" 40]);
     (timedelta_seconds 30, [entry "Ann" 40]);
     (timedelta_seconds 60, [entry "Ann" 40])]
    (empty_analytics, empty_db).

(** Ann present on two rosters and absent from the following four. *)
Definition gap_run : analytics * db :=
  reconcile_run
    [(0, [entry "Ann" 40; entry "Bob" 50]);
     (timedelta_seconds 30, [entry "Ann" 40; entry "Bob" 50]);
     (timedelta_seconds 60, [entry "Bob" 50]);
     (timedelta_seconds 90, [entry "Bob" 50]);
     (timedelta_seconds 120, [entry "Bob" 50]);
     (timedelta_seconds 150, [entry "Bob" 50])]
    (empty_analytics, empty_db).

(** Three players tracked after one online tick. *)
Definition three_online_bot : bot :=
  MotionlifeBot.update_server_status 0
    (Some (online_snapshot [entry "Ann" 40; entry "Bob" 50; entry "Cid" 60]))
    initial_bot.

(** Ann and Bob tracked, then an online tick with an empty roster. *)
Definition emptied_bot : bot :=
  MotionlifeBot.update_server_status (timedelta_seconds 30)
    (Some (online_snapshot [])) rejoin_bot_1.

(** Three ping samples with per-sample low 1, 2 and 2, and one sample
    whose fields are all zero. *)
Definition uneven_pings : db :=
  Db ∅ []
    [PingSample 0 1 5 9 3; PingSample 0 2 5 9 3; PingSample 0 2 5 9 3].

Definition zero_pings : db := Db ∅ [] [PingSample 0 0 0 0 0].

Definition no_details : details := Details None None None None.

(** A busy week: Ann and Bob join and stay, then Cid joins and leaves
    five hundred times; 1002 events, one second apart. *)
Definition busy_log : list event :=
  [Event 0 Join "Ann" no_details; Event (timedelta_seconds 1) Join "Bob" no_details]
  ++ flat_map (λ i : nat,
       [Event (timedelta_seconds (2 * Z.of_nat i + 2)) Join "Cid" no_details;
        Event (timedelta_seconds (2 * Z.of_nat i + 3)) Leave "Cid" no_details])
     (seq 0 500).

(** * Further observations and operations

    Auxiliary notions for properties of the code beyond the claims. *)

(** Presence and stored record of a player that were written by the same
    roster entry at the same tick. *)
Definition agrees (now : Z) (p : string) (pr : presence) (rec : player_record)
    : Prop :=
  last_update pr = now ∧ lastSeen rec = now ∧ r_name rec = p
  ∧ r_ping rec = p_ping pr ∧ r_identifiers rec = p_identifiers pr
  ∧ r_job rec = p_job pr ∧ r_role rec = p_role pr.

(** A stored record is still there, with the same first sighting and
    status and with playtime and session count not smaller. *)
Definition record_grows (o o' : option player_record) : Prop :=
  match o with
  | Some r =>
      ∃ r', o' = Some r' ∧ playtime r <= playtime r'
            ∧ totalSessions r <= totalSessions r'
            ∧ firstSeen r' = firstSeen r ∧ r_status r' = r_status r
  | None => True
  end.

(** ** Further store queries *)

(** Stable insertion sort by descending key, the order of
    [cursor.sort(field, DESCENDING)]. *)
Fixpoint insert_desc_by {A : Type} (key : A → Z) (e : A) (l : list A) : list A :=
  match l with
  | [] => [e]
  | x :: l' => if key x <=? key e then e :: l else x :: insert_desc_by key e l'
  end.

Definition sort_desc_by {A : Type} (key : A → Z) (l : list A) : list A :=
  foldr (insert_desc_by key) [] l.

Module DatabaseQueries.

(** The documents of the [players] collection. *)
Definition all_players (d : db) : list player_record :=
  (map_to_list (players d)).*2.

(** [get_players_by_playtime(limit)], for [limit >= 1]: the documents
    with positive playtime, longest playtime first. *)
Definition get_players_by_playtime (limit : nat) (d : db) : list player_record :=
  take limit (sort_desc_by playtime (filter (λ r, 0 < playtime r) (all_players d))).

(** [get_active_players_count(hours)]. *)
Definition get_active_players_count (now : Z) (hours : Z) (d : db) : nat :=
  length (filter (λ r, now - timedelta_hours hours <= lastSeen r) (all_players d)).

(** [get_player_events(player_name, limit)], for [limit >= 1]. *)
Definition get_player_events (player_name : string) (limit : nat) (d : db)
    : list event :=
  take limit (sort_desc_by timestamp (events_of player_name (event_logs d))).

End DatabaseQueries.


(** The players with a [join] event among the given events. *)
Definition joined (evs : list event) : gset string :=
  list_to_set (player_name <$> filter (λ e, ev_type e = Join) evs).

(** A ping sample whose three figures are in order. *)
Definition ordered_sample (s : ping_sample) : Prop :=
  (low s <= avg s)%Q ∧ (avg s <= high s)%Q.

(** ** Server status notifications of the poll loop *)

Inductive status_notice := ServerOnline | ServerOffline.

Global Instance status_notice_eq_dec : EqDecision status_notice.
Proof. solve_decision. Defined.

(** The call of [send_server_status_notification] that one run of
    [update_server_status] makes, if any: "online" when the server is
    seen online after [last_server_online] was false, "offline" when it
    is seen offline after [last_server_online] was true. *)
Definition status_notification (server_data : option snapshot) (b : bot)
    : option status_notice :=
  if is_offline server_data then
    if last_server_online b then Some ServerOffline else None
  else
    if last_server_online b then None else Some ServerOnline.

(** The status notifications of a run of poll ticks, in order. *)
Fixpoint status_notifications (ticks : list (Z * option snapshot)) (b : bot)
    : list status_notice :=
  match ticks with
  | [] => []
  | (now, server_data) :: ticks' =>
      match status_notification server_data b with
      | Some x => [x]
      | None => []
      end ++ status_notifications ticks'
               (MotionlifeBot.update_server_status now server_data b)
  end.

Definition other_notice (x : status_notice) : status_notice :=
  match x with ServerOnline => ServerOffline | ServerOffline => ServerOnline end.

(** A list of notices that starts with [x] and never repeats a notice. *)
Fixpoint alternating (x : status_notice) (l : list status_notice) : Prop :=
  match l with
  | [] => True
  | y :: l' => y = x ∧ alternating (other_notice x) l'
  end.

(** ** Reports of the analytics manager *)

Module AnalyticsReports.

Inductive trend_direction := Up | Down | Stable.

Record player_trends := PlayerTrends {
  current_week_active : Z;
  previous_week_active : Z;
  trend_percentage : Q;
  trend_direction_of : trend_direction;
  top_players : list player_record
}.

(** [generate_player_trends()]; the direction is decided on the
    percentage before it is rounded. *)
Definition generate_player_trends (now : Z) (d : db) : player_trends :=
  let current_week :=
    Z.of_nat (DatabaseQueries.get_active_players_count now (24 * 7) d) in
  let previous_week_data :=
    Z.of_nat (DatabaseQueries.get_active_players_count now (24 * 14) d) in
  let previous_week := Z.max 0 (previous_week_data - current_week) in
  let trend :=
    if 0 <? previous_week then
      (inject_Z (current_week - previous_week) / inject_Z previous_week * 100)%Q
    else if 0 <? current_week then 100%Q else 0%Q in
  PlayerTrends current_week previous_week (round1 trend)
    (if Qlt_le_dec 0 trend then Up
     else if Qlt_le_dec trend 0 then Down else Stable)
    (DatabaseQueries.get_players_by_playtime 5 d).

(** [_calculate_uptime_percentage(days)]: the ping samples of the period
    against one expected sample per 30 seconds. *)
Definition _calculate_uptime_percentage (now days : Z) (d : db) : Q :=
  let cutoff := now - timedelta_days days in
  let expected_updates := (inject_Z (days * 24 * 60 * 60) / 30)%Q in
  let actual_updates :=
    inject_Z (Z.of_nat (length (filter (λ s, cutoff <= ps_timestamp s)
                                  (ping_logs d)))) in
  if Qeq_dec expected_updates 0 then 100%Q
  else round1 (Qmin (actual_updates / expected_updates * 100) 100).

End AnalyticsReports.

(** ** Queries of the analytics manager on the tracking state *)

Record online_player := OnlinePlayer {
  op_name : string;
  op_ping : Z;
  online_since : Z;
  op_session_duration : Z;
  op_job : string;
  op_role : string
}.

Record session_statistics := SessionStatistics {
  total_online : nat;
  average_session_time : Z;
  longest_session : Z;
  average_ping : Q;
  stat_players : option (list online_player)
}.

Record player_info := PlayerInfo {
  pi_player : player_record;
  pi_total_sessions : nat;
  pi_recent_events : list event;
  pi_avg_ping : Z;
  pi_avg_session_duration : Z;
  pi_is_online : bool;
  pi_current_session_duration : Z
}.

Module AnalyticsQueries.

(** [get_current_online_count()]. *)
Definition get_current_online_count (a : analytics) : nat :=
  size (current_players a).

(** [get_current_online_players()]: the session is counted from the
    session start, or from the last update when there is none; the
    duration is in whole seconds. *)
Definition get_current_online_players (now : Z) (a : analytics)
    : list online_player :=
  (λ kv : string * presence,
     let since := default (last_update kv.2) (session_start_times a !! kv.1) in
     OnlinePlayer kv.1 (p_ping kv.2) since
       (Z.quot (now - since) us_per_second) (p_job kv.2) (p_role kv.2))
  <$> map_to_list (current_players a).

(** [get_session_statistics()]. *)
Definition get_session_statistics (now : Z) (a : analytics)
    : session_statistics :=
  match get_current_online_players now a with
  | [] => SessionStatistics 0 0 0 0%Q None
  | p :: rest =>
      let online_players := p :: rest in
      let session_times := op_session_duration <$> online_players in
      let pings := filter (λ x, 0 < x) (op_ping <$> online_players) in
      SessionStatistics (length online_players)
        (Z.quot (Zsum session_times) (Z.of_nat (length session_times)))
        (foldr Z.max (op_session_duration p) (op_session_duration <$> rest))
        (match pings with
         | [] => 0%Q
         | _ => round1 (inject_Z (Zsum pings)
                        / inject_Z (Z.of_nat (length pings)))
         end)
        (Some online_players)
  end.

(** [force_player_update(player_name)]: the returned flag and the
    store. *)
Definition force_player_update (now : Z) (player_name : string)
    (a : analytics) (d : db) : bool * db :=
  match current_players a !! player_name with
  | Some player_data =>
      let session_time :=
        match session_start_times a !! player_name with
        | Some start => Z.quot (now - start) us_per_second
        | None => 0
        end in
      (true,
       DatabaseManager.upsert_player now
         (PlayerData player_name (p_identifiers player_data)
            (p_ping player_data) session_time (p_job player_data)
            (p_role player_data)) d)
  | None => (false, d)
  end.

(** [get_player_info(player_name)].  Session durations are stored in
    microseconds here, so the average in whole seconds divides by the
    number of sessions and by [us_per_second]. *)
Definition get_player_info (now : Z) (player : string) (a : analytics)
    (d : db) : option player_info :=
  match players d !! player with
  | None => None
  | Some rec =>
      let recent_events := DatabaseManager.get_recent_events 50 d in
      let player_events := filter (λ e, player_name e = player) recent_events in
      let join_events := filter (λ e, ev_type e = Join) player_events in
      let leave_events := filter (λ e, ev_type e = Leave) player_events in
      let recent_sessions :=
        filter (λ x, 0 < x)
          ((λ e, default 0 (session_duration (ev_details e)))
           <$> drop (length leave_events - 10) leave_events) in
      let avg_session :=
        match recent_sessions with
        | [] => 0
        | _ => Z.quot (Zsum recent_sessions)
                 (Z.of_nat (length recent_sessions) * us_per_second)
        end in
      Some (PlayerInfo rec (length join_events) (take 5 player_events)
              (r_ping rec) avg_session
              (bool_decide (is_Some (current_players a !! player)))
              (AnalyticsManager._get_current_session_duration now player a))
  end.

End AnalyticsQueries.

(** ** Store invariant *)

(** A stored record that sits under its own name, with totals that are
    not negative. *)
Definition sane_record (n : string) (r : player_record) : Prop :=
  r_name r = n ∧ 0 <= playtime r ∧ 0 <= totalSessions r.

Definition sane_store (d : db) : Prop := map_Forall sane_record (players d).

(** ** Player rank of the leaderboard *)

(** The rank computed by [create_player_rank_embed]: the position,
    counted from one, of the first record with that name among the first
    1000 players by playtime; without one the embed says "Unranked". *)
Definition player_rank (player : string) (d : db) : option nat :=
  (λ ir : nat * player_record, S ir.1)
  <$> list_find (λ r, r_name r = player)
        (DatabaseQueries.get_players_by_playtime 1000 d).

(** ** Runs of the bot *)

(** The two periodic tasks that change the tracking state and the store,
    each with its clock reading. *)
Inductive bot_step :=
  | PollTick (now : Z) (server_data : option snapshot)
  | CleanupTick (now : Z) (current_hour : Z).

Definition bot_step_run (b : bot) (s : bot_step) : bot :=
  match s with
  | PollTick now server_data =>
      MotionlifeBot.update_server_status now server_data b
  | CleanupTick now current_hour =>
      MotionlifeBot.cleanup_task now current_hour b
  end.

(** Any interleaving of poll ticks and cleanup runs. *)
Definition bot_run (steps : list bot_step) (b : bot) : bot :=
  foldl bot_step_run b steps.

(** What holds of the bot between two tasks. *)
Definition bot_invariant (b : bot) : Prop :=
  dom (current_players (analytics_manager b))
  = dom (session_start_times (analytics_manager b))
  ∧ (∀ p, is_Some (current_players (analytics_manager b) !! p) →
          p ≠ "" ∧ p ≠ "Unknown"
          ∧ is_Some (players (db_manager b) !! p)
          ∧ p ∈ previous_players (notification_manager b))
  ∧ sane_store (db_manager b)
  ∧ Forall ordered_sample (ping_logs (db_manager b)).

(** ** Blanks around a name *)

(** The string consists of blanks only. *)
Fixpoint all_blank (s : string) : bool :=
  match s with
  | String c s' => FiveMAPI.is_space c && all_blank s'
  | EmptyString => true
  end.

Definition starts_blank (s : string) : bool :=
  match s with
  | String c _ => FiveMAPI.is_space c
  | EmptyString => false
  end.

Definition ends_blank (s : string) : bool := starts_blank (String.rev s).

(** Every character of the name is an ASCII character.  On such names
    [FiveMAPI.strip] and [FiveMAPI.lower] are [str.strip] and
    [str.lower]. *)
Fixpoint ascii_only (s : string) : bool :=
  match s with
  | String c s' => (Ascii.N_of_ascii c <? 128)%N && ascii_only s'
  | EmptyString => true
  end.

(** C8 as the specification words it: the excluded names are "",
    "Unknown" and "null", and an entry of the response with any other
    name is matched exactly, that is, tracked under that very name. *)
Definition spec_exact_match (raw : list raw_player) : Prop :=
  ∀ n : string,
    is_Some (current_players
               (AnalyticsManager.update_player_data 0 (FiveMAPI.get_players raw)
                  empty_analytics empty_db).1 !! n)
    ↔ n ∈ raw_name <$> raw ∧ n ∉ [""; "Unknown"; "null"].
(** * Properties *)

(** ** The store *)

Section Store.
Import DatabaseManager.

Lemma get_playtime_upsert t pd d :
  get_playtime (pd_name pd) (upsert_player t pd d)
  = get_playtime (pd_name pd) d + pd_session_time pd.
Proof.
  unfold get_playtime, upsert_player. simpl. rewrite lookup_insert_eq.
  destruct (players d !! pd_name pd); simpl; lia.
Qed.

Lemma event_logs_upsert t pd d : event_logs (upsert_player t pd d) = event_logs d.
Proof. reflexivity. Qed.

Lemma ping_logs_upsert t pd d : ping_logs (upsert_player t pd d) = ping_logs d.
Proof. reflexivity. Qed.

Lemma event_logs_log_event t ty n dt d :
  event_logs (log_event t ty n dt d) = event_logs d ++ [Event t ty n dt].
Proof. destruct ty; reflexivity. Qed.

Lemma ping_logs_log_event t ty n dt d :
  ping_logs (log_event t ty n dt d) = ping_logs d.
Proof. destruct ty; reflexivity. Qed.

End Store.

(** C4. Upserting one player with session_time 10 and then 20 adds 30 to
    the stored playtime, whatever the other fields and clock readings
    are; for a player without a record the stored playtime is then 30
    (and so not 20). *)
Theorem upsert_player_increments (d : db) (n : string) (t1 t2 : Z)
    (ids1 ids2 : list string) (p1 p2 : Z) (j1 j2 r1 r2 : string) :
  let d' :=
    DatabaseManager.upsert_player t2 (PlayerData n ids2 p2 20 j2 r2)
      (DatabaseManager.upsert_player t1 (PlayerData n ids1 p1 10 j1 r1) d) in
  DatabaseManager.get_playtime n d' = DatabaseManager.get_playtime n d + 30
  ∧ (players d !! n = None →
     DatabaseManager.get_playtime n d' = 30 ∧ DatabaseManager.get_playtime n d' ≠ 20).
Proof.
  intros d'. subst d'.
  rewrite (get_playtime_upsert t2 (PlayerData n ids2 p2 20 j2 r2)).
  rewrite (get_playtime_upsert t1 (PlayerData n ids1 p1 10 j1 r1)). simpl.
  split; [lia|]. intros Hnew.
  unfold DatabaseManager.get_playtime. rewrite Hnew. lia.
Qed.

Lemma upsert_player_increments_witness :
  players empty_db !! "Ann" = None
  ∧ DatabaseManager.get_playtime "Ann"
      (DatabaseManager.upsert_player 7 (PlayerData "Ann" [] 41 20 "civilian" "civilian")
         (DatabaseManager.upsert_player 3 (PlayerData "Ann" [] 40 10 "civilian" "civilian")
            empty_db)) = 30.
Proof.
  split; [reflexivity|].
  apply (upsert_player_increments empty_db "Ann" 3 7 [] [] 40 41
           "civilian" "civilian" "civilian" "civilian").
  reflexivity.
Defined.

(** Reduce pairs and record projections, leaving the store operations
    folded. *)
Ltac simpl_state :=
  cbn [fst snd current_players session_start_times players event_logs ping_logs].

(** ** Loops seen from one player *)

Section Folds.
Context {S B V : Type}.

(** A projection that no iteration changes survives the loop. *)
Lemma foldl_preserved (proj : S → V) (f : S → B → S) :
  (∀ st x, proj (f st x) = proj st) →
  ∀ l st, proj (foldl f st l) = proj st.
Proof.
  intros Hstep l. induction l as [|x l IH]; intros st; simpl; [done|].
  by rewrite IH, Hstep.
Qed.

(** A projection that only iterations keyed by [p] change evolves by the
    iterations keyed by [p] alone. *)
Lemma foldl_keyed (proj : S → V) (f : S → B → S) (key : B → string)
    (g : V → B → V) (p : string) :
  (∀ st x, key x ≠ p → proj (f st x) = proj st) →
  (∀ st x, key x = p → proj (f st x) = g (proj st) x) →
  ∀ l st, proj (foldl f st l) = foldl g (proj st) (filter (λ x, key x = p) l).
Proof.
  intros Hother Hsame l. induction l as [|x l IH]; intros st; simpl; [done|].
  rewrite IH. destruct (decide (key x = p)) as [Heq|Hne].
  - rewrite filter_cons_True by done. simpl. by rewrite Hsame.
  - rewrite filter_cons_False by done. by rewrite Hother.
Qed.
End Folds.

Lemma filter_eq_NoDup (p : string) (l : list string) :
  NoDup l → filter (λ x, x = p) l = if decide (p ∈ l) then [p] else [].
Proof.
  induction 1 as [|x l Hx Hnd IH]; [done|].
  destruct (decide (x = p)) as [->|Hne].
  - rewrite filter_cons_True by done. rewrite IH.
    rewrite decide_False by done. rewrite decide_True by set_solver. done.
  - rewrite filter_cons_False by done. rewrite IH.
    destruct (decide (p ∈ l)).
    + rewrite decide_True by set_solver. done.
    + rewrite decide_False by set_solver. done.
Qed.

Section StoreViews.
Import DatabaseManager.

Lemma events_of_app p l1 l2 : events_of p (l1 ++ l2) = events_of p l1 ++ events_of p l2.
Proof. apply filter_app. Qed.

Lemma events_of_log_event_ne p t ty n dt d :
  n ≠ p → events_of p (event_logs (log_event t ty n dt d)) = events_of p (event_logs d).
Proof.
  intros Hne. rewrite event_logs_log_event, events_of_app.
  unfold events_of at 2. rewrite filter_cons_False by done.
  simpl. by rewrite app_nil_r.
Qed.

Lemma events_of_log_event_eq p t ty dt d :
  events_of p (event_logs (log_event t ty p dt d))
  = events_of p (event_logs d) ++ [Event t ty p dt].
Proof.
  rewrite event_logs_log_event, events_of_app.
  unfold events_of at 2. by rewrite filter_cons_True by done.
Qed.

Lemma players_log_event_ne p t ty n dt d :
  n ≠ p → players (log_event t ty n dt d) !! p = players d !! p.
Proof.
  intros Hne. unfold log_event. destruct ty; simpl; [|done].
  by rewrite lookup_alter_ne.
Qed.

Lemma players_log_leave p t n dt d :
  players (log_event t Leave n dt d) !! p = players d !! p.
Proof. done. Qed.

Lemma players_upsert_ne p t pd d :
  pd_name pd ≠ p → players (upsert_player t pd d) !! p = players d !! p.
Proof. intros Hne. unfold upsert_player. simpl. by rewrite lookup_insert_ne. Qed.

End StoreViews.

(** ** The reaper *)

Section Reaper.
Import AnalyticsManager.

Lemma reap_one_other now p st q :
  q ≠ p → view_of p (reap_one now st q) = view_of p st.
Proof.
  intros Hne. destruct st as [a d]. unfold view_of, reap_one.
  destruct (session_start_times a !! q) as [start|] eqn:Hq; simpl_state.
  - rewrite !lookup_delete_ne by done.
    by rewrite events_of_log_event_ne by done.
  - by rewrite lookup_delete_ne by done.
Qed.

Lemma reap_one_self now p st :
  view_of p (reap_one now st p) = reap_view now p (view_of p st).
Proof.
  destruct st as [a d]. unfold view_of, reap_one, reap_view. simpl_state.
  destruct (session_start_times a !! p) as [start|] eqn:Hq; simpl_state.
  - rewrite !lookup_delete_eq. by rewrite events_of_log_event_eq.
  - rewrite lookup_delete_eq. by rewrite Hq.
Qed.

Lemma NoDup_offline_players now a : NoDup (offline_players now a).
Proof.
  unfold offline_players.
  eapply sublist_NoDup; [apply (NoDup_fst_map_to_list (current_players a))|].
  apply fmap_sublist, sublist_filter.
Qed.

Lemma elem_of_offline_players now a p :
  p ∈ offline_players now a ↔
  ∃ pr, current_players a !! p = Some pr ∧ offline_threshold < now - last_update pr.
Proof.
  unfold offline_players. rewrite list_elem_of_fmap. split.
  - intros [[q pr] [-> Hin]]. apply list_elem_of_filter in Hin as [Hstale Hin].
    apply elem_of_map_to_list in Hin. by exists pr.
  - intros (pr & Hp & Hstale). exists (p, pr). split; [done|].
    apply list_elem_of_filter. split; [done|]. by apply elem_of_map_to_list.
Qed.

(** The reaper, seen from one player. *)
Lemma clean_offline_players_view now a d p :
  view_of p (clean_offline_players now a d)
  = if decide (p ∈ offline_players now a)
    then reap_view now p (view_of p (a, d)) else view_of p (a, d).
Proof.
  unfold clean_offline_players.
  rewrite (foldl_keyed (view_of p) (reap_one now) id
             (λ v _, reap_view now p v) p
             (λ st q, reap_one_other now p st q)).
  - change (filter (λ x, id x = p) (offline_players now a))
      with (filter (λ x, x = p) (offline_players now a)).
    rewrite filter_eq_NoDup by apply NoDup_offline_players.
    by destruct (decide (p ∈ offline_players now a)).
  - intros st x Hx. simpl in Hx. subst x. apply reap_one_self.
Qed.

End Reaper.

(** C7. A tracked player whose last update is at most two minutes before
    the reap time is kept, with no event logged for them; one whose last
    update is older is removed from both tracking maps by that run, which
    logs for them exactly one event: a leave with reason "timeout" and
    session duration [now - session start].  Nothing here depends on how
    many poll ticks were missed in between. *)
Theorem reaper_fires_exactly_on_stale (now : Z) (a : analytics) (d : db)
    (p : string) (pr : presence) (start : Z) :
  current_players a !! p = Some pr →
  session_start_times a !! p = Some start →
  let st' := AnalyticsManager.clean_offline_players now a d in
  (now - last_update pr <= timedelta_minutes 2 →
     current_players st'.1 !! p = Some pr
     ∧ session_start_times st'.1 !! p = Some start
     ∧ events_of p (event_logs st'.2) = events_of p (event_logs d))
  ∧ (timedelta_minutes 2 < now - last_update pr →
     current_players st'.1 !! p = None
     ∧ session_start_times st'.1 !! p = None
     ∧ events_of p (event_logs st'.2)
       = events_of p (event_logs d)
         ++ [Event now Leave p
               (Details None None (Some (now - start)) (Some "timeout"))]).
Proof.
  intros Hcp Hsst st'.
  pose proof (clean_offline_players_view now a d p) as Hview.
  fold st' in Hview. unfold view_of in Hview. simpl in Hview.
  rewrite Hcp, Hsst in Hview.
  split; intros Hage.
  - rewrite decide_False in Hview.
    + by inversion Hview.
    + rewrite elem_of_offline_players. intros (pr' & Hpr' & Hstale).
      rewrite Hcp in Hpr'. inversion Hpr'; subst pr'.
      unfold AnalyticsManager.offline_threshold in Hstale. lia.
  - rewrite decide_True in Hview.
    + by inversion Hview.
    + rewrite elem_of_offline_players. by exists pr.
Qed.

Lemma reaper_fires_exactly_on_stale_witness :
  let st' := AnalyticsManager.clean_offline_players (timedelta_seconds 121)
               reaper_example empty_db in
  current_players st'.1 !! "Ann" = None
  ∧ session_start_times st'.1 !! "Ann" = None
  ∧ events_of "Ann" (event_logs st'.2)
    = [Event (timedelta_seconds 121) Leave "Ann"
         (Details None None (Some (timedelta_seconds 211)) (Some "timeout"))].
Proof.
  apply (reaper_fires_exactly_on_stale (timedelta_seconds 121) reaper_example
           empty_db "Ann" (Presence 0 40 [] "civilian" "civilian")
           (- timedelta_seconds 90)).
  - reflexivity.
  - reflexivity.
  - vm_compute. reflexivity.
Defined.

(** ** The reconciler, seen from one player *)

Section Reconciler.
Import AnalyticsManager DatabaseManager.

Lemma players_upsert_eq t pd d n :
  pd_name pd = n →
  players (upsert_player t pd d) !! n = Some (upsert_doc t pd (players d !! n)).
Proof. intros <-. unfold upsert_player. simpl. by rewrite lookup_insert_eq. Qed.

Lemma players_log_join_eq t p dt d :
  players (log_event t Join p dt d) !! p = bump_sessions <$> players d !! p.
Proof. unfold log_event. simpl. by rewrite lookup_alter_eq. Qed.

Lemma process_player_other now p st e :
  name e ≠ p →
  roster_view_of p (process_player now st e) = roster_view_of p st.
Proof.
  intros Hne. destruct st as [[names a] d]. unfold process_player.
  destruct (decide (name e = "" ∨ name e = "Unknown")) as [|Hvalid]; [done|].
  unfold roster_view_of, view_of. simpl_state.
  rewrite lookup_insert_ne by done.
  rewrite players_upsert_ne by done.
  rewrite event_logs_upsert.
  f_equal; [apply bool_decide_ext; set_solver|].
  destruct (bool_decide (current_players a !! name e = None)).
  - rewrite lookup_insert_ne by done.
    rewrite players_log_event_ne by done.
    by rewrite events_of_log_event_ne by done.
  - done.
Qed.

Lemma process_player_self now p st e :
  name e = p →
  roster_view_of p (process_player now st e)
  = present_view now (roster_view_of p st) e.
Proof.
  intros <-. destruct st as [[names a] d]. unfold process_player, present_view.
  unfold roster_view_of at 2. unfold view_of. simpl_state.
  destruct (decide (name e = "" ∨ name e = "Unknown")) as [|Hvalid]; [done|].
  unfold roster_view_of, view_of. simpl_state.
  rewrite lookup_insert_eq.
  rewrite players_upsert_eq by done.
  rewrite event_logs_upsert.
  f_equal; [apply bool_decide_eq_true; set_solver|].
  destruct (bool_decide (current_players a !! name e = None)).
  - rewrite lookup_insert_eq.
    rewrite players_log_join_eq.
    by rewrite events_of_log_event_eq.
  - done.
Qed.

Lemma process_left_other now p st q :
  q ≠ p → view_of p (process_left now st q) = view_of p st.
Proof.
  intros Hne. destruct st as [a d]. unfold view_of, process_left.
  destruct (session_start_times a !! q) as [start|] eqn:Hq; simpl_state.
  - rewrite !lookup_delete_ne by done.
    destruct (0 <? remaining_time (now - start)).
    + rewrite players_upsert_ne by done. rewrite event_logs_upsert.
      rewrite players_log_leave. by rewrite events_of_log_event_ne by done.
    + rewrite players_log_leave. by rewrite events_of_log_event_ne by done.
  - by rewrite lookup_delete_ne by done.
Qed.

Lemma process_left_self now p st :
  view_of p (process_left now st p) = left_view now p (view_of p st).
Proof.
  destruct st as [a d]. unfold view_of, process_left, left_view. simpl_state.
  destruct (session_start_times a !! p) as [start|] eqn:Hq; simpl_state.
  - rewrite !lookup_delete_eq.
    destruct (0 <? remaining_time (now - start)).
    + rewrite players_upsert_eq by done. rewrite event_logs_upsert.
      rewrite players_log_leave. rewrite events_of_log_event_eq. reflexivity.
    + rewrite players_log_leave. rewrite events_of_log_event_eq. reflexivity.
  - rewrite lookup_delete_eq. by rewrite Hq.
Qed.

(** Locality: what [update_player_data] does to one player is decided by
    that player's own view and the roster entries carrying the name. *)
Lemma update_player_data_view now r a d p :
  view_of p (update_player_data now r a d)
  = player_step now p (filter (λ e, name e = p) r) (view_of p (a, d)).
Proof.
  unfold update_player_data, player_step.
  pose proof (foldl_keyed (roster_view_of p) (process_player now) name
                (present_view now) p
                (λ st e, process_player_other now p st e)
                (λ st e, process_player_self now p st e) r (∅, a, d)) as Hloop.
  destruct (foldl (process_player now) (∅, a, d) r) as [[names a1] d1].
  unfold roster_view_of in Hloop at 1 2. cbn [fst snd] in Hloop.
  rewrite (bool_decide_eq_false_2 (p ∈ (∅ : gset string))) in Hloop
    by apply not_elem_of_empty.
  rewrite <- Hloop. clear Hloop.
  rewrite (foldl_keyed (view_of p) (process_left now) id
             (λ v _, left_view now p v) p
             (λ st q, process_left_other now p st q)).
  2:{ intros st x Hx. simpl in Hx. subst x. apply process_left_self. }
  change (filter (λ x, id x = p) ?l) with (filter (λ x, x = p) l).
  rewrite filter_eq_NoDup by apply NoDup_elements.
  destruct (bool_decide (p ∈ names)) eqn:Hseen.
  - apply bool_decide_eq_true in Hseen.
    rewrite decide_False; [done|].
    rewrite elem_of_elements. set_solver.
  - apply bool_decide_eq_false in Hseen.
    unfold view_of. simpl_state.
    destruct (current_players a1 !! p) as [pr|] eqn:Hcp.
    + rewrite decide_True; [done|].
      rewrite elem_of_elements, elem_of_difference, elem_of_dom. by split.
    + rewrite decide_False; [done|].
      rewrite elem_of_elements, elem_of_difference.
      intros [Hdom _]. apply elem_of_dom in Hdom. rewrite Hcp in Hdom.
      by destruct Hdom.
Qed.

End Reconciler.

(** ** One player's view through the roster loop *)

Section PlayerStep.
Import AnalyticsManager DatabaseManager.

(** An entry of a tracked player refreshes the presence and accrues one
    nominal interval; it logs nothing and starts no session. *)
Lemma present_view_continuing now p :
  p ≠ "" → p ≠ "Unknown" →
  ∀ occ, Forall (λ e, name e = p) occ →
  ∀ b pr sst rec evs,
  ∃ b' pr' rec',
    foldl (present_view now) (b, (Some pr, sst, Some rec, evs)) occ
    = (b', (Some pr', sst, Some rec', evs))
    ∧ (b = true → b' = true)
    ∧ totalSessions rec' = totalSessions rec
    ∧ playtime rec' = playtime rec + tick_seconds * Z.of_nat (length occ).
Proof.
  intros Hne1 Hne2 occ Hocc.
  induction Hocc as [|e occ He Hocc IH]; intros b pr sst rec evs.
  - exists b, pr, rec. simpl. repeat split; [done|lia].
  - cbn [foldl]. unfold present_view at 2.
    rewrite decide_False by (rewrite He; tauto).
    rewrite bool_decide_eq_false_2 by done.
    edestruct IH as (b' & pr' & rec' & -> & Hb & Hs & Hp).
    exists b', pr', rec'. split; [done|]. rewrite Hs, Hp.
    simpl. split; [auto|]. split; [done|]. lia.
Qed.

(** Entries under a name the loop skips change nothing. *)
Lemma present_view_skipped now p :
  p = "" ∨ p = "Unknown" →
  ∀ occ, Forall (λ e, name e = p) occ →
  ∀ v, foldl (present_view now) v occ = v.
Proof.
  intros Hp occ Hocc. induction Hocc as [|e occ He Hocc IH]; intros v; [done|].
  cbn [foldl]. rewrite <- (IH v) at 2. f_equal.
  destruct v as [b [[[cp sst] rec] evs]]. unfold present_view.
  by rewrite decide_True by (rewrite He; tauto).
Qed.

Lemma Forall_filter_name p (r : list roster_entry) :
  Forall (λ e, name e = p) (filter (λ e, name e = p) r).
Proof. apply Forall_forall. intros e He. by apply list_elem_of_filter in He as [? _]. Qed.

Lemma filter_name_absent p (r : list roster_entry) :
  p ∉ name <$> r → filter (λ e, name e = p) r = [].
Proof.
  intros Hp. induction r as [|e r IH]; [done|].
  rewrite fmap_cons, not_elem_of_cons in Hp. destruct Hp as [Hne Hp].
  rewrite filter_cons_False by done. by apply IH.
Qed.

Lemma filter_name_present p (r : list roster_entry) :
  p ∈ name <$> r →
  ∃ e rest, filter (λ e, name e = p) r = e :: rest ∧ e ∈ r ∧ name e = p.
Proof.
  induction r as [|e r IH]; intros Hp; [by apply elem_of_nil in Hp|].
  destruct (decide (name e = p)) as [Heq|Hne].
  - exists e, (filter (λ e, name e = p) r). rewrite filter_cons_True by done.
    repeat split; [|done]. apply list_elem_of_here.
  - rewrite fmap_cons, elem_of_cons in Hp. destruct Hp as [Hp|Hp]; [done|].
    destruct (IH Hp) as (e' & rest & Hf & Hin & Hn).
    exists e', rest. rewrite filter_cons_False by done.
    repeat split; [done| |done]. by apply list_elem_of_further.
Qed.

Lemma filter_name_NoDup p (r : list roster_entry) :
  NoDup (name <$> r) →
  filter (λ e, name e = p) r = []
  ∨ ∃ e, filter (λ e, name e = p) r = [e] ∧ name e = p.
Proof.
  induction r as [|e r IH]; intros Hnd; [by left|].
  rewrite fmap_cons in Hnd. apply NoDup_cons in Hnd as [Hfresh Hnd].
  destruct (decide (name e = p)) as [Heq|Hne].
  - right. exists e. rewrite filter_cons_True by done.
    rewrite filter_name_absent by (by rewrite <- Heq). done.
  - rewrite filter_cons_False by done. by apply IH.
Qed.

End PlayerStep.

(** C2 (as the code has it).  Let [p] be tracked, with a stored record,
    and absent from the next roster handed to [update_player_data]: that
    call logs exactly one event for [p], a leave carrying the session
    duration [now - session start] and no reason field, and stops
    tracking [p].  If the roster after that lists [p], that call logs
    exactly one event for [p], a join with the ping and identifiers of
    the first entry of that name, raises [totalSessions] by exactly one,
    and starts a fresh session at the time of that call: the two sessions
    are not merged. *)
Theorem leave_then_rejoin_are_separate_sessions
    (now2 now3 : Z) (r2 r3 : list roster_entry) (a : analytics) (d : db)
    (p : string) (pr : presence) (start : Z) (rec : player_record) :
  p ≠ "" → p ≠ "Unknown" →
  current_players a !! p = Some pr →
  session_start_times a !! p = Some start →
  players d !! p = Some rec →
  p ∉ name <$> r2 →
  p ∈ name <$> r3 →
  let st2 := AnalyticsManager.update_player_data now2 r2 a d in
  let st3 := AnalyticsManager.update_player_data now3 r3 st2.1 st2.2 in
  (events_of p (event_logs st2.2)
   = events_of p (event_logs d)
     ++ [Event now2 Leave p (Details None None (Some (now2 - start)) None)]
   ∧ current_players st2.1 !! p = None
   ∧ session_start_times st2.1 !! p = None)
  ∧ (∃ e, e ∈ r3 ∧ name e = p
          ∧ events_of p (event_logs st3.2)
            = events_of p (event_logs st2.2)
              ++ [Event now3 Join p
                    (Details (Some (ping e)) (Some (identifiers e)) None None)])
  ∧ DatabaseManager.get_totalSessions p st3.2
    = DatabaseManager.get_totalSessions p d + 1
  ∧ session_start_times st3.1 !! p = Some now3
  ∧ is_Some (current_players st3.1 !! p).
Proof.
  intros Hne1 Hne2 Hcp Hsst Hrec Hout Hin st2 st3.
  (* the departure *)
  pose proof (update_player_data_view now2 r2 a d p) as H2. fold st2 in H2.
  rewrite filter_name_absent in H2 by done.
  unfold view_of in H2 at 2. cbn [fst snd] in H2. rewrite Hcp, Hsst, Hrec in H2.
  unfold player_step, left_view in H2. cbn [foldl fst snd] in H2.
  set (rec2 := if 0 <? AnalyticsManager.remaining_time (now2 - start)
               then _ else Some rec) in H2.
  assert (∃ rec', rec2 = Some rec' ∧ totalSessions rec' = totalSessions rec)
    as (rec' & Hrec2 & Hs2).
  { subst rec2. destruct (0 <? _); eexists; split; done. }
  rewrite Hrec2 in H2. clear rec2 Hrec2.
  unfold view_of in H2. injection H2 as Hcp2 Hsst2 Hrec2 Hev2.
  split; [by rewrite Hev2|].
  (* the return *)
  destruct (filter_name_present p r3 Hin) as (e & rest & Hocc & Hein & Hname).
  pose proof (Forall_filter_name p r3) as Hall. rewrite Hocc in Hall.
  apply Forall_cons in Hall as [_ Hrest].
  pose proof (update_player_data_view now3 r3 st2.1 st2.2 p) as H3.
  rewrite <- surjective_pairing in H3. fold st3 in H3. rewrite Hocc in H3.
  unfold view_of in H3 at 2. rewrite Hcp2, Hsst2, Hrec2 in H3.
  unfold player_step in H3. cbn [foldl] in H3.
  unfold present_view in H3 at 2.
  rewrite decide_False in H3 by (rewrite Hname; tauto).
  rewrite bool_decide_eq_true_2 in H3 by done.
  cbn [fmap option_fmap option_map] in H3.
  match type of H3 with
  | context [foldl _ (true, (Some ?pr0, ?s0, Some ?rec0, ?evs0)) rest] =>
      destruct (present_view_continuing now3 p Hne1 Hne2 rest Hrest
                  true pr0 s0 rec0 evs0)
        as (b' & pr' & rec3 & Hfold & Hb & Hs3 & _)
  end.
  rewrite Hfold in H3. clear Hfold. rewrite (Hb eq_refl) in H3.
  unfold view_of in H3. injection H3 as Hcp3 Hsst3 Hrec3 Hev3.
  split; [exists e; by rewrite Hev3, Hname|].
  split; [|by rewrite Hcp3, Hsst3].
  unfold DatabaseManager.get_totalSessions. rewrite Hrec3, Hrec, Hs3.
  simpl. lia.
Qed.

Lemma rejoin_bot_1_Ann :
  current_players (analytics_manager rejoin_bot_1) !! "Ann"
  = Some (Presence 0 40 [] "civilian" "civilian")
  ∧ session_start_times (analytics_manager rejoin_bot_1) !! "Ann" = Some 0
  ∧ players (db_manager rejoin_bot_1) !! "Ann"
    = Some (PlayerRecord "Ann" [] 0 0 0 1 40 "civilian" "civilian" None).
Proof. vm_compute. done. Qed.

Lemma leave_then_rejoin_are_separate_sessions_witness :
  let a := analytics_manager rejoin_bot_1 in
  let d := db_manager rejoin_bot_1 in
  let st2 :=
    AnalyticsManager.update_player_data (timedelta_seconds 30)
      [entry "Bob" 50] a d in
  let st3 :=
    AnalyticsManager.update_player_data (timedelta_seconds 60)
      [entry "Ann" 40; entry "Bob" 50] st2.1 st2.2 in
  events_of "Ann" (event_logs st2.2)
  = events_of "Ann" (event_logs d)
    ++ [Event (timedelta_seconds 30) Leave "Ann"
          (Details None None (Some (timedelta_seconds 30 - 0)) None)]
  ∧ DatabaseManager.get_totalSessions "Ann" st3.2
    = DatabaseManager.get_totalSessions "Ann" d + 1.
Proof.
  intros a d st2 st3.
  destruct rejoin_bot_1_Ann as (Hcp & Hsst & Hrec).
  assert ("Ann" ∉ name <$> [entry "Bob" 50]) as Hout.
  { intros H. apply list_elem_of_singleton in H. discriminate H. }
  assert ("Ann" ∈ name <$> [entry "Ann" 40; entry "Bob" 50]) as Hin.
  { apply list_elem_of_here. }
  pose proof (leave_then_rejoin_are_separate_sessions
                (timedelta_seconds 30) (timedelta_seconds 60)
                [entry "Bob" 50] [entry "Ann" 40; entry "Bob" 50]
                a d "Ann" _ _ _
                ltac:(discriminate) ltac:(discriminate) Hcp Hsst Hrec Hout Hin)
    as (Hleave & _ & Hsessions & _).
  split; [apply Hleave|apply Hsessions].
Defined.

(** C2, counterexample.  At the poll tick after Ann has gone, the log
    holds no leave event of hers whose reason is "departed" (the claim
    asks for exactly one), and it holds two leave events of hers rather
    than one; at the tick of her return two join events are logged and
    [totalSessions] rises by two. *)
Lemma departure_is_not_logged_as_departed :
  length (filter (is_departed_leave "Ann") (event_logs (db_manager rejoin_bot_2)))
  ≠ 1%nat
  ∧ length (filter (is_leave "Ann") (event_logs (db_manager rejoin_bot_2))) = 2%nat
  ∧ length (filter (is_join "Ann") (event_logs (db_manager rejoin_bot_3)))
    = (length (filter (is_join "Ann") (event_logs (db_manager rejoin_bot_2))) + 2)%nat
  ∧ DatabaseManager.get_totalSessions "Ann" (db_manager rejoin_bot_3)
    = DatabaseManager.get_totalSessions "Ann" (db_manager rejoin_bot_2) + 2.
Proof. vm_compute. repeat split; discriminate. Qed.

(** ** Accrual over regularly spaced rosters *)

Section Accrual.
Import AnalyticsManager DatabaseManager.

Lemma durations_of_app l1 l2 :
  durations_of (l1 ++ l2) = durations_of l1 ++ durations_of l2.
Proof. apply omap_app. Qed.

Lemma Zsum_app l1 l2 : Zsum (l1 ++ l2) = Zsum l1 + Zsum l2.
Proof. unfold Zsum. induction l1 as [|x l1 IH]; simpl; lia. Qed.

Lemma remaining_time_whole d :
  d mod timedelta_seconds tick_seconds = 0 → remaining_time d = 0.
Proof. intros H. unfold remaining_time. by rewrite H. Qed.

(** A departure noticed one interval after the last sighting. *)
Lemma left_view_accrual now p pr start rec evs :
  accrual_inv now (Some pr, Some start, rec, evs) →
  accrual_inv (now + timedelta_seconds tick_seconds)
    (left_view (now + timedelta_seconds tick_seconds) p
       (Some pr, Some start, rec, evs)).
Proof.
  intros (_ & Hmod & Hsum). specialize (Hmod start eq_refl).
  unfold left_view. set (now' := now + timedelta_seconds tick_seconds).
  assert ((now' - start) mod timedelta_seconds tick_seconds = 0) as Hmod'.
  { replace (now' - start)
      with (now - start + 1 * timedelta_seconds tick_seconds)
      by (subst now'; lia).
    by rewrite Z_mod_plus_full. }
  rewrite (remaining_time_whole _ Hmod'). change (0 <? 0) with false.
  cbv iota. unfold accrual_inv.
  split; [done|]. split; [done|].
  rewrite durations_of_app, length_app, Zsum_app.
  change (durations_of [Event now' Leave p
            (Details None None (Some (now' - start)) None)])
    with [now' - start].
  change (Zsum [now' - start]) with (now' - start + 0).
  cbn [from_option length] in *. subst now'. lia.
Qed.

(** One processed roster, one nominal interval after the previous one,
    in which the player is listed at most once. *)
Lemma player_step_accrual now p occ v :
  occ = [] ∨ (∃ e, occ = [e] ∧ name e = p) →
  accrual_inv now v →
  accrual_inv (now + timedelta_seconds tick_seconds)
    (player_step (now + timedelta_seconds tick_seconds) p occ v).
Proof.
  set (now' := now + timedelta_seconds tick_seconds).
  intros Hocc Hinv.
  assert (∀ cp sst rec evs, v = (cp, sst, rec, evs) →
          accrual_inv now'
            (match cp with
             | Some _ => left_view now' p v
             | None => v
             end)) as Hgone.
  { intros cp sst rec evs ->. destruct cp as [pr|].
    - destruct sst as [start|].
      + by apply left_view_accrual.
      + destruct Hinv as ([_ Hiff] & _). by specialize (Hiff eq_refl).
    - destruct sst as [start|].
      + destruct Hinv as ([Hiff _] & _). by specialize (Hiff eq_refl).
      + destruct Hinv as (Hiff & _ & Hsum). unfold accrual_inv.
        split; [done|]. split; [done|]. exact Hsum. }
  destruct v as [[[cp sst] rec] evs].
  destruct Hocc as [->|(e & -> & Hname)].
  { unfold player_step. cbn [foldl fst snd]. by eapply Hgone. }
  unfold player_step. cbn [foldl]. unfold present_view.
  destruct (decide (name e = "" ∨ name e = "Unknown")) as [|Hvalid].
  { cbn [fst snd]. by eapply Hgone. }
  destruct Hinv as (Hiff & Hmod & Hsum).
  destruct cp as [pr|].
  - rewrite bool_decide_eq_false_2 by done.
    destruct sst as [start|];
      [|destruct Hiff as [_ Hiff]; by specialize (Hiff eq_refl)].
    specialize (Hmod start eq_refl). unfold accrual_inv.
    split; [done|]. split.
    + intros s [= <-]. subst now'.
      replace (now + timedelta_seconds tick_seconds - start)
        with (now - start + 1 * timedelta_seconds tick_seconds) by lia.
      by rewrite Z_mod_plus_full.
    + subst now'. destruct rec as [rec|]; simpl in *;
        unfold timedelta_seconds, tick_seconds, us_per_second in *; lia.
  - rewrite bool_decide_eq_true_2 by done.
    destruct sst as [start|];
      [destruct Hiff as [Hiff _]; by specialize (Hiff eq_refl)|].
    unfold accrual_inv.
    split; [done|]. split.
    + intros s [= <-]. by rewrite Z.sub_diag.
    + rewrite durations_of_app. simpl. rewrite app_nil_r.
      destruct rec as [rec|]; simpl in *;
        unfold timedelta_seconds, tick_seconds, us_per_second in *; lia.
Qed.

Lemma regular_run_accrual p rosters :
  Forall (λ r, NoDup (name <$> r)) rosters →
  ∀ t st,
    accrual_inv (t - timedelta_seconds tick_seconds) (view_of p st) →
    accrual_inv
      (t + timedelta_seconds tick_seconds * (Z.of_nat (length rosters) - 1))
      (view_of p (regular_run t rosters st)).
Proof.
  induction 1 as [|r rosters Hr Hrs IH]; intros t st Hinv.
  - simpl. replace (t + timedelta_seconds tick_seconds * (0 - 1))
      with (t - timedelta_seconds tick_seconds) by lia. done.
  - cbn [regular_run].
    replace (t + timedelta_seconds tick_seconds
                 * (Z.of_nat (length (r :: rosters)) - 1))
      with (t + timedelta_seconds tick_seconds
            + timedelta_seconds tick_seconds * (Z.of_nat (length rosters) - 1))
      by (rewrite length_cons; lia).
    apply IH.
    replace (t + timedelta_seconds tick_seconds - timedelta_seconds tick_seconds)
      with (t - timedelta_seconds tick_seconds + timedelta_seconds tick_seconds)
      by lia.
    rewrite update_player_data_view.
    replace t with (t - timedelta_seconds tick_seconds
                    + timedelta_seconds tick_seconds) at 2 by lia.
    apply player_step_accrual.
    + destruct (filter_name_NoDup p r Hr) as [->|(e & -> & He)]; eauto.
    + by rewrite <- surjective_pairing.
Qed.

End Accrual.

Lemma leave_durations_eq p l : leave_durations p l = durations_of (events_of p l).
Proof. reflexivity. Qed.


(** ** Roster cleaning and exact names *)

Section Names.
Import AnalyticsManager DatabaseManager FiveMAPI.

Lemma get_players_spec raw e :
  e ∈ get_players raw ↔
  ∃ rp, rp ∈ raw
        ∧ rejected (strip (raw_name rp)) = false
        ∧ e = RosterEntry (strip (raw_name rp)) (raw_ping rp)
                (raw_identifiers rp) "civilian" "civilian".
Proof.
  unfold get_players. rewrite list_elem_of_omap. unfold clean_player.
  split.
  - intros (rp & Hin & Hrp). exists rp. split; [done|].
    destruct (rejected (strip (raw_name rp))); [done|].
    split; [done|]. by inversion Hrp.
  - intros (rp & Hin & Hrej & ->). exists rp. split; [done|]. by rewrite Hrej.
Qed.

Lemma get_players_names raw n :
  n ∈ name <$> get_players raw ↔
  ∃ rp, rp ∈ raw ∧ strip (raw_name rp) = n ∧ rejected n = false.
Proof.
  rewrite list_elem_of_fmap. split.
  - intros (e & -> & He). apply get_players_spec in He as (rp & Hin & Hrej & ->).
    by exists rp.
  - intros (rp & Hin & <- & Hrej).
    eexists. split; [|apply get_players_spec; by exists rp]. done.
Qed.

Lemma rejected_absent raw s :
  rejected s = true → s ∉ name <$> get_players raw.
Proof.
  intros Hrej Hin. apply get_players_names in Hin as (rp & _ & _ & Hkeep).
  congruence.
Qed.

Lemma left_view_untracked now p v : (left_view now p v).1.1.1 = None.
Proof. destruct v as [[[cp [start|]] rec] evs]; reflexivity. Qed.

(** After one call the player is tracked exactly when the roster lists
    the name and the loop does not skip it. *)
Lemma player_step_tracked now p occ v :
  Forall (λ e, name e = p) occ →
  is_Some (player_step now p occ v).1.1.1 ↔ occ ≠ [] ∧ p ≠ "" ∧ p ≠ "Unknown".
Proof.
  intros Hocc.
  assert (¬ is_Some
            (match v.1.1.1 with
             | Some _ => left_view now p v
             | None => v
             end).1.1.1) as Hgone.
  { destruct (v.1.1.1) eqn:Hcp.
    - rewrite left_view_untracked. by intros [? ?].
    - rewrite Hcp. by intros [? ?]. }
  destruct (decide (p = "" ∨ p = "Unknown")) as [Hskip|Hvalid].
  { unfold player_step. rewrite (present_view_skipped now p Hskip occ Hocc).
    split; [done|]. intros (_ & ? & ?). tauto. }
  destruct Hocc as [|e occ He Hocc].
  { unfold player_step. cbn [foldl]. split; [done|]. by intros [? _]. }
  split; [intros _; split; [done|tauto]|]. intros _.
  unfold player_step. cbn [foldl]. destruct v as [[[cp sst] rec] evs].
  unfold present_view at 2. rewrite decide_False by (rewrite He; tauto).
  match goal with
  | |- context [foldl _ (true, (Some ?pr0, ?s0, Some ?rec0, ?evs0)) occ] =>
      destruct (present_view_continuing now p ltac:(tauto) ltac:(tauto)
                  occ Hocc true pr0 s0 rec0 evs0)
        as (b' & pr' & rec' & -> & Hb & _)
  end.
  rewrite (Hb eq_refl). by eexists.
Qed.

Lemma update_player_data_tracked now r a d n :
  is_Some (current_players (update_player_data now r a d).1 !! n) ↔
  n ∈ name <$> r ∧ n ≠ "" ∧ n ≠ "Unknown".
Proof.
  pose proof (update_player_data_view now r a d n) as Hview.
  apply (f_equal (λ v : view, v.1.1.1)) in Hview.
  unfold view_of at 1 in Hview. cbn [fst snd] in Hview. rewrite Hview.
  rewrite (player_step_tracked now n _ _ (Forall_filter_name n r)).
  split; intros (Hocc & ? & ?); (split; [|done]).
  - destruct (decide (n ∈ name <$> r)) as [|Hout]; [done|].
    by rewrite filter_name_absent in Hocc.
  - destruct (filter_name_present n r Hocc) as (e & rest & -> & _). done.
Qed.

Lemma fetch_run_unknown s ticks :
  rejected s = true →
  ∀ st, view_of s st = unknown_view →
        view_of s (fetch_run ticks st) = unknown_view.
Proof.
  intros Hrej. induction ticks as [|[now raw] ticks IH]; intros st Hst; [done|].
  unfold fetch_run. cbn [foldl]. apply IH. cbn [fst snd].
  rewrite update_player_data_view.
  rewrite filter_name_absent by by apply rejected_absent.
  rewrite <- surjective_pairing, Hst. reflexivity.
Qed.

End Names.

Section AccrualRule.
Import AnalyticsManager DatabaseManager.

Lemma remaining_time_nonneg d : 0 <= remaining_time d.
Proof.
  unfold remaining_time, timedelta_seconds, tick_seconds, us_per_second.
  apply Z.div_pos; [|lia]. apply Z.mod_pos_bound. lia.
Qed.

Lemma left_view_net now p v : net_playtime (left_view now p v) = net_playtime v.
Proof.
  destruct v as [[[cp [start|]] rec] evs]; [|done].
  unfold left_view, net_playtime. cbn [fst snd].
  rewrite durations_of_app, fmap_app, Zsum_app.
  change (durations_of [Event now Leave p
            (Details None None (Some (now - start)) None)])
    with [now - start].
  change (Zsum (remaining_time <$> [now - start]))
    with (remaining_time (now - start) + 0).
  pose proof (remaining_time_nonneg (now - start)) as Hpos.
  destruct (Z.ltb_spec 0 (remaining_time (now - start))).
  - destruct rec as [rec|]; simpl; lia.
  - lia.
Qed.

(** One processed roster that lists the player at most once: 30 s are
    accrued exactly when the player was tracked and is listed again. *)
Lemma player_step_net now p occ v :
  occ = [] ∨ (∃ e, occ = [e] ∧ name e = p) →
  net_playtime (player_step now p occ v)
  = net_playtime v
    + (if bool_decide (is_Some v.1.1.1)
          && bool_decide (occ ≠ [] ∧ p ≠ "" ∧ p ≠ "Unknown")
       then tick_seconds else 0).
Proof.
  intros Hocc.
  assert (net_playtime (match v.1.1.1 with
               | Some _ => left_view now p v
               | None => v
               end) = net_playtime v) as Hgone.
  { destruct (v.1.1.1); [apply left_view_net|done]. }
  destruct Hocc as [->|(e & -> & <-)].
  { unfold player_step. cbn [foldl]. rewrite Hgone.
    rewrite (bool_decide_eq_false_2 ([] ≠ [] ∧ _)) by (by intros [? _]).
    rewrite andb_false_r. lia. }
  unfold player_step. cbn [foldl].
  destruct v as [[[cp sst] rec] evs]. unfold present_view.
  destruct (decide (name e = "" ∨ name e = "Unknown")) as [Hskip|Hvalid].
  { cbn [fst snd] in *. rewrite Hgone.
    rewrite (bool_decide_eq_false_2 ([e] ≠ [] ∧ _)) by tauto.
    rewrite andb_false_r. lia. }
  rewrite (bool_decide_eq_true_2 ([e] ≠ [] ∧ _)) by (split; [done|tauto]).
  rewrite andb_true_r. cbn [fst snd]. unfold net_playtime. cbn [fst snd].
  destruct cp as [pr|].
  - rewrite bool_decide_eq_false_2 by done.
    rewrite bool_decide_eq_true_2 by done.
    destruct rec as [rec|]; simpl; lia.
  - rewrite bool_decide_eq_true_2 by done.
    rewrite (bool_decide_eq_false_2 (is_Some None)) by (by intros [? ?]).
    rewrite durations_of_app. simpl (durations_of [_]). rewrite app_nil_r.
    destruct rec as [rec|]; simpl; lia.
Qed.

Lemma listed_filter p r :
  listed p r
  = bool_decide (filter (λ e, name e = p) r ≠ [] ∧ p ≠ "" ∧ p ≠ "Unknown").
Proof.
  unfold listed. apply bool_decide_ext.
  split; intros (Hin & ? & ?); (split; [|done]).
  - destruct (filter_name_present p r Hin) as (e & rest & -> & _). done.
  - destruct (decide (p ∈ name <$> r)) as [|Hout]; [done|].
    by rewrite filter_name_absent in Hin.
Qed.

Lemma reconcile_run_net p ticks :
  Forall (λ t : Z * list roster_entry, NoDup (name <$> t.2)) ticks →
  ∀ st,
    net_playtime (view_of p (reconcile_run ticks st))
    = net_playtime (view_of p st)
      + tick_seconds
        * Z.of_nat (continuing_ticks p
                      (bool_decide (is_Some (current_players st.1 !! p)))
                      (ticks.*2)).
Proof.
  induction 1 as [|[now r] ticks Hr Hrs IH]; intros st.
  - simpl. lia.
  - change (reconcile_run ((now, r) :: ticks) st)
      with (reconcile_run ticks (update_player_data now r st.1 st.2)).
    rewrite IH. cbn [fmap list_fmap snd continuing_ticks].
    rewrite (bool_decide_ext _ _
               (update_player_data_tracked now r st.1 st.2 p)).
    fold (listed p r).
    rewrite update_player_data_view.
    rewrite player_step_net.
    2:{ destruct (filter_name_NoDup p r Hr) as [->|(e & -> & He)]; eauto. }
    rewrite <- surjective_pairing. rewrite <- listed_filter.
    unfold view_of at 2. cbn [fst snd].
    destruct (bool_decide (is_Some (current_players st.1 !! p))), (listed p r);
      cbn [andb]; lia.
Qed.

(** The accrual rule over any sequence of processed rosters. *)
Lemma reconcile_run_accrual_rule p ticks :
  Forall (λ t : Z * list roster_entry, NoDup (name <$> t.2)) ticks →
  let st := reconcile_run ticks (empty_analytics, empty_db) in
  get_playtime p st.2
  = tick_seconds * Z.of_nat (continuing_ticks p false (ticks.*2))
    + flushed p (event_logs st.2).
Proof.
  intros Hnd st.
  pose proof (reconcile_run_net p ticks Hnd (empty_analytics, empty_db)) as H.
  fold st in H. unfold net_playtime, view_of in H. cbn [fst snd] in H.
  cbn [empty_analytics empty_db current_players players event_logs] in H.
  rewrite !lookup_empty in H.
  rewrite (bool_decide_eq_false_2 (is_Some None)) in H by (by intros [? ?]).
  unfold get_playtime, flushed. rewrite leave_durations_eq.
  destruct (players st.2 !! p); simpl in *; lia.
Qed.

End AccrualRule.


(** C1 (as the code has it).  Start from the empty state and let every
    processed roster list a name at most once.  Whatever the clock
    readings, the playtime accrued to a player's record is 30 seconds per
    continuing tick (a roster listing the player right after one that
    listed them), nothing on a joining tick, plus the remainders
    [int(sessionDuration mod 30)] flushed at the player's leaves.  When
    the rosters are processed exactly one nominal interval (30 s) apart,
    then at the time of the last processed roster the accrued playtime
    plus one interval per logged leave equals the sum of the session
    durations of the player's leave events plus the running duration of
    the player if still tracked: the record trails the logged and running
    session time by exactly one interval per completed session, and time
    between sessions is not counted. *)
Theorem accrued_playtime_trails_sessions (p : string) :
  (∀ ticks : list (Z * list roster_entry),
     Forall (λ t, NoDup (name <$> t.2)) ticks →
     let st := reconcile_run ticks (empty_analytics, empty_db) in
     DatabaseManager.get_playtime p st.2
     = AnalyticsManager.tick_seconds
       * Z.of_nat (continuing_ticks p false (ticks.*2))
       + flushed p (event_logs st.2))
  ∧ (∀ (t0 : Z) (r : list roster_entry) (rosters : list (list roster_entry)),
       Forall (λ r, NoDup (name <$> r)) (r :: rosters) →
       let st := regular_run t0 (r :: rosters) (empty_analytics, empty_db) in
       let now :=
         t0 + timedelta_seconds AnalyticsManager.tick_seconds
              * Z.of_nat (length rosters) in
       timedelta_seconds (DatabaseManager.get_playtime p st.2)
       + timedelta_seconds AnalyticsManager.tick_seconds
         * Z.of_nat (length (leave_durations p (event_logs st.2)))
       = Zsum (leave_durations p (event_logs st.2)) + running_duration now p st.1).
Proof.
  split; [apply reconcile_run_accrual_rule|].
  intros t0 r rosters Hnd st now.
  pose proof (regular_run_accrual p (r :: rosters) Hnd t0
                (empty_analytics, empty_db)) as Hinv.
  fold st in Hinv.
  replace (t0 + timedelta_seconds AnalyticsManager.tick_seconds
                * (Z.of_nat (length (r :: rosters)) - 1))
    with now in Hinv by (subst now; rewrite length_cons; lia).
  unfold view_of, accrual_inv in Hinv.
  destruct Hinv as (_ & _ & Hsum).
  - cbn [fst snd empty_analytics empty_db current_players session_start_times
           players event_logs].
    rewrite !lookup_empty. split; [done|]. split; [done|]. reflexivity.
  - rewrite !leave_durations_eq. unfold DatabaseManager.get_playtime,
      running_duration.
    destruct (players st.2 !! p), (session_start_times st.1 !! p); exact Hsum.
Qed.

Lemma accrued_playtime_trails_sessions_witness :
  DatabaseManager.get_playtime "Ann" gap_run.2
  = AnalyticsManager.tick_seconds * 1 + flushed "Ann" (event_logs gap_run.2)
  ∧ let st :=
      regular_run 0
        [[entry "Ann" 40]; [entry "Ann" 40]; [entry "Bob" 50];
         [entry "Ann" 40; entry "Bob" 50]]
        (empty_analytics, empty_db) in
    timedelta_seconds (DatabaseManager.get_playtime "Ann" st.2)
    + timedelta_seconds AnalyticsManager.tick_seconds
      * Z.of_nat (length (leave_durations "Ann" (event_logs st.2)))
    = Zsum (leave_durations "Ann" (event_logs st.2))
      + running_duration
          (0 + timedelta_seconds AnalyticsManager.tick_seconds * Z.of_nat 3)
          "Ann" st.1.
Proof.
  destruct (accrued_playtime_trails_sessions "Ann") as [Hrule Hregular].
  split.
  - apply (Hrule
             [(0, [entry "Ann" 40; entry "Bob" 50]);
              (timedelta_seconds 30, [entry "Ann" 40; entry "Bob" 50]);
              (timedelta_seconds 60, [entry "Bob" 50]);
              (timedelta_seconds 90, [entry "Bob" 50]);
              (timedelta_seconds 120, [entry "Bob" 50]);
              (timedelta_seconds 150, [entry "Bob" 50])]).
    apply (bool_decide_unpack _). vm_compute. exact I.
  - apply (Hregular 0 [entry "Ann" 40]
             [[entry "Ann" 40]; [entry "Bob" 50]; [entry "Ann" 40; entry "Bob" 50]]).
    apply (bool_decide_unpack _). vm_compute. exact I.
Defined.

(** C1, counterexample.  With Ann on three rosters 30 s apart, accrued
    playtime (60 s) plus running duration (60 s) is 120 s against 60 s of
    wall-clock time since her first join; with Ann gone after two rosters,
    30 s are accrued against 150 s since her first join.  Both differ by
    more than one tick interval. *)
Lemma accrual_does_not_match_wall_clock :
  ¬ spec_accrual_matches_wall_clock (timedelta_seconds 60) 0 "Ann"
      steady_run.1 steady_run.2
  ∧ ¬ spec_accrual_matches_wall_clock (timedelta_seconds 150) 0 "Ann"
        gap_run.1 gap_run.2.
Proof.
  unfold spec_accrual_matches_wall_clock.
  split; vm_compute; intros H; by apply H.
Qed.

(** ** Trimming of names *)

Section Trimming.
Import FiveMAPI.

Lemma string_app_cons (c : Ascii.ascii) (s t : string) :
  String c s +:+ t = String c (s +:+ t).
Proof. reflexivity. Qed.

Lemma string_app_nil_l (s : string) : "" +:+ s = s.
Proof. reflexivity. Qed.

Lemma string_app_nil_r (s : string) : s +:+ "" = s.
Proof.
  induction s as [|c s IH]; [done|]. by rewrite string_app_cons, IH.
Qed.

Lemma string_app_assoc (s1 s2 s3 : string) :
  (s1 +:+ s2) +:+ s3 = s1 +:+ (s2 +:+ s3).
Proof.
  induction s1 as [|c s1 IH]; [done|]. by rewrite !string_app_cons, IH.
Qed.

Lemma rev_app_spec (s acc : string) :
  String.rev_app s acc = String.rev s +:+ acc.
Proof.
  unfold String.rev. revert acc. induction s as [|c s IH]; intros acc; [done|].
  simpl. rewrite (IH (String c acc)), (IH (String c "")).
  by rewrite string_app_assoc.
Qed.

Lemma rev_cons (c : Ascii.ascii) (s : string) :
  String.rev (String c s) = String.rev s +:+ String c "".
Proof. unfold String.rev at 1. simpl. apply rev_app_spec. Qed.

Lemma rev_app_distr (s1 s2 : string) :
  String.rev (s1 +:+ s2) = String.rev s2 +:+ String.rev s1.
Proof.
  induction s1 as [|c s1 IH].
  - rewrite string_app_nil_l. change (String.rev "") with "".
    by rewrite string_app_nil_r.
  - by rewrite string_app_cons, !rev_cons, IH, string_app_assoc.
Qed.

Lemma rev_involutive (s : string) : String.rev (String.rev s) = s.
Proof.
  induction s as [|c s IH]; [done|].
  by rewrite rev_cons, rev_app_distr, IH.
Qed.

Lemma all_blank_app (s1 s2 : string) :
  all_blank (s1 +:+ s2) = all_blank s1 && all_blank s2.
Proof.
  induction s1 as [|c s1 IH]; [done|]. rewrite string_app_cons. simpl.
  rewrite IH. by rewrite andb_assoc.
Qed.

Lemma all_blank_rev (s : string) : all_blank (String.rev s) = all_blank s.
Proof.
  induction s as [|c s IH]; [done|].
  rewrite rev_cons, all_blank_app, IH. simpl.
  rewrite andb_true_r. apply andb_comm.
Qed.

(** [lstrip] removes a prefix of blanks and stops at the first character
    that is not one. *)
Lemma lstrip_spec (s : string) :
  ∃ b, s = b +:+ lstrip s ∧ all_blank b = true ∧ starts_blank (lstrip s) = false.
Proof.
  induction s as [|c s (b & Hs & Hb & Hl)]; [by exists ""|].
  simpl. destruct (is_space c) eqn:Hc.
  - exists (String c b). rewrite string_app_cons, <- Hs. simpl.
    by rewrite Hc, Hb.
  - exists "". rewrite string_app_nil_l. simpl. by rewrite Hc.
Qed.

Lemma lstrip_blank_prefix (b s : string) :
  all_blank b = true → lstrip (b +:+ s) = lstrip s.
Proof.
  induction b as [|c b IH]; [done|]. rewrite string_app_cons. simpl.
  intros [Hc Hb]%andb_true_iff. rewrite Hc. by apply IH.
Qed.

Lemma lstrip_id (s : string) : starts_blank s = false → lstrip s = s.
Proof. destruct s as [|c s]; [done|]. simpl. by intros ->. Qed.

Lemma starts_blank_app (s1 s2 : string) :
  s1 ≠ "" → starts_blank (s1 +:+ s2) = starts_blank s1.
Proof. by destruct s1. Qed.

Lemma rev_nonempty (s : string) : s ≠ "" → String.rev s ≠ "".
Proof.
  intros Hs Hrev. apply Hs. by rewrite <- (rev_involutive s), Hrev.
Qed.

(** [strip] removes the blanks on both sides and nothing else. *)
Lemma strip_spec (s : string) :
  ∃ b t, s = b +:+ strip s +:+ t
         ∧ all_blank b = true ∧ all_blank t = true
         ∧ starts_blank (strip s) = false ∧ ends_blank (strip s) = false.
Proof.
  unfold strip, ends_blank.
  destruct (lstrip_spec s) as (b & Hs & Hb & Hlead).
  destruct (lstrip_spec (String.rev (lstrip s))) as (t & Hr & Ht & Htail).
  set (core := lstrip (String.rev (lstrip s))) in *.
  assert (lstrip s = String.rev core +:+ String.rev t) as Hmid.
  { rewrite <- (rev_involutive (lstrip s)), Hr. apply rev_app_distr. }
  exists b, (String.rev t). split; [by rewrite <- Hmid|].
  split; [done|]. split; [by rewrite all_blank_rev|]. split.
  - destruct (String.rev core) as [|c r] eqn:Hcore; [done|].
    rewrite Hmid in Hlead. by rewrite starts_blank_app in Hlead.
  - by rewrite rev_involutive.
Qed.

(** The name between the blanks is what [strip] returns. *)
Lemma strip_unique (b n t : string) :
  all_blank b = true → all_blank t = true → n ≠ "" →
  starts_blank n = false → ends_blank n = false →
  strip (b +:+ n +:+ t) = n.
Proof.
  intros Hb Ht Hn Hlead Htail. unfold strip.
  rewrite (lstrip_blank_prefix b) by done.
  rewrite (lstrip_id (n +:+ t)) by (by rewrite starts_blank_app).
  rewrite rev_app_distr.
  rewrite (lstrip_blank_prefix (String.rev t)) by (by rewrite all_blank_rev).
  rewrite (lstrip_id (String.rev n)) by exact Htail. apply rev_involutive.
Qed.

Lemma lower_empty (s : string) : lower s = "" → s = "".
Proof. by destruct s. Qed.

Lemma rejected_false_iff (n : string) :
  rejected n = false ↔ n ≠ "" ∧ lower n ≠ "unknown" ∧ lower n ≠ "null".
Proof.
  unfold rejected. rewrite orb_false_iff, !bool_decide_eq_false.
  rewrite !elem_of_cons, elem_of_nil. split.
  - intros [Hn Hl]. tauto.
  - intros (Hn & Hu & Hnull). split; [done|].
    intros [?|[Hempty|[?|[]]]]; try done. by apply Hn, lower_empty.
Qed.

Lemma rejected_true_iff (n : string) :
  rejected n = true ↔ n = "" ∨ lower n = "unknown" ∨ lower n = "null".
Proof.
  destruct (rejected n) eqn:Hrej.
  - split; [intros _|done].
    destruct (decide (n = "")) as [|Hn]; [by left|].
    destruct (decide (lower n = "unknown")) as [|Hu]; [by right; left|].
    destruct (decide (lower n = "null")) as [|Hnull]; [by right; right|].
    assert (rejected n = false) by (by apply rejected_false_iff). congruence.
  - split; [done|]. apply rejected_false_iff in Hrej as (? & ? & ?).
    intros [?|[?|?]]; done.
Qed.

End Trimming.

(** C8 (as the code has it), for names of ASCII characters.  The
    fetcher strips the blanks around every name of the response and
    drops the entry when what remains is empty or is "unknown" or "null"
    in any letter case: after any sequence of calls from the empty state
    such a name has no tracked presence, session start, stored record or
    event.  The names it keeps are exactly the stripped names that are
    none of these.  The reconciler tracks the kept names as exact,
    case-sensitive strings ("bob" and "Bob" are two players); its own
    guard skips only the names "" and "Unknown". *)
Theorem sentinel_names_excluded_others_trimmed
    (ticks : list (Z * list raw_player)) (now : Z) (raw : list raw_player)
    (r : list roster_entry) (a : analytics) (d : db) :
  Forall (λ t, Forall (λ rp, ascii_only (raw_name rp) = true) t.2) ticks →
  Forall (λ rp, ascii_only (raw_name rp) = true) raw →
  (∀ s : string,
     s = "" ∨ FiveMAPI.lower s = "unknown" ∨ FiveMAPI.lower s = "null" →
     view_of s (fetch_run ticks (empty_analytics, empty_db)) = unknown_view)
  ∧ (∀ n : string,
       n ∈ name <$> FiveMAPI.get_players raw
       ↔ ∃ rp b t, rp ∈ raw ∧ raw_name rp = b +:+ n +:+ t
           ∧ all_blank b = true ∧ all_blank t = true
           ∧ starts_blank n = false ∧ ends_blank n = false
           ∧ n ≠ "" ∧ FiveMAPI.lower n ≠ "unknown" ∧ FiveMAPI.lower n ≠ "null")
  ∧ (∀ n : string,
       is_Some (current_players
                  (AnalyticsManager.update_player_data now
                     (FiveMAPI.get_players raw) a d).1 !! n)
       ↔ n ∈ name <$> FiveMAPI.get_players raw)
  ∧ (∀ n : string,
       is_Some (current_players
                  (AnalyticsManager.update_player_data now r a d).1 !! n)
       ↔ n ∈ name <$> r ∧ n ≠ "" ∧ n ≠ "Unknown")
  ∧ size (current_players
            (AnalyticsManager.update_player_data now
               (FiveMAPI.get_players [RawPlayer "bob" 40 []; RawPlayer "Bob" 50 []])
               empty_analytics empty_db).1) = 2%nat.
Proof.
  intros _ _. split; [|split; [|split; [|split]]].
  - intros s Hs. apply fetch_run_unknown; [|done]. by apply rejected_true_iff.
  - intros n. rewrite get_players_names. split.
    + intros (rp & Hin & Hstrip & Hrej).
      destruct (strip_spec (raw_name rp)) as (b & t & Hname & Hb & Ht & Hl & He).
      rewrite Hstrip in Hname, Hl, He.
      apply rejected_false_iff in Hrej as (? & ? & ?).
      by exists rp, b, t.
    + intros (rp & b & t & Hin & Hname & Hb & Ht & Hl & He & Hn & Hu & Hnull).
      exists rp. split; [done|]. split.
      * rewrite Hname. by apply strip_unique.
      * by apply rejected_false_iff.
  - intros n. rewrite update_player_data_tracked. split; [by intros [? _]|].
    intros Hin. split; [done|].
    apply get_players_names in Hin as (rp & _ & _ & Hkeep).
    split; intros ->; discriminate Hkeep.
  - intros n. apply update_player_data_tracked.
  - by vm_compute.
Qed.

Lemma sentinel_names_excluded_others_trimmed_witness :
  view_of "NULL"
    (fetch_run [(0, [RawPlayer " NULL " 40 []; RawPlayer " bob " 41 []])]
       (empty_analytics, empty_db))
  = unknown_view.
Proof.
  refine (proj1 (sentinel_names_excluded_others_trimmed
                   [(0, [RawPlayer " NULL " 40 []; RawPlayer " bob " 41 []])]
                   0 [RawPlayer " bob " 41 []] [] empty_analytics empty_db _ _)
            "NULL" _).
  - repeat constructor.
  - repeat constructor.
  - right. right. reflexivity.
Defined.

(** C8, counterexample.  Names are not matched exactly as the response
    gives them: an entry named " bob " is tracked as "bob" and not under
    its own name; an entry named "NULL" is dropped although it is none
    of "", "Unknown" and "null" as a case-sensitive string.  And the
    reconciler itself does not exclude "null": handed a roster entry of
    that name, it tracks it. *)
Lemma raw_names_are_not_matched_exactly :
  ¬ spec_exact_match [RawPlayer " bob " 40 []]
  ∧ ¬ spec_exact_match [RawPlayer "NULL" 40 []]
  ∧ is_Some (current_players
               (AnalyticsManager.update_player_data 0 [entry "null" 40]
                  empty_analytics empty_db).1 !! "null").
Proof.
  split; [|split].
  - intros Hspec. destruct (Hspec " bob ") as [_ Htracked].
    destruct Htracked as [pr Hpr]; [|by vm_compute in Hpr].
    split; [apply list_elem_of_here|].
    rewrite !elem_of_cons, elem_of_nil. intros [?|[?|[?|[]]]]; discriminate.
  - intros Hspec. destruct (Hspec "NULL") as [_ Htracked].
    destruct Htracked as [pr Hpr]; [|by vm_compute in Hpr].
    split; [apply list_elem_of_here|].
    rewrite !elem_of_cons, elem_of_nil. intros [?|[?|[?|[]]]]; discriminate.
  - apply (bool_decide_unpack _). by vm_compute.
Qed.

(** ** The poll loop *)

Section PollLoop.
Import AnalyticsManager DatabaseManager NotificationManager MotionlifeBot.

Lemma update_server_status_offline now server_data b :
  is_offline server_data = true →
  update_server_status now server_data b
  = Bot offline_status [] false (analytics_manager b) (notification_manager b)
      (db_manager b).
Proof.
  unfold is_offline, update_server_status.
  destruct server_data as [sd|]; [|done]. by destruct (online sd).
Qed.

Lemma update_server_status_empty now sd b :
  online sd = true → snap_players sd = [] →
  update_server_status now (Some sd) b
  = Bot sd (players_data b) true (analytics_manager b) (notification_manager b)
      (db_manager b).
Proof. intros Hon Hr. unfold update_server_status. by rewrite Hon, Hr. Qed.

Lemma update_server_status_roster now sd b :
  online sd = true → snap_players sd ≠ [] →
  let st1 := update_player_data now (snap_players sd) (analytics_manager b)
               (db_manager b) in
  let d2 := AnalyticsManager.log_ping_data now (snap_ping sd) st1.1 st1.2 in
  let nd := check_player_changes now (snap_players sd) (notification_manager b)
              d2 in
  update_server_status now (Some sd) b
  = Bot sd (snap_players sd) true st1.1 nd.1 nd.2.
Proof.
  intros Hon Hr. unfold update_server_status. rewrite Hon.
  destruct (snap_players sd) as [|e r] eqn:Hsd; [done|].
  cbv zeta.
  destruct (update_player_data now (e :: r) (analytics_manager b) (db_manager b))
    as [a1 d1].
  cbn [fst snd].
  by destruct (check_player_changes now (e :: r) (notification_manager b)
                 (AnalyticsManager.log_ping_data now (snap_ping sd) a1 d1)).
Qed.

(** The notification diff only appends events. *)
Lemma foldl_extends {B} (f : db → B → db) :
  (∀ d x, ∃ k, event_logs (f d x) = event_logs d ++ k) →
  ∀ l d, ∃ k, event_logs (foldl f d l) = event_logs d ++ k.
Proof.
  intros Hstep l. induction l as [|x l IH]; intros d.
  - exists []. by rewrite app_nil_r.
  - cbn [foldl]. destruct (IH (f d x)) as [k Hk]. destruct (Hstep d x) as [k' Hk'].
    exists (k' ++ k). by rewrite Hk, Hk', app_assoc.
Qed.

Lemma check_player_changes_extends now r n d :
  ∃ k, event_logs (check_player_changes now r n d).2 = event_logs d ++ k.
Proof.
  unfold check_player_changes. cbn [snd].
  edestruct (foldl_extends (_handle_player_leave now (player_join_times n)))
    as [k2 Hk2]; [|rewrite Hk2].
  { intros d0 x. unfold _handle_player_leave.
    eexists. apply event_logs_log_event. }
  edestruct (foldl_extends (_handle_player_join now r)) as [k1 Hk1];
    [|rewrite Hk1].
  { intros d0 x. unfold _handle_player_join.
    destruct (list_find _ r) as [[? ?]|].
    - eexists. apply event_logs_log_event.
    - exists []. by rewrite app_nil_r. }
  exists (k1 ++ k2). by rewrite app_assoc.
Qed.

Lemma check_player_changes_ping_logs now r n d :
  ping_logs (check_player_changes now r n d).2 = ping_logs d.
Proof.
  unfold check_player_changes. cbn [snd].
  rewrite (foldl_preserved ping_logs).
  2:{ intros d0 x. unfold _handle_player_leave. apply ping_logs_log_event. }
  rewrite (foldl_preserved ping_logs); [done|].
  intros d0 x. unfold _handle_player_join.
  destruct (list_find _ r) as [[? ?]|]; [apply ping_logs_log_event|done].
Qed.

Lemma update_player_data_ping_logs now r a d :
  ping_logs (update_player_data now r a d).2 = ping_logs d.
Proof.
  unfold update_player_data.
  assert (ping_logs (foldl (process_player now) (∅, a, d) r).2 = ping_logs d)
    as Hloop.
  { apply (foldl_preserved (λ st : loop_state, ping_logs st.2)).
    intros [[ns a0] d0] e. unfold process_player.
    destruct (decide _); [done|]. cbn [snd]. rewrite ping_logs_upsert.
    destruct (bool_decide _); [apply ping_logs_log_event|done]. }
  destruct (foldl (process_player now) (∅, a, d) r) as [[names a1] d1].
  cbn [snd] in Hloop. rewrite <- Hloop.
  apply (foldl_preserved (λ st : analytics * db, ping_logs st.2)).
  - intros [a0 d0] q. unfold process_left.
    destruct (session_start_times a0 !! q); [|done]. cbn [snd].
    destruct (0 <? _); rewrite ?ping_logs_upsert; apply ping_logs_log_event.
Qed.

Lemma log_ping_data_event_logs now sp a d :
  event_logs (AnalyticsManager.log_ping_data now sp a d) = event_logs d.
Proof. unfold AnalyticsManager.log_ping_data. by destruct (player_pings a). Qed.

Lemma poll_run_offline ticks b :
  Forall (λ t, is_offline t.2 = true) ticks →
  analytics_manager (poll_run ticks b) = analytics_manager b
  ∧ notification_manager (poll_run ticks b) = notification_manager b
  ∧ db_manager (poll_run ticks b) = db_manager b.
Proof.
  intros Hoff. revert b.
  induction Hoff as [|[now sd] ticks Hsd Hoff IH]; intros b; [done|].
  change (poll_run ((now, sd) :: ticks) b)
    with (poll_run ticks (update_server_status now sd b)).
  destruct (IH (update_server_status now sd b)) as (-> & -> & ->).
  by rewrite update_server_status_offline.
Qed.

End PollLoop.

(** C3.  Poll ticks whose fetch failed or whose snapshot has the online
    flag false leave both tracking maps and the whole store as they
    were, however many of them follow each other: no leave event is
    logged and the number of tracked players stays what it was (three,
    if three were tracked). *)
Theorem offline_ticks_keep_presence (ticks : list (Z * option snapshot)) (b : bot) :
  Forall (λ t, is_offline t.2 = true) ticks →
  let b' := poll_run ticks b in
  current_players (analytics_manager b') = current_players (analytics_manager b)
  ∧ session_start_times (analytics_manager b')
    = session_start_times (analytics_manager b)
  ∧ event_logs (db_manager b') = event_logs (db_manager b)
  ∧ size (current_players (analytics_manager b'))
    = size (current_players (analytics_manager b)).
Proof.
  intros Hoff b'. destruct (poll_run_offline ticks b Hoff) as (Ha & _ & Hd).
  subst b'. by rewrite Ha, Hd.
Qed.

Lemma offline_ticks_keep_presence_witness :
  let b' :=
    poll_run
      [(timedelta_seconds 30, Some (Snapshot false "Motionlife RP" 0 128 0 []));
       (timedelta_seconds 60, None)] three_online_bot in
  size (current_players (analytics_manager three_online_bot)) = 3%nat
  ∧ size (current_players (analytics_manager b')) = 3%nat.
Proof.
  intros b'. assert (size (current_players (analytics_manager three_online_bot))
                     = 3%nat) as H3 by (by vm_compute).
  split; [exact H3|]. rewrite <- H3.
  apply (offline_ticks_keep_presence
           [(timedelta_seconds 30, Some (Snapshot false "Motionlife RP" 0 128 0 []));
            (timedelta_seconds 60, None)] three_online_bot).
  repeat constructor.
Defined.

Section Departures.
Import AnalyticsManager DatabaseManager MotionlifeBot.

Lemma elem_of_events_of_last p l l0 e :
  events_of p l = l0 ++ [e] → e ∈ l.
Proof.
  intros H. assert (e ∈ events_of p l) as Hin.
  { rewrite H. apply elem_of_app. right. apply list_elem_of_here. }
  by apply list_elem_of_filter in Hin as [_ ?].
Qed.

(** A tracked player missing from a processed roster. *)
Lemma update_player_data_departure now r a d p pr start :
  p ∉ name <$> r →
  current_players a !! p = Some pr →
  session_start_times a !! p = Some start →
  let st := update_player_data now r a d in
  current_players st.1 !! p = None
  ∧ session_start_times st.1 !! p = None
  ∧ events_of p (event_logs st.2)
    = events_of p (event_logs d)
      ++ [Event now Leave p (Details None None (Some (now - start)) None)].
Proof.
  intros Hout Hcp Hsst st.
  pose proof (update_player_data_view now r a d p) as Hv. fold st in Hv.
  rewrite filter_name_absent in Hv by done.
  unfold view_of in Hv at 2. cbn [fst snd] in Hv. rewrite Hcp, Hsst in Hv.
  unfold player_step, left_view in Hv. cbn [foldl fst snd] in Hv.
  unfold view_of in Hv. by injection Hv as -> -> _ ->.
Qed.

(** A tracked player found stale by the reaper. *)
Lemma clean_offline_players_stale now a d p pr start :
  current_players a !! p = Some pr →
  session_start_times a !! p = Some start →
  offline_threshold < now - last_update pr →
  let st := clean_offline_players now a d in
  current_players st.1 !! p = None
  ∧ events_of p (event_logs st.2)
    = events_of p (event_logs d)
      ++ [Event now Leave p
            (Details None None (Some (now - start)) (Some "timeout"))].
Proof.
  intros Hcp Hsst Hstale st.
  pose proof (clean_offline_players_view now a d p) as Hv. fold st in Hv.
  rewrite decide_True in Hv by (rewrite elem_of_offline_players; by exists pr).
  unfold view_of in Hv at 2. cbn [fst snd] in Hv. rewrite Hcp, Hsst in Hv.
  unfold reap_view, view_of in Hv. by injection Hv as -> _ _ ->.
Qed.

End Departures.

(** C10 (as the code has it).  A poll tick whose snapshot is online with
    an empty roster runs neither the reconciler nor the ping logging:
    tracking state and store are unchanged, so no leave event and no ping
    sample is written.  The departures are noticed later: by the next
    poll tick that carries a non-empty roster, whose diff logs a leave
    without reason for every tracked player it does not list, or by a
    run of the hourly reaper once the player's last update is more than
    two minutes old, which logs a leave with reason "timeout". *)
Theorem empty_roster_tick_is_skipped (now : Z) (sd : snapshot) (b : bot) :
  online sd = true → snap_players sd = [] →
  let b' := MotionlifeBot.update_server_status now (Some sd) b in
  (analytics_manager b' = analytics_manager b ∧ db_manager b' = db_manager b)
  ∧ ∀ p pr start,
      current_players (analytics_manager b') !! p = Some pr →
      session_start_times (analytics_manager b') !! p = Some start →
      (∀ now' sd',
         online sd' = true → snap_players sd' ≠ [] →
         p ∉ name <$> snap_players sd' →
         let b'' := MotionlifeBot.update_server_status now' (Some sd') b' in
         current_players (analytics_manager b'') !! p = None
         ∧ Event now' Leave p (Details None None (Some (now' - start)) None)
           ∈ event_logs (db_manager b''))
      ∧ (∀ now' current_hour,
           timedelta_minutes 2 < now' - last_update pr →
           let b'' := MotionlifeBot.cleanup_task now' current_hour b' in
           current_players (analytics_manager b'') !! p = None
           ∧ Event now' Leave p
               (Details None None (Some (now' - start)) (Some "timeout"))
             ∈ event_logs (db_manager b'')).
Proof.
  intros Hon Hempty b'. subst b'.
  rewrite update_server_status_empty by done. cbn [analytics_manager db_manager].
  split; [done|]. intros p pr start Hcp Hsst. split.
  - intros now' sd' Hon' Hr' Hout.
    rewrite update_server_status_roster by done.
    cbn [analytics_manager db_manager notification_manager].
    destruct (update_player_data_departure now' (snap_players sd')
                (analytics_manager b) (db_manager b) p pr start Hout Hcp Hsst)
      as (Hgone & _ & Hev).
    split; [done|].
    destruct (check_player_changes_extends now' (snap_players sd')
                (notification_manager b)
                (AnalyticsManager.log_ping_data now' (snap_ping sd')
                   (AnalyticsManager.update_player_data now' (snap_players sd')
                      (analytics_manager b) (db_manager b)).1
                   (AnalyticsManager.update_player_data now' (snap_players sd')
                      (analytics_manager b) (db_manager b)).2)) as [k Hk].
    rewrite Hk, log_ping_data_event_logs. apply elem_of_app. left.
    by eapply elem_of_events_of_last.
  - intros now' current_hour Hstale.
    unfold MotionlifeBot.cleanup_task. cbn [analytics_manager db_manager].
    destruct (clean_offline_players_stale now' (analytics_manager b)
                (db_manager b) p pr start Hcp Hsst Hstale) as (Hgone & Hev).
    destruct (AnalyticsManager.clean_offline_players now' (analytics_manager b)
                (db_manager b)) as [a1 d1].
    cbn [analytics_manager db_manager fst snd] in *. split; [done|].
    apply elem_of_events_of_last in Hev.
    destruct (current_hour =? 0); [|done].
    unfold MotionlifeBot.cleanup_old_data. cbn [event_logs].
    apply list_elem_of_filter. split; [|done].
    cbn [timestamp]. unfold timedelta_days, timedelta_seconds, us_per_second. lia.
Qed.

Lemma emptied_bot_Ann :
  current_players (analytics_manager emptied_bot) !! "Ann"
  = Some (Presence 0 40 [] "civilian" "civilian")
  ∧ session_start_times (analytics_manager emptied_bot) !! "Ann" = Some 0.
Proof. by vm_compute. Qed.

Lemma empty_roster_tick_is_skipped_witness :
  db_manager emptied_bot = db_manager rejoin_bot_1
  ∧ current_players
      (analytics_manager
         (MotionlifeBot.cleanup_task (timedelta_seconds 3600) 1 emptied_bot))
    !! "Ann" = None.
Proof.
  destruct emptied_bot_Ann as [Hcp Hsst].
  pose proof (empty_roster_tick_is_skipped (timedelta_seconds 30)
                (online_snapshot []) rejoin_bot_1 eq_refl eq_refl)
    as [[_ Hdb] Hlater].
  split; [exact Hdb|].
  destruct (Hlater "Ann" _ _ Hcp Hsst) as [_ Hreap].
  apply (Hreap (timedelta_seconds 3600) 1). by vm_compute.
Defined.

(** C10, counterexample.  After the tick with the empty roster Ann is
    still tracked; the next poll tick, whose roster lists Bob alone,
    stops tracking her although no reaper has run. *)
Lemma departure_noticed_without_reaper :
  ¬ spec_only_reaper_detects "Ann" emptied_bot.
Proof.
  intros H.
  specialize (H [(timedelta_seconds 60, Some (online_snapshot [entry "Bob" 50]))]).
  vm_compute in H. discriminate H.
Qed.

(** ** Ping samples *)

Section Pings.
Import AnalyticsManager.

Lemma foldr_min_spec x rest :
  foldr Z.min x rest ∈ x :: rest ∧ ∀ y, y ∈ x :: rest → foldr Z.min x rest <= y.
Proof.
  induction rest as [|z rest [IHin IHle]]; simpl.
  - split; [apply list_elem_of_here|]. intros y Hy.
    apply list_elem_of_singleton in Hy. lia.
  - split.
    + destruct (Z.min_spec z (foldr Z.min x rest)) as [[_ ->]|[_ ->]].
      * apply list_elem_of_further, list_elem_of_here.
      * apply elem_of_cons in IHin as [->|Hin]; [apply list_elem_of_here|].
        by do 2 apply list_elem_of_further.
    + intros y Hy. apply elem_of_cons in Hy as [->|Hy].
      * specialize (IHle x (list_elem_of_here _ _)). lia.
      * apply elem_of_cons in Hy as [->|Hy]; [lia|].
        specialize (IHle y (list_elem_of_further _ _ _ Hy)). lia.
Qed.

Lemma foldr_max_spec x rest :
  foldr Z.max x rest ∈ x :: rest ∧ ∀ y, y ∈ x :: rest → y <= foldr Z.max x rest.
Proof.
  induction rest as [|z rest [IHin IHle]]; simpl.
  - split; [apply list_elem_of_here|]. intros y Hy.
    apply list_elem_of_singleton in Hy. lia.
  - split.
    + destruct (Z.max_spec z (foldr Z.max x rest)) as [[_ ->]|[_ ->]].
      * apply elem_of_cons in IHin as [->|Hin]; [apply list_elem_of_here|].
        by do 2 apply list_elem_of_further.
      * apply list_elem_of_further, list_elem_of_here.
    + intros y Hy. apply elem_of_cons in Hy as [->|Hy].
      * specialize (IHle x (list_elem_of_here _ _)). lia.
      * apply elem_of_cons in Hy as [->|Hy]; [lia|].
        specialize (IHle y (list_elem_of_further _ _ _ Hy)). lia.
Qed.

(** The pings that enter the statistics: the positive pings of the
    tracked players. *)
Lemma elem_of_player_pings a x :
  x ∈ player_pings a ↔
  0 < x ∧ ∃ p pr, current_players a !! p = Some pr ∧ p_ping pr = x.
Proof.
  unfold player_pings. rewrite list_elem_of_filter, list_elem_of_fmap.
  split.
  - intros [Hpos (pr & -> & Hin)]. split; [done|].
    apply list_elem_of_fmap in Hin as ([p pr'] & -> & Hin).
    apply elem_of_map_to_list in Hin. by exists p, pr'.
  - intros [Hpos (p & pr & Hp & <-)]. split; [done|]. exists pr. split; [done|].
    apply list_elem_of_fmap. exists (p, pr). split; [done|].
    by apply elem_of_map_to_list.
Qed.

(** What one call of [log_ping_data] appends. *)
Lemma log_ping_data_sample now sp a d :
  ∃ s, ping_logs (log_ping_data now sp a d) = ping_logs d ++ [s]
       ∧ ps_timestamp s = now ∧ server_ping s = sp
       ∧ match player_pings a with
         | [] => low s = sp ∧ avg s = sp ∧ high s = sp
         | pings =>
             (∃ lo, lo ∈ pings ∧ (∀ x, x ∈ pings → lo <= x) ∧ low s = inject_Z lo)
             ∧ (∃ hi, hi ∈ pings ∧ (∀ x, x ∈ pings → x <= hi)
                      ∧ high s = inject_Z hi)
             ∧ (avg s * inject_Z (Z.of_nat (length pings))
                == inject_Z (Zsum pings))%Q
         end.
Proof.
  unfold log_ping_data. destruct (player_pings a) as [|x rest].
  - eexists. split; [reflexivity|]. done.
  - eexists. split; [reflexivity|]. cbn [ps_timestamp server_ping low avg high].
    split; [done|]. split; [done|].
    destruct (foldr_min_spec x rest) as [Hmin1 Hmin2].
    destruct (foldr_max_spec x rest) as [Hmax1 Hmax2].
    split; [exists (foldr Z.min x rest); by repeat split|].
    split; [exists (foldr Z.max x rest); by repeat split|].
    rewrite Qmult_comm. apply Qmult_div_r.
    intros H. unfold Qeq in H. simpl in H. lia.
Qed.

End Pings.

(** C6 (as the code has it).  A poll tick whose snapshot is online with a
    non-empty roster appends exactly one ping sample, stamped with the
    tick time and the server ping.  Its statistics range over the
    positive pings of the players tracked after this tick's
    reconciliation: low is their minimum, high their maximum and avg
    their mean; when there is no such ping, low, avg and high are all the
    bare server ping. *)
Theorem poll_tick_appends_ping_sample (now : Z) (sd : snapshot) (b : bot) :
  online sd = true → snap_players sd ≠ [] →
  let b' := MotionlifeBot.update_server_status now (Some sd) b in
  let pings := AnalyticsManager.player_pings (analytics_manager b') in
  (∀ x, x ∈ pings ↔
        0 < x ∧ ∃ p pr, current_players (analytics_manager b') !! p = Some pr
                        ∧ p_ping pr = x)
  ∧ ∃ s, ping_logs (db_manager b') = ping_logs (db_manager b) ++ [s]
         ∧ ps_timestamp s = now ∧ server_ping s = snap_ping sd
         ∧ match pings with
           | [] => low s = snap_ping sd ∧ avg s = snap_ping sd ∧ high s = snap_ping sd
           | _ =>
               (∃ lo, lo ∈ pings ∧ (∀ x, x ∈ pings → lo <= x) ∧ low s = inject_Z lo)
               ∧ (∃ hi, hi ∈ pings ∧ (∀ x, x ∈ pings → x <= hi)
                        ∧ high s = inject_Z hi)
               ∧ (avg s * inject_Z (Z.of_nat (length pings))
                  == inject_Z (Zsum pings))%Q
           end.
Proof.
  intros Hon Hr b' pings. subst b' pings.
  rewrite update_server_status_roster by done.
  cbn [analytics_manager db_manager].
  split; [apply elem_of_player_pings|].
  rewrite check_player_changes_ping_logs.
  set (st1 := AnalyticsManager.update_player_data now (snap_players sd)
                (analytics_manager b) (db_manager b)).
  destruct (log_ping_data_sample now (snap_ping sd) st1.1 st1.2)
    as (s & Hlog & Hts & Hsp & Hstats).
  exists s. split.
  { rewrite Hlog. subst st1. by rewrite update_player_data_ping_logs. }
  split; [done|]. split; [done|].
  destruct (AnalyticsManager.player_pings st1.1); exact Hstats.
Qed.

Lemma poll_tick_appends_ping_sample_witness :
  ∃ s, ping_logs (db_manager three_online_bot) = ping_logs (db_manager initial_bot) ++ [s]
       ∧ ps_timestamp s = 0 ∧ server_ping s = (25 # 1)%Q.
Proof.
  destruct (poll_tick_appends_ping_sample 0
              (online_snapshot [entry "Ann" 40; entry "Bob" 50; entry "Cid" 60])
              initial_bot eq_refl ltac:(discriminate))
    as (_ & s & Hlog & Hts & Hsp & _).
  exists s. repeat split; assumption.
Defined.

(** C6, counterexample.  Neither a tick whose fetch failed nor a tick
    whose snapshot is online with an empty roster appends a sample. *)
Lemma some_ticks_append_no_sample :
  ¬ spec_appends_one_sample 0 None initial_bot
  ∧ ¬ spec_appends_one_sample 0 (Some (online_snapshot [])) initial_bot.
Proof. split; vm_compute; discriminate. Qed.

(** ** Ping statistics *)

Section PingStats.
Import DatabaseManager.

Lemma round_half_even_close (x : Q) :
  (Qabs (inject_Z (round_half_even x) - x) <= 1 # 2)%Q.
Proof.
  unfold round_half_even.
  pose proof (Qfloor_le x) as Hlo.
  pose proof (Qlt_floor x) as Hhi.
  rewrite inject_Z_plus in Hhi.
  set (f := Qfloor x) in *.
  apply Qabs_case; intros _;
    destruct (Qcompare_spec (x - inject_Z f) (1 # 2)) as [He|He|He];
    try destruct (Z.even f); rewrite ?inject_Z_plus;
    change (inject_Z 1) with 1%Q in *; lra.
Qed.

(** Rounding to one decimal moves a value by at most 0.05. *)
Lemma round1_close (q : Q) : (Qabs (round1 q - q) <= 1 # 20)%Q.
Proof.
  unfold round1.
  pose proof (round_half_even_close (q * 10)) as H.
  revert H. set (z := inject_Z (round_half_even (q * 10))). intros H.
  apply Qabs_Qle_condition in H. apply Qabs_Qle_condition.
  destruct H as [H1 H2]. unfold Qdiv. change (/ 10)%Q with (1 # 10)%Q.
  split; lra.
Qed.

End PingStats.

(** C9 (as the code has it).  [get_ping_stats] answers [None] exactly
    when no sample falls in the window.  Otherwise it answers a structure
    whose low, avg and high lie within 0.05 of the arithmetic means of
    the per-sample low, avg and high (the code rounds the means to one
    decimal place; which neighbour a tie goes to is not stated).  A
    window of zero-valued samples gives a zero-valued structure, which
    is not [None]. *)
Theorem get_ping_stats_none_or_close_to_means (now hours : Z) (d : db) :
  let w := DatabaseManager.in_window (now - timedelta_hours hours) (ping_logs d) in
  match DatabaseManager.get_ping_stats now hours d with
  | None => w = []
  | Some s =>
      w ≠ []
      ∧ (Qabs (DatabaseManager.st_low s - Qmean (low <$> w)) <= 1 # 20)%Q
      ∧ (Qabs (DatabaseManager.st_avg s - Qmean (avg <$> w)) <= 1 # 20)%Q
      ∧ (Qabs (DatabaseManager.st_high s - Qmean (high <$> w)) <= 1 # 20)%Q
  end
  ∧ ∃ z, DatabaseManager.get_ping_stats 0 1 zero_pings = Some z
         ∧ (DatabaseManager.st_low z == 0 ∧ DatabaseManager.st_avg z == 0
            ∧ DatabaseManager.st_high z == 0)%Q.
Proof.
  intros w. split.
  - unfold DatabaseManager.get_ping_stats. fold w.
    destruct w as [|s rest]; [done|].
    cbn [DatabaseManager.st_low DatabaseManager.st_avg DatabaseManager.st_high].
    repeat split; try done; apply round1_close.
  - eexists. split; [by vm_compute|]. by vm_compute.
Qed.

(** C9, counterexample.  For three samples whose low fields are 1, 2 and
    2 the answer holds low = 1.7, which is not their mean 5/3. *)
Lemma ping_stats_are_rounded :
  ∃ s, DatabaseManager.get_ping_stats 0 1 uneven_pings = Some s
       ∧ (DatabaseManager.st_low s == 17 # 10)%Q
       ∧ ¬ spec_ping_means
             (DatabaseManager.in_window (0 - timedelta_hours 1)
                (ping_logs uneven_pings)) s.
Proof.
  eexists. split; [by vm_compute|]. split; [by vm_compute|].
  unfold spec_ping_means. vm_compute. intros [H _]. discriminate H.
Qed.

(** ** Peak concurrency *)

Section Peak.
Import AnalyticsManager DatabaseManager.

Lemma length_insert_desc e l : length (insert_desc e l) = S (length l).
Proof.
  induction l as [|x l IH]; [done|]. simpl.
  destruct (timestamp x <=? timestamp e); simpl; by rewrite ?IH.
Qed.

Lemma length_sort_desc l : length (sort_desc l) = length l.
Proof.
  induction l as [|x l IH]; [done|]. simpl.
  by rewrite length_insert_desc, IH.
Qed.

Lemma length_insert_asc e l : length (insert_asc e l) = S (length l).
Proof.
  induction l as [|x l IH]; [done|]. simpl.
  destruct (timestamp e <=? timestamp x); simpl; by rewrite ?IH.
Qed.

Lemma length_sort_by_timestamp l : length (sort_by_timestamp l) = length l.
Proof.
  induction l as [|x l IH]; [done|]. simpl.
  by rewrite length_insert_asc, IH.
Qed.

(** Insertions of events with different timestamps commute. *)
Lemma insert_asc_comm e x l :
  timestamp e ≠ timestamp x →
  insert_asc e (insert_asc x l) = insert_asc x (insert_asc e l).
Proof.
  intros Hne. induction l as [|y l IH]; simpl;
    repeat (match goal with
            | |- context [?a <=? ?b] => destruct (Z.leb_spec a b); simpl
            end); try lia; try done.
  by rewrite IH.
Qed.

(** The descending insertion puts the event behind the later ones. *)
Lemma insert_desc_split e l :
  ∃ l1 l2, l = l1 ++ l2 ∧ insert_desc e l = l1 ++ e :: l2
           ∧ Forall (λ x, timestamp e < timestamp x) l1.
Proof.
  induction l as [|x l (l1 & l2 & -> & Hins & Hl1)].
  - by exists [], [].
  - simpl. destruct (Z.leb_spec (timestamp x) (timestamp e)) as [Hle|Hgt].
    + by exists [], (x :: l1 ++ l2).
    + exists (x :: l1), l2. rewrite Hins.
      split; [done|]. split; [done|]. by constructor.
Qed.

Lemma sort_by_timestamp_app_cons P `{∀ x, Decision (P x)} e l1 l2 :
  Forall (λ x, timestamp e < timestamp x) l1 →
  sort_by_timestamp (filter P (l1 ++ e :: l2))
  = sort_by_timestamp (filter P (e :: l1 ++ l2)).
Proof.
  intros Hl1. induction Hl1 as [|x l1 Hx Hl1 IH]; [done|].
  rewrite <- !app_comm_cons.
  destruct (decide (P e)) as [He|He], (decide (P x)) as [Hpx|Hpx].
  - rewrite (filter_cons_True P x) by done.
    rewrite (filter_cons_True P e) by done.
    rewrite (filter_cons_True P x) by done.
    cbn [sort_by_timestamp foldr]. fold (sort_by_timestamp (filter P (l1 ++ e :: l2))).
    rewrite IH. rewrite (filter_cons_True P e) by done.
    cbn [sort_by_timestamp foldr]. apply insert_asc_comm. lia.
  - rewrite (filter_cons_False P x) by done.
    rewrite (filter_cons_True P e) by done.
    rewrite (filter_cons_False P x) by done.
    rewrite IH. by rewrite (filter_cons_True P e) by done.
  - rewrite (filter_cons_True P x) by done.
    rewrite (filter_cons_False P e) by done.
    rewrite (filter_cons_True P x) by done.
    cbn [sort_by_timestamp foldr]. fold (sort_by_timestamp (filter P (l1 ++ e :: l2))).
    rewrite IH. by rewrite (filter_cons_False P e) by done.
  - rewrite (filter_cons_False P x) by done.
    rewrite (filter_cons_False P e) by done.
    rewrite (filter_cons_False P x) by done.
    rewrite IH. by rewrite (filter_cons_False P e) by done.
Qed.

(** Sorting the window chronologically gives the same list whether or
    not the log was first sorted newest-first: both sorts are stable. *)
Lemma sort_filter_sort_desc P `{∀ x, Decision (P x)} l :
  sort_by_timestamp (filter P (sort_desc l)) = sort_by_timestamp (filter P l).
Proof.
  induction l as [|e l IH]; [done|].
  cbn [sort_desc foldr]. fold (sort_desc l).
  destruct (insert_desc_split e (sort_desc l)) as (l1 & l2 & Hl & -> & Hl1).
  rewrite sort_by_timestamp_app_cons by done. rewrite <- Hl.
  destruct (decide (P e)).
  - rewrite !(filter_cons_True P e) by done.
    cbn [sort_by_timestamp foldr]. fold (sort_by_timestamp (filter P (sort_desc l))).
    fold (sort_by_timestamp (filter P l)). by rewrite IH.
  - by rewrite !(filter_cons_False P e) by done.
Qed.

(** On a log of at most [recent_limit] events the code replays the whole
    window. *)
Lemma calculate_peak_small_log now days a d :
  (length (event_logs d) ≤ recent_limit)%nat →
  _calculate_peak_players now days a d
  = spec_peak now days (size (current_players a)) (event_logs d).
Proof.
  intros Hlen. unfold _calculate_peak_players, spec_peak, get_recent_events.
  rewrite take_ge by (rewrite length_sort_desc; lia).
  set (P := λ e, now - timedelta_days days <= timestamp e).
  pose proof (sort_filter_sort_desc P (event_logs d)) as Hsort.
  pose proof (f_equal length Hsort) as Hlen2.
  rewrite !length_sort_by_timestamp in Hlen2.
  destruct (filter P (sort_desc (event_logs d))) as [|x xs],
           (filter P (event_logs d)) as [|y ys]; try done.
  by rewrite Hsort.
Qed.

Lemma filter_none {A} (P : A → Prop) `{∀ x, Decision (P x)} (l : list A) :
  Forall (λ x, ¬ P x) l → filter P l = [].
Proof.
  induction 1 as [|x l Hx Hl IH]; [done|].
  by rewrite filter_cons_False by done.
Qed.

(** When nothing falls in the window the live count is returned. *)
Lemma calculate_peak_empty_window now days a d :
  Forall (λ e, timestamp e < now - timedelta_days days) (event_logs d) →
  _calculate_peak_players now days a d = size (current_players a).
Proof.
  intros Hold. unfold _calculate_peak_players, get_recent_events.
  set (P := λ e, now - timedelta_days days <= timestamp e).
  assert (filter P (take recent_limit (sort_desc (event_logs d))) = []) as ->;
    [|done].
  apply filter_none. apply Forall_forall. intros e He.
  apply (subseteq_take recent_limit) in He.
  assert (e ∈ event_logs d) as Hin.
  { clear -He. induction (event_logs d) as [|x l IH]; [done|].
    cbn [sort_desc foldr] in He. fold (sort_desc l) in He.
    destruct (insert_desc_split x (sort_desc l)) as (l1 & l2 & Hl & Hins & _).
    rewrite Hins in He. rewrite Hl in IH.
    rewrite elem_of_app, elem_of_cons in He. rewrite elem_of_app in IH.
    rewrite elem_of_cons. tauto. }
  rewrite Forall_forall in Hold. specialize (Hold e Hin). unfold P. lia.
Qed.

End Peak.

Section PeakExample.
Import AnalyticsManager DatabaseManager.

(** The scenario of the specification: join A, join B, leave A, join C
    at increasing times inside the window. *)
Lemma replay_four_events (A B C : string) (t0 t1 t2 t3 : Z)
    (dA dB dA' dC : details) (cutoff : Z) :
  A ≠ B → cutoff <= t0 → t0 < t1 → t1 < t2 → t2 < t3 →
  replay (sort_by_timestamp
            (filter (λ e, cutoff <= timestamp e)
               [Event t0 Join A dA; Event t1 Join B dB;
                Event t2 Leave A dA'; Event t3 Join C dC])) = 2%nat.
Proof.
  intros HAB Hc H01 H12 H23.
  rewrite !filter_cons_True by (cbn [timestamp]; lia). rewrite filter_nil.
  cbn [sort_by_timestamp foldr insert_asc timestamp].
  repeat (match goal with
          | |- context [?a <=? ?b] => destruct (Z.leb_spec a b); try lia
          end; cbn [insert_asc timestamp]).
  unfold replay. cbn [foldl replay_step ev_type player_name fst snd].
  assert ({[A]} ∪ ∅ = ({[A]} : gset string)) as -> by set_solver.
  assert (({[B]} ∪ {[A]}) ∖ {[A]} = ({[B]} : gset string)) as -> by set_solver.
  rewrite (size_union ({[B]} : gset string) {[A]}) by set_solver.
  rewrite !size_singleton.
  pose proof (size_union_alt ({[C]} : gset string) {[B]}) as HC.
  pose proof (subseteq_size (({[B]} : gset string) ∖ {[C]}) {[B]}
                ltac:(set_solver)) as HB.
  rewrite !size_singleton in *. lia.
Qed.
End PeakExample.

(** C5 (as the code has it).  The peak is the replay, in chronological
    order with join = insert and leave = remove and the largest set size
    kept, of the events of the window among the 1000 most recent events
    of the log, and the live tracked count when none of them is in the
    window.  So on a log of at most 1000 events the whole window is
    replayed; the events join A, join B, leave A, join C at increasing
    times in the window give 2; and a log without event in the window
    gives the live count. *)
Theorem peak_replays_recent_window (now days : Z) (a : analytics) (d : db) :
  AnalyticsManager._calculate_peak_players now days a d
  = spec_peak now days (size (current_players a))
      (DatabaseManager.get_recent_events AnalyticsManager.recent_limit d)
  ∧ ((length (event_logs d) ≤ 1000)%nat →
     AnalyticsManager._calculate_peak_players now days a d
     = spec_peak now days (size (current_players a)) (event_logs d))
  ∧ (∀ (A B C : string) (t0 t1 t2 t3 : Z) (dA dB dA' dC : details),
       A ≠ B → now - timedelta_days days <= t0 → t0 < t1 → t1 < t2 → t2 < t3 →
       AnalyticsManager._calculate_peak_players now days a
         (Db (players d)
             [Event t0 Join A dA; Event t1 Join B dB;
              Event t2 Leave A dA'; Event t3 Join C dC]
             (ping_logs d)) = 2%nat)
  ∧ (Forall (λ e, timestamp e < now - timedelta_days days) (event_logs d) →
     AnalyticsManager._calculate_peak_players now days a d
     = size (current_players a)).
Proof.
  split; [reflexivity|]. split; [apply calculate_peak_small_log|].
  split; [|apply calculate_peak_empty_window].
  intros A B C t0 t1 t2 t3 dA dB dA' dC HAB Hc H01 H12 H23.
  rewrite calculate_peak_small_log
    by (cbn [event_logs length]; unfold AnalyticsManager.recent_limit; lia).
  unfold spec_peak. cbn [event_logs].
  pose proof (replay_four_events A B C t0 t1 t2 t3 dA dB dA' dC
                (now - timedelta_days days) HAB Hc H01 H12 H23) as Hreplay.
  rewrite filter_cons_True by (cbn [timestamp]; lia).
  rewrite filter_cons_True in Hreplay by (cbn [timestamp]; lia).
  exact Hreplay.
Qed.

Lemma peak_replays_recent_window_witness :
  AnalyticsManager._calculate_peak_players (timedelta_days 1) 1 empty_analytics
    (Db ∅
       [Event 10 Join "Ann" no_details; Event 20 Join "Bob" no_details;
        Event 30 Leave "Ann" no_details; Event 40 Join "Cid" no_details] [])
  = 2%nat.
Proof.
  destruct (peak_replays_recent_window (timedelta_days 1) 1 empty_analytics empty_db)
    as (_ & _ & Hex & _).
  apply (Hex "Ann" "Bob" "Cid" 10 20 30 40); [discriminate|by vm_compute|lia..].
Defined.

(** C5, counterexample.  On the busy log, whose 1002 events are all in
    the window, replaying the window gives a peak of 3 (Ann, Bob and
    Cid), but the code, which fetches the 1000 most recent events only,
    never sees Ann and Bob join and answers 1. *)
Lemma peak_misses_events_beyond_limit :
  AnalyticsManager._calculate_peak_players (timedelta_days 1) 7 empty_analytics
    (Db ∅ busy_log [])
  ≠ spec_peak (timedelta_days 1) 7 (size (current_players empty_analytics)) busy_log
  ∧ length busy_log = 1002%nat
  ∧ spec_peak (timedelta_days 1) 7 0 busy_log = 3%nat
  ∧ AnalyticsManager._calculate_peak_players (timedelta_days 1) 7 empty_analytics
      (Db ∅ busy_log []) = 1%nat.
Proof. vm_compute. split; [discriminate|done]. Qed.

(** * Further properties of the code *)

(** ** Invariants of the reconciler and the reaper *)

Section ReconcilerInvariants.
Import AnalyticsManager DatabaseManager.

Lemma record_grows_refl o : record_grows o o.
Proof. destruct o as [r|]; [|done]. exists r. repeat split; lia. Qed.

Lemma record_grows_trans o1 o2 o3 :
  record_grows o1 o2 → record_grows o2 o3 → record_grows o1 o3.
Proof.
  destruct o1 as [r1|]; [|done]. intros (r2 & -> & ? & ? & ? & ?).
  intros (r3 & -> & ? & ? & ? & ?). exists r3.
  repeat split; [lia|lia|congruence|congruence].
Qed.

Lemma record_grows_upsert t pd o :
  0 <= pd_session_time pd → record_grows o (Some (upsert_doc t pd o)).
Proof.
  intros Hpos. destruct o as [r|]; [|done]. eexists. split; [done|].
  simpl. repeat split; lia.
Qed.

Lemma record_grows_bump o : record_grows o (bump_sessions <$> o).
Proof.
  destruct o as [r|]; [|done]. eexists. split; [done|]. simpl.
  repeat split; lia.
Qed.

(** What one kept roster entry does to the view of the player it names. *)
Lemma present_view_facts now b cp sst rec evs e :
  ¬ (name e = "" ∨ name e = "Unknown") →
  ∃ pr' rec',
    present_view now (b, (cp, sst, rec, evs)) e
    = (true,
       (Some pr', (if cp is None then Some now else sst), Some rec',
        (if cp is None then
           evs ++ [Event now Join (name e)
                     (Details (Some (ping e)) (Some (identifiers e)) None None)]
         else evs)))
    ∧ agrees now (name e) pr' rec' ∧ record_grows rec (Some rec').
Proof.
  intros Hvalid. unfold present_view. rewrite decide_False by done.
  destruct cp as [pr|].
  - rewrite bool_decide_eq_false_2 by done.
    eexists _, _. split; [reflexivity|]. split.
    + by destruct rec.
    + apply record_grows_upsert. simpl. unfold tick_seconds. lia.
  - rewrite bool_decide_eq_true_2 by done.
    eexists _, _. split; [reflexivity|]. split.
    + by destruct rec.
    + eapply record_grows_trans; [apply record_grows_bump|].
      by apply record_grows_upsert.
Qed.

(** Further entries of a player the loop has just handled: the session
    start and the events of the player are left alone. *)
Lemma present_view_fold_tracked now p :
  ¬ (p = "" ∨ p = "Unknown") →
  ∀ occ, Forall (λ e, name e = p) occ →
  ∀ pr sst r evs,
  agrees now p pr r →
  ∃ pr' r',
    foldl (present_view now) (true, (Some pr, sst, Some r, evs)) occ
    = (true, (Some pr', sst, Some r', evs))
    ∧ agrees now p pr' r' ∧ record_grows (Some r) (Some r').
Proof.
  intros Hvalid occ Hocc.
  induction Hocc as [|e occ He Hocc IH]; intros pr sst r evs Hag.
  - exists pr, r. split; [done|]. split; [done|]. apply record_grows_refl.
  - cbn [foldl].
    destruct (present_view_facts now true (Some pr) sst (Some r) evs e)
      as (pr1 & r1 & -> & Hag1 & Hgr1); [by rewrite He|].
    rewrite He in Hag1.
    destruct (IH pr1 sst r1 evs Hag1) as (pr' & r' & -> & Hag' & Hgr').
    exists pr', r'. split; [done|]. split; [done|].
    by eapply record_grows_trans.
Qed.

(** The whole call, seen from one player, in every case. *)
Lemma player_step_facts now p occ cp sst rec evs :
  Forall (λ e, name e = p) occ →
  ∃ cp' sst' rec' evs',
    player_step now p occ (cp, sst, rec, evs) = (cp', sst', rec', evs')
    ∧ record_grows rec rec'
    ∧ ((is_Some cp ↔ is_Some sst) → (is_Some cp' ↔ is_Some sst'))
    ∧ (∀ pr', cp' = Some pr' → ∃ r', rec' = Some r' ∧ agrees now p pr' r')
    ∧ (is_Some cp → is_Some cp' → sst' = sst ∧ evs' = evs)
    ∧ (cp = None → cp' = None → sst' = sst ∧ rec' = rec ∧ evs' = evs).
Proof.
  intros Hocc.
  assert (∃ sst' rec' evs',
            (if cp is Some _ then left_view now p (cp, sst, rec, evs)
             else (cp, sst, rec, evs)) = (None, sst', rec', evs')
            ∧ record_grows rec rec'
            ∧ ((is_Some cp ↔ is_Some sst) → ¬ is_Some sst')
            ∧ (cp = None → sst' = sst ∧ rec' = rec ∧ evs' = evs)) as Hgone.
  { destruct cp as [pr|].
    - unfold left_view. destruct sst as [start|].
      + eexists _, _, _. split; [reflexivity|].
        split; [|split; [by intros _ [? ?]|done]].
        destruct (0 <? remaining_time (now - start)) eqn:Hrem;
          [|apply record_grows_refl].
        apply record_grows_upsert. simpl. apply Z.ltb_lt in Hrem. lia.
      + eexists _, _, _. split; [reflexivity|].
        split; [apply record_grows_refl|]. split; [by intros _ [? ?]|done].
    - eexists _, _, _. split; [reflexivity|].
      split; [apply record_grows_refl|]. split; [|done].
      intros [_ Hiff] Hs. destruct (Hiff Hs) as [? ?]. done. }
  assert (∀ v,
            (if cp is Some _ then left_view now p (cp, sst, rec, evs)
             else (cp, sst, rec, evs)) = v →
            ∃ cp' sst' rec' evs',
              v = (cp', sst', rec', evs')
              ∧ record_grows rec rec'
              ∧ ((is_Some cp ↔ is_Some sst) → (is_Some cp' ↔ is_Some sst'))
              ∧ (∀ pr', cp' = Some pr' → ∃ r', rec' = Some r' ∧ agrees now p pr' r')
              ∧ (is_Some cp → is_Some cp' → sst' = sst ∧ evs' = evs)
              ∧ (cp = None → cp' = None → sst' = sst ∧ rec' = rec ∧ evs' = evs))
    as Hgone'.
  { intros v <-.
    destruct Hgone as (sst' & rec' & evs' & -> & Hgr & Hstep & Hsame).
    exists None, sst', rec', evs'. split; [done|]. split; [done|].
    split; [intros H; split; [by intros [? ?]|by intros ?%(Hstep H)]|].
    split; [done|]. split; [by intros _ [? ?]|]. by intros ?%Hsame _. }
  clear Hgone.
  destruct (decide (p = "" ∨ p = "Unknown")) as [Hskip|Hvalid].
  { unfold player_step. rewrite (present_view_skipped now p Hskip occ Hocc).
    cbn [fst snd]. apply Hgone'. by destruct cp. }
  destruct Hocc as [|e occ He Hocc].
  { unfold player_step. cbn [foldl fst snd]. apply Hgone'. by destruct cp. }
  clear Hgone'. unfold player_step. cbn [foldl].
  destruct (present_view_facts now false cp sst rec evs e)
    as (pr1 & rec1 & Heq & Hag & Hgr); [by rewrite He|].
  unfold view in *. rewrite Heq. clear Heq.
  rewrite He in Hag.
  destruct (present_view_fold_tracked now p Hvalid occ Hocc pr1
              (if cp is None then Some now else sst) rec1
              (if cp is None then
                 evs ++ [Event now Join (name e)
                           (Details (Some (ping e)) (Some (identifiers e))
                              None None)]
               else evs) Hag)
    as (pr' & r' & Heq & Hag' & Hgr').
  unfold view in *. rewrite Heq. clear Heq.
  eexists _, _, _, _. split; [reflexivity|].
  split; [by eapply record_grows_trans|]. split.
  { intros Hstep. split; [intros _|by eexists].
    destruct cp; [by apply Hstep|by eexists]. }
  split; [intros pr'' [= <-]; by exists r'|].
  split; [by intros [pr ->] _|]. by intros -> [=].
Qed.

Lemma foldl_rel {S B V : Type} (R : relation V) `{!Reflexive R, !Transitive R}
    (proj : S → V) (f : S → B → S) :
  (∀ st x, R (proj st) (proj (f st x))) →
  ∀ l st, R (proj st) (proj (foldl f st l)).
Proof.
  intros Hstep l. induction l as [|x l IH]; intros st; [done|].
  cbn [foldl]. by etrans; [apply Hstep|apply IH].
Qed.

Lemma view_of_eq p a d :
  view_of p (a, d)
  = (current_players a !! p, session_start_times a !! p, players d !! p,
     events_of p (event_logs d)).
Proof. reflexivity. Qed.

(** [update_player_data] seen from one player, with the case facts. *)
Lemma update_player_data_facts now r a d p :
  let st := update_player_data now r a d in
  record_grows (players d !! p) (players st.2 !! p)
  ∧ ((is_Some (current_players a !! p) ↔ is_Some (session_start_times a !! p)) →
     (is_Some (current_players st.1 !! p)
      ↔ is_Some (session_start_times st.1 !! p)))
  ∧ (∀ pr', current_players st.1 !! p = Some pr' →
            ∃ r', players st.2 !! p = Some r' ∧ agrees now p pr' r')
  ∧ (is_Some (current_players a !! p) → is_Some (current_players st.1 !! p) →
     session_start_times st.1 !! p = session_start_times a !! p
     ∧ events_of p (event_logs st.2) = events_of p (event_logs d))
  ∧ (current_players a !! p = None → current_players st.1 !! p = None →
     session_start_times st.1 !! p = session_start_times a !! p
     ∧ players st.2 !! p = players d !! p
     ∧ events_of p (event_logs st.2) = events_of p (event_logs d)).
Proof.
  intros st.
  pose proof (update_player_data_view now r a d p) as Hview. fold st in Hview.
  rewrite (surjective_pairing st), !view_of_eq in Hview.
  destruct (player_step_facts now p (filter (λ e, name e = p) r)
              (current_players a !! p) (session_start_times a !! p)
              (players d !! p) (events_of p (event_logs d))
              (Forall_filter_name p r))
    as (cp' & sst' & rec' & evs' & Heq & Hfacts).
  unfold view in *. rewrite Heq in Hview.
  injection Hview as -> -> -> ->. exact Hfacts.
Qed.

Lemma event_logs_update_player_data_prefix now r a d :
  event_logs d `prefix_of` event_logs (update_player_data now r a d).2.
Proof.
  unfold update_player_data.
  assert (event_logs d
          `prefix_of` event_logs (foldl (process_player now) (∅, a, d) r).2)
    as Hloop.
  { apply (foldl_rel prefix (λ st : loop_state, event_logs st.2)).
    intros [[ns a0] d0] e. unfold process_player.
    destruct (decide _); [done|]. cbn [snd]. rewrite event_logs_upsert.
    destruct (bool_decide _); [|done].
    rewrite event_logs_log_event. by apply prefix_app_r. }
  destruct (foldl (process_player now) (∅, a, d) r) as [[names a1] d1].
  cbn [snd] in Hloop. etrans; [exact Hloop|].
  apply (foldl_rel prefix (λ st : analytics * db, event_logs st.2)).
  intros [a0 d0] q. unfold process_left.
  destruct (session_start_times a0 !! q); [|done]. cbn [snd].
  destruct (0 <? _); rewrite ?event_logs_upsert, event_logs_log_event;
    by apply prefix_app_r.
Qed.

Lemma players_clean_offline_players now a d :
  players (clean_offline_players now a d).2 = players d.
Proof.
  unfold clean_offline_players.
  apply (foldl_preserved (λ st : analytics * db, players st.2)).
  intros [a0 d0] q. unfold reap_one.
  by destruct (session_start_times a0 !! q).
Qed.

Lemma ping_logs_clean_offline_players now a d :
  ping_logs (clean_offline_players now a d).2 = ping_logs d.
Proof.
  unfold clean_offline_players.
  apply (foldl_preserved (λ st : analytics * db, ping_logs st.2)).
  intros [a0 d0] q. unfold reap_one.
  destruct (session_start_times a0 !! q); [|done]. apply ping_logs_log_event.
Qed.

Lemma event_logs_clean_offline_players_prefix now a d :
  event_logs d `prefix_of` event_logs (clean_offline_players now a d).2.
Proof.
  unfold clean_offline_players.
  apply (foldl_rel prefix (λ st : analytics * db, event_logs st.2)).
  intros [a0 d0] q. unfold reap_one.
  destruct (session_start_times a0 !! q); [|done]. cbn [snd].
  rewrite event_logs_log_event. by apply prefix_app_r.
Qed.

End ReconcilerInvariants.

(** X1.  The two tracking maps stay in step: if they have the same keys
    before a call of the reconciler or of the reaper, they have the same
    keys after it. *)
Theorem tracking_maps_stay_in_step (now : Z) (r : list roster_entry)
    (a : analytics) (d : db) :
  dom (current_players a) = dom (session_start_times a) →
  dom (current_players (AnalyticsManager.update_player_data now r a d).1)
  = dom (session_start_times (AnalyticsManager.update_player_data now r a d).1)
  ∧ dom (current_players (AnalyticsManager.clean_offline_players now a d).1)
    = dom (session_start_times (AnalyticsManager.clean_offline_players now a d).1).
Proof.
  intros Hdom.
  assert (∀ p, is_Some (current_players a !! p)
               ↔ is_Some (session_start_times a !! p)) as Hstep.
  { intros p. by rewrite <- !elem_of_dom, Hdom. }
  split; apply set_eq; intros p; rewrite !elem_of_dom.
  - by apply (update_player_data_facts now r a d p).
  - pose proof (clean_offline_players_view now a d p) as Hview.
    rewrite (surjective_pairing (AnalyticsManager.clean_offline_players now a d)),
      !view_of_eq in Hview.
    destruct (decide (p ∈ AnalyticsManager.offline_players now a)).
    + unfold reap_view in Hview. injection Hview as -> -> _ _.
      split; by intros [? ?].
    + injection Hview as -> -> _ _. apply Hstep.
Qed.

Lemma tracking_maps_stay_in_step_witness :
  dom (current_players
         (AnalyticsManager.update_player_data (timedelta_seconds 30)
            [entry "Bob" 50] (analytics_manager rejoin_bot_1)
            (db_manager rejoin_bot_1)).1)
  = dom (session_start_times
           (AnalyticsManager.update_player_data (timedelta_seconds 30)
              [entry "Bob" 50] (analytics_manager rejoin_bot_1)
              (db_manager rejoin_bot_1)).1).
Proof.
  apply (tracking_maps_stay_in_step (timedelta_seconds 30) [entry "Bob" 50]
           (analytics_manager rejoin_bot_1) (db_manager rejoin_bot_1)).
  by vm_compute.
Defined.

(** X2.  After a call of the reconciler every tracked player has a
    stored record, and presence and record were written from the same
    roster entry: the record has the player's name and the ping,
    identifiers, job and role of the presence. *)
Theorem tracked_player_has_agreeing_record (now : Z) (r : list roster_entry)
    (a : analytics) (d : db) (p : string) (pr : presence) :
  current_players (AnalyticsManager.update_player_data now r a d).1 !! p = Some pr →
  ∃ rec,
    players (AnalyticsManager.update_player_data now r a d).2 !! p = Some rec
    ∧ r_name rec = p
    ∧ r_ping rec = p_ping pr ∧ r_identifiers rec = p_identifiers pr
    ∧ r_job rec = p_job pr ∧ r_role rec = p_role pr.
Proof.
  intros Hcp.
  destruct (update_player_data_facts now r a d p) as (_ & _ & Hag & _).
  destruct (Hag pr Hcp) as (rec & Hrec & _ & _ & Hagrees). by exists rec.
Qed.

Lemma tracked_player_has_agreeing_record_witness :
  ∃ rec,
    players (AnalyticsManager.update_player_data 7 [entry "Ann" 40]
               empty_analytics empty_db).2 !! "Ann" = Some rec
    ∧ r_name rec = "Ann" ∧ r_ping rec = 40.
Proof.
  destruct (tracked_player_has_agreeing_record 7 [entry "Ann" 40]
              empty_analytics empty_db "Ann"
              (Presence 7 40 [] "civilian" "civilian") ltac:(by vm_compute))
    as (rec & Hrec & Hname & Hping & _).
  exists rec. by repeat split.
Defined.


Section TickInvariants.
Import AnalyticsManager DatabaseManager NotificationManager MotionlifeBot.

Local Instance record_grows_reflexive : Reflexive record_grows.
Proof. intros o. apply record_grows_refl. Qed.

Local Instance record_grows_transitive : Transitive record_grows.
Proof. intros o1 o2 o3. apply record_grows_trans. Qed.

Lemma players_log_event_grows t ty n dt d p :
  record_grows (players d !! p) (players (log_event t ty n dt d) !! p).
Proof.
  destruct ty; [|done]. destruct (decide (n = p)) as [->|Hne].
  - rewrite players_log_join_eq. apply record_grows_bump.
  - by rewrite players_log_event_ne by done.
Qed.

Lemma check_player_changes_grows now r n d p :
  record_grows (players d !! p)
    (players (check_player_changes now r n d).2 !! p).
Proof.
  unfold check_player_changes. cbn [snd].
  etrans; [|apply (foldl_rel record_grows (λ d0 : db, players d0 !! p))].
  - apply (foldl_rel record_grows (λ d0 : db, players d0 !! p)).
    intros d0 x. unfold _handle_player_join.
    destruct (list_find _ r) as [[? ?]|]; [|done].
    apply players_log_event_grows.
  - intros d0 x. unfold _handle_player_leave. apply players_log_event_grows.
Qed.

Lemma players_log_ping_data now sp a d :
  players (AnalyticsManager.log_ping_data now sp a d) = players d.
Proof. unfold AnalyticsManager.log_ping_data. by destruct (player_pings a). Qed.

(** No poll tick removes or shrinks a stored record. *)
Lemma update_server_status_grows now server_data b p :
  record_grows (players (db_manager b) !! p)
    (players (db_manager (update_server_status now server_data b)) !! p).
Proof.
  destruct (is_offline server_data) eqn:Hoff.
  { by rewrite update_server_status_offline by done. }
  destruct server_data as [sd|]; [|done].
  assert (online sd = true) as Hon by (simpl in Hoff; by destruct (online sd)).
  destruct (decide (snap_players sd = [])) as [Hr|Hr].
  { by rewrite update_server_status_empty by done. }
  rewrite update_server_status_roster by done. cbn [db_manager].
  etrans; [|apply check_player_changes_grows].
  rewrite players_log_ping_data.
  apply (update_player_data_facts now (snap_players sd) (analytics_manager b)
           (db_manager b) p).
Qed.

Lemma update_server_status_prefix now server_data b :
  event_logs (db_manager b)
  `prefix_of` event_logs (db_manager (update_server_status now server_data b))
  ∧ ∃ k, ping_logs (db_manager (update_server_status now server_data b))
         = ping_logs (db_manager b) ++ k ∧ (length k ≤ 1)%nat.
Proof.
  destruct (is_offline server_data) eqn:Hoff.
  { rewrite update_server_status_offline by done. cbn [db_manager].
    split; [done|]. exists []. rewrite app_nil_r. split; [done|simpl; lia]. }
  destruct server_data as [sd|]; [|done].
  assert (online sd = true) as Hon by (simpl in Hoff; by destruct (online sd)).
  destruct (decide (snap_players sd = [])) as [Hr|Hr].
  { rewrite update_server_status_empty by done. cbn [db_manager].
    split; [done|]. exists []. rewrite app_nil_r. split; [done|simpl; lia]. }
  rewrite update_server_status_roster by done. cbn [db_manager]. split.
  - destruct (check_player_changes_extends now (snap_players sd)
                (notification_manager b)
                (AnalyticsManager.log_ping_data now (snap_ping sd)
                   (update_player_data now (snap_players sd)
                      (analytics_manager b) (db_manager b)).1
                   (update_player_data now (snap_players sd)
                      (analytics_manager b) (db_manager b)).2)) as [k ->].
    rewrite log_ping_data_event_logs.
    etrans; [apply event_logs_update_player_data_prefix|].
    by apply prefix_app_r.
  - rewrite check_player_changes_ping_logs.
    destruct (log_ping_data_sample now (snap_ping sd)
                (update_player_data now (snap_players sd)
                   (analytics_manager b) (db_manager b)).1
                (update_player_data now (snap_players sd)
                   (analytics_manager b) (db_manager b)).2) as (s & -> & _).
    rewrite update_player_data_ping_logs. exists [s]. split; [done|simpl; lia].
Qed.

Lemma offline_players_after_reap now a d :
  offline_players now (clean_offline_players now a d).1 = [].
Proof.
  apply elem_of_nil_inv. intros p Hp.
  apply elem_of_offline_players in Hp as (pr & Hcp & Hstale).
  pose proof (clean_offline_players_view now a d p) as Hview.
  rewrite (surjective_pairing (clean_offline_players now a d)),
    !view_of_eq in Hview.
  destruct (decide (p ∈ offline_players now a)) as [Hin|Hout].
  - unfold reap_view in Hview. injection Hview as Hcp' _ _ _. congruence.
  - injection Hview as Hcp' _ _ _. apply Hout.
    apply elem_of_offline_players. exists pr. by rewrite <- Hcp'.
Qed.

End TickInvariants.

(** X3.  When the roster lists exactly the tracked players, the
    reconciler logs no event and keeps every session start: events are
    written on changes of presence only. *)
Theorem unchanged_roster_logs_nothing (now : Z) (r : list roster_entry)
    (a : analytics) (d : db) :
  (∀ p, is_Some (current_players a !! p) ↔ listed p r = true) →
  let st := AnalyticsManager.update_player_data now r a d in
  event_logs st.2 = event_logs d
  ∧ session_start_times st.1 = session_start_times a
  ∧ dom (current_players st.1) = dom (current_players a).
Proof.
  intros Hsame st.
  assert (∀ p, is_Some (current_players st.1 !! p)
               ↔ is_Some (current_players a !! p)) as Hdom.
  { intros p. subst st. rewrite update_player_data_tracked, Hsame.
    unfold listed. by rewrite bool_decide_eq_true. }
  assert (∀ p, session_start_times st.1 !! p = session_start_times a !! p
               ∧ events_of p (event_logs st.2) = events_of p (event_logs d))
    as Hp.
  { intros p.
    destruct (update_player_data_facts now r a d p) as (_ & _ & _ & Hkeep & Hout).
    fold st in Hkeep, Hout.
    destruct (current_players a !! p) as [pr|] eqn:Hcp.
    - apply Hkeep; [by eexists|]. apply Hdom. by eexists.
    - destruct (Hout eq_refl) as (? & _ & ?); [|done].
      destruct (current_players st.1 !! p) eqn:Hcp'; [|done].
      assert (is_Some (current_players a !! p)) as [? ?]
        by (apply Hdom; by eexists). congruence. }
  split; [|split].
  - destruct (event_logs_update_player_data_prefix now r a d) as [k Hk].
    fold st in Hk. rewrite Hk. assert (k = []) as ->; [|by rewrite app_nil_r].
    apply elem_of_nil_inv. intros e He.
    destruct (Hp (player_name e)) as [_ Hev]. rewrite Hk, events_of_app in Hev.
    assert (events_of (player_name e) k = []) as Hnil.
    { apply (app_inv_head (events_of (player_name e) (event_logs d))).
      by rewrite app_nil_r. }
    assert (e ∈ events_of (player_name e) k) as Hin
      by (by apply list_elem_of_filter).
    rewrite Hnil in Hin. by apply elem_of_nil in Hin.
  - apply map_eq. intros p. apply Hp.
  - apply set_eq. intros p. rewrite !elem_of_dom. apply Hdom.
Qed.

Lemma unchanged_roster_logs_nothing_witness :
  event_logs
    (AnalyticsManager.update_player_data (timedelta_seconds 30)
       [entry "Ann" 41] steady_run.1 steady_run.2).2
  = event_logs steady_run.2.
Proof.
  apply (unchanged_roster_logs_nothing (timedelta_seconds 30) [entry "Ann" 41]
           steady_run.1 steady_run.2).
  intros p. destruct (decide (p = "Ann")) as [->|Hne].
  - split; [intros _; by vm_compute|]. intros _. vm_compute. by eexists.
  - assert (steady_run.1 = Analytics
              {[ "Ann" := Presence (timedelta_seconds 60) 40 [] "civilian" "civilian" ]}
              {[ "Ann" := 0 ]}) as -> by (by vm_compute).
    cbn [current_players]. rewrite lookup_singleton_ne by done.
    split; [by intros [? ?]|]. unfold listed. rewrite bool_decide_eq_true.
    intros [Hin _]. apply list_elem_of_singleton in Hin. simpl in Hin. done.
Defined.

(** X4.  A poll tick never rewrites the logs: the event log after the
    tick extends the one before, and the ping log after the tick is the
    one before with at most one sample appended.  The same holds for the
    hourly task outside the midnight hour, which appends events only. *)
Theorem poll_tick_only_appends (now : Z) (server_data : option snapshot)
    (current_hour : Z) (b : bot) :
  (event_logs (db_manager b)
   `prefix_of`
   event_logs (db_manager (MotionlifeBot.update_server_status now server_data b))
   ∧ ∃ k, ping_logs (db_manager (MotionlifeBot.update_server_status now server_data b))
          = ping_logs (db_manager b) ++ k ∧ (length k ≤ 1)%nat)
  ∧ (current_hour ≠ 0 →
     event_logs (db_manager b)
     `prefix_of` event_logs (db_manager (MotionlifeBot.cleanup_task now current_hour b))
     ∧ ping_logs (db_manager (MotionlifeBot.cleanup_task now current_hour b))
       = ping_logs (db_manager b)).
Proof.
  split; [apply update_server_status_prefix|].
  intros Hhour. unfold MotionlifeBot.cleanup_task.
  pose proof (event_logs_clean_offline_players_prefix now (analytics_manager b)
                (db_manager b)) as Hev.
  pose proof (ping_logs_clean_offline_players now (analytics_manager b)
                (db_manager b)) as Hpg.
  destruct (AnalyticsManager.clean_offline_players now (analytics_manager b)
              (db_manager b)) as [a1 d1].
  cbn [db_manager snd] in *.
  by rewrite (proj2 (Z.eqb_neq current_hour 0) Hhour).
Qed.

Lemma poll_tick_only_appends_witness :
  ping_logs (db_manager (MotionlifeBot.cleanup_task 0 5 three_online_bot))
  = ping_logs (db_manager three_online_bot).
Proof.
  apply (poll_tick_only_appends 0 None 5 three_online_bot). discriminate.
Defined.

(** X5.  No poll tick removes a stored player record or lowers its
    playtime or session count, and none changes the first sighting or
    the status of an existing record. *)
Theorem poll_tick_keeps_records (now : Z) (server_data : option snapshot)
    (b : bot) (p : string) (rec : player_record) :
  players (db_manager b) !! p = Some rec →
  ∃ rec',
    players (db_manager (MotionlifeBot.update_server_status now server_data b)) !! p
    = Some rec'
    ∧ playtime rec <= playtime rec' ∧ totalSessions rec <= totalSessions rec'
    ∧ firstSeen rec' = firstSeen rec ∧ r_status rec' = r_status rec.
Proof.
  intros Hrec.
  pose proof (update_server_status_grows now server_data b p) as Hgr.
  by rewrite Hrec in Hgr.
Qed.

Lemma poll_tick_keeps_records_witness :
  ∃ rec',
    players (db_manager rejoin_bot_2) !! "Ann" = Some rec'
    ∧ 0 <= playtime rec' ∧ firstSeen rec' = 0.
Proof.
  destruct rejoin_bot_1_Ann as (_ & _ & Hrec).
  destruct (poll_tick_keeps_records (timedelta_seconds 30)
              (Some (online_snapshot [entry "Bob" 50])) rejoin_bot_1 "Ann" _ Hrec)
    as (rec' & Hrec' & Hplay & _ & Hfirst & _).
  exists rec'. by repeat split.
Defined.

(** X6.  The reaper never touches the player records or the ping log
    (a timed-out session flushes no remainder into the playtime), and a
    second run at the same time finds nothing left to reap and changes
    nothing. *)
Theorem reaper_is_idempotent (now : Z) (a : analytics) (d : db) :
  let st := AnalyticsManager.clean_offline_players now a d in
  players st.2 = players d
  ∧ ping_logs st.2 = ping_logs d
  ∧ AnalyticsManager.clean_offline_players now st.1 st.2 = st.
Proof.
  intros st. split; [apply players_clean_offline_players|].
  split; [apply ping_logs_clean_offline_players|].
  unfold AnalyticsManager.clean_offline_players at 1. subst st.
  rewrite offline_players_after_reap. cbn [foldl].
  by rewrite <- surjective_pairing.
Qed.

(** ** Retention *)

Section Retention.
Import MotionlifeBot.

Lemma filter_filter_same {A} (P : A → Prop) `{∀ x, Decision (P x)} (l : list A) :
  filter P (filter P l) = filter P l.
Proof.
  induction l as [|x l IH]; [done|]. destruct (decide (P x)).
  - rewrite (filter_cons_True P x l) by done.
    rewrite filter_cons_True by done. by rewrite IH.
  - by rewrite (filter_cons_False P x l) by done.
Qed.

Lemma cleanup_old_data_lookup now d p :
  players (cleanup_old_data now d) !! p
  = (λ r, if lastSeen r <? now - timedelta_days 30 then
            PlayerRecord (r_name r) (r_identifiers r) (firstSeen r) (lastSeen r)
              (playtime r) (totalSessions r) (r_ping r) (r_job r) (r_role r)
              (Some "inactive")
          else r) <$> players d !! p.
Proof. unfold cleanup_old_data. cbn [players]. by rewrite lookup_fmap. Qed.

End Retention.

(** X7.  The daily cleanup keeps exactly the events of the last 90 days
    and the ping samples of the last 30 days: the new logs are the old
    ones with the older entries removed, every other entry kept as often
    as it occurred and in its place.  It deletes no player record and
    leaves every field of a record but the status alone; a record last
    seen more than 30 days ago gets the status "inactive", any other
    keeps its status.  Running it again at the same time changes
    nothing. *)
Theorem cleanup_old_data_retention (now : Z) (d : db) :
  let d' := MotionlifeBot.cleanup_old_data now d in
  event_logs d'
  = filter (λ e, now - timedelta_days 90 <= timestamp e) (event_logs d)
  ∧ ping_logs d'
    = filter (λ s, now - timedelta_days 30 <= ps_timestamp s) (ping_logs d)
  ∧ (∀ e, e ∈ event_logs d' ↔ e ∈ event_logs d ∧ now - timedelta_days 90 <= timestamp e)
  ∧ event_logs d' `sublist_of` event_logs d
  ∧ (∀ s, s ∈ ping_logs d' ↔ s ∈ ping_logs d ∧ now - timedelta_days 30 <= ps_timestamp s)
  ∧ ping_logs d' `sublist_of` ping_logs d
  ∧ dom (players d') = dom (players d)
  ∧ (∀ p rec, players d !! p = Some rec →
       ∃ rec', players d' !! p = Some rec'
               ∧ r_name rec' = r_name rec
               ∧ r_identifiers rec' = r_identifiers rec
               ∧ firstSeen rec' = firstSeen rec ∧ lastSeen rec' = lastSeen rec
               ∧ playtime rec' = playtime rec
               ∧ totalSessions rec' = totalSessions rec
               ∧ r_ping rec' = r_ping rec
               ∧ r_job rec' = r_job rec ∧ r_role rec' = r_role rec
               ∧ r_status rec'
                 = if lastSeen rec <? now - timedelta_days 30
                   then Some "inactive" else r_status rec)
  ∧ MotionlifeBot.cleanup_old_data now d' = d'.
Proof.
  intros d'. subst d'.
  split; [|split; [|split; [|split; [|split; [|split; [|split; [|split]]]]]]].
  - unfold MotionlifeBot.cleanup_old_data. cbn [event_logs].
    apply list_filter_iff. intros e. lia.
  - unfold MotionlifeBot.cleanup_old_data. cbn [ping_logs].
    apply list_filter_iff. intros e. lia.
  - intros e. unfold MotionlifeBot.cleanup_old_data. cbn [event_logs].
    rewrite list_elem_of_filter. split; intros [? ?]; split; try done; lia.
  - apply sublist_filter.
  - intros e. unfold MotionlifeBot.cleanup_old_data. cbn [ping_logs].
    rewrite list_elem_of_filter. split; intros [? ?]; split; try done; lia.
  - apply sublist_filter.
  - unfold MotionlifeBot.cleanup_old_data. cbn [players]. apply dom_fmap_L.
  - intros p rec Hrec. rewrite cleanup_old_data_lookup, Hrec. cbn.
    eexists. split; [reflexivity|].
    by destruct (lastSeen rec <? now - timedelta_days 30).
  - unfold MotionlifeBot.cleanup_old_data. cbn [players event_logs ping_logs].
    rewrite !filter_filter_same. f_equal.
    rewrite <- map_fmap_compose. apply map_fmap_ext. intros p r _. cbn.
    destruct (lastSeen r <? now - timedelta_days 30) eqn:Hold; cbn;
      by rewrite Hold.
Qed.

(** X8.  The inactive flag is sticky: once the midnight cleanup has
    flagged a record last seen more than 30 days ago, a later poll tick
    leaves the status "inactive" even when its roster lists the player
    again. *)
Theorem inactive_flag_survives_return (now now' : Z) (b : bot)
    (server_data : option snapshot) (p : string) (rec : player_record) :
  players (db_manager b) !! p = Some rec →
  lastSeen rec < now - timedelta_days 30 →
  let b1 := MotionlifeBot.cleanup_task now 0 b in
  let b2 := MotionlifeBot.update_server_status now' server_data b1 in
  (∃ r1, players (db_manager b1) !! p = Some r1 ∧ r_status r1 = Some "inactive")
  ∧ (∃ r2, players (db_manager b2) !! p = Some r2 ∧ r_status r2 = Some "inactive").
Proof.
  intros Hrec Hold b1 b2.
  assert (∃ r1, players (db_manager b1) !! p = Some r1
                ∧ r_status r1 = Some "inactive") as (r1 & Hr1 & Hs1).
  { subst b1. unfold MotionlifeBot.cleanup_task.
    pose proof (players_clean_offline_players now (analytics_manager b)
                  (db_manager b)) as Hpl.
    destruct (AnalyticsManager.clean_offline_players now (analytics_manager b)
                (db_manager b)) as [a1 d1].
    cbn [db_manager snd] in *. change (0 =? 0) with true. cbv iota.
    rewrite cleanup_old_data_lookup, Hpl, Hrec. cbn.
    eexists. split; [reflexivity|].
    by rewrite (proj2 (Z.ltb_lt _ _) Hold). }
  split; [by exists r1|].
  pose proof (update_server_status_grows now' server_data b1 p) as Hgr.
  fold b2 in Hgr. rewrite Hr1 in Hgr.
  destruct Hgr as (r2 & Hr2 & _ & _ & _ & Hs2).
  exists r2. split; [done|]. congruence.
Qed.

Lemma inactive_flag_survives_return_witness :
  ∃ r2,
    players
      (db_manager
         (MotionlifeBot.update_server_status (timedelta_days 41)
            (Some (online_snapshot [entry "Ann" 40]))
            (MotionlifeBot.cleanup_task (timedelta_days 40) 0 rejoin_bot_2)))
    !! "Ann" = Some r2
    ∧ r_status r2 = Some "inactive".
Proof.
  assert (players (db_manager rejoin_bot_2) !! "Ann"
          = Some (PlayerRecord "Ann" [] 0 0 0 1 40 "civilian" "civilian" None))
    as Hrec by (by vm_compute).
  apply (inactive_flag_survives_return (timedelta_days 40) (timedelta_days 41)
           rejoin_bot_2 (Some (online_snapshot [entry "Ann" 40])) "Ann" _ Hrec).
  by vm_compute.
Defined.

(** ** The notification diff *)

Section Notifications.
Import DatabaseManager NotificationManager.

Lemma stamp_join_fold_lookup now l (times : gmap string Z) p :
  foldl (stamp_join now) times l !! p
  = match times !! p with
    | Some t => Some t
    | None => if decide (p ∈ l) then Some now else None
    end.
Proof.
  revert times. induction l as [|x l IH]; intros times.
  - simpl. by destruct (times !! p).
  - cbn [foldl]. rewrite IH. unfold stamp_join.
    destruct (decide (x = p)) as [->|Hne].
    + destruct (times !! p) as [t|] eqn:Ht.
      * by rewrite Ht.
      * rewrite lookup_insert_eq. rewrite decide_True by apply list_elem_of_here.
        done.
    + destruct (times !! x) as [tx|] eqn:Hx.
      * destruct (times !! p); [done|].
        destruct (decide (p ∈ l)).
        -- by rewrite decide_True by by apply list_elem_of_further.
        -- rewrite decide_False; [done|]. rewrite elem_of_cons. naive_solver.
      * rewrite lookup_insert_ne by done.
        destruct (times !! p); [done|].
        destruct (decide (p ∈ l)).
        -- by rewrite decide_True by by apply list_elem_of_further.
        -- rewrite decide_False; [done|]. rewrite elem_of_cons. naive_solver.
Qed.

Lemma delete_fold_lookup l (times : gmap string Z) p :
  foldl (λ t q, delete q t) times l !! p
  = if decide (p ∈ l) then None else times !! p.
Proof.
  revert times. induction l as [|x l IH]; intros times; [done|].
  cbn [foldl]. rewrite IH. destruct (decide (x = p)) as [->|Hne].
  - rewrite lookup_delete_eq. rewrite (decide_True (P := p ∈ p :: l))
      by apply list_elem_of_here. by destruct (decide (p ∈ l)).
  - rewrite lookup_delete_ne by done. destruct (decide (p ∈ l)).
    + by rewrite decide_True by by apply list_elem_of_further.
    + rewrite decide_False; [done|]. rewrite elem_of_cons. naive_solver.
Qed.

Lemma foldl_length_events {B} (f : db → B → db) l :
  (∀ d x, x ∈ l → length (event_logs (f d x)) = S (length (event_logs d))) →
  ∀ d, length (event_logs (foldl f d l)) = (length (event_logs d) + length l)%nat.
Proof.
  induction l as [|x l IH]; intros Hstep d; [simpl; lia|].
  cbn [foldl]. rewrite IH.
  - rewrite Hstep by apply list_elem_of_here. simpl. lia.
  - intros d0 y Hy. apply Hstep. by apply list_elem_of_further.
Qed.

Lemma elem_of_elements_names (X : gset string) (p : string) :
  p ∈ elements X ↔ p ∈ X.
Proof. apply elem_of_elements. Qed.

Lemma elem_of_current_players (r : list roster_entry) p :
  p ∈ (list_to_set (filter (λ s, s ≠ "") (name <$> r)) : gset string)
  ↔ p ∈ name <$> r ∧ p ≠ "".
Proof. rewrite elem_of_list_to_set, list_elem_of_filter. tauto. Qed.

End Notifications.

(** X9.  After the notification diff the remembered set is exactly the
    set of non-empty names of the roster, and the call logs exactly one
    event per player who joined or left that set.  If the join times
    were recorded for exactly the remembered players before, they are
    so after, with the join time of every player who stays unchanged.
    A second call with the same roster logs nothing. *)
Theorem check_player_changes_tracks_roster (now now' : Z)
    (r : list roster_entry) (n : notifications) (d d'' : db) :
  let nd := NotificationManager.check_player_changes now r n d in
  (∀ p, p ∈ previous_players nd.1 ↔ p ∈ name <$> r ∧ p ≠ "")
  ∧ length (event_logs nd.2)
    = (length (event_logs d)
       + size (previous_players nd.1 ∖ previous_players n)
       + size (previous_players n ∖ previous_players nd.1))%nat
  ∧ (dom (player_join_times n) = previous_players n →
     dom (player_join_times nd.1) = previous_players nd.1
     ∧ ∀ p, p ∈ previous_players n → p ∈ previous_players nd.1 →
            player_join_times nd.1 !! p = player_join_times n !! p)
  ∧ (NotificationManager.check_player_changes now' r nd.1 d'').2 = d''.
Proof.
  intros nd.
  set (current := (list_to_set (filter (λ s, s ≠ "") (name <$> r)) : gset string)).
  assert (previous_players nd.1 = current) as Hprev by reflexivity.
  rewrite Hprev. split; [apply elem_of_current_players|]. split; [|split].
  - subst nd. unfold NotificationManager.check_player_changes. cbn [snd]. fold current.
    rewrite foldl_length_events.
    2:{ intros d0 x _. unfold NotificationManager._handle_player_leave.
        rewrite event_logs_log_event, length_app. simpl. lia. }
    rewrite foldl_length_events; [done|].
    intros d0 x Hx. apply elem_of_elements_names, elem_of_difference in Hx as [Hx _].
    apply elem_of_current_players in Hx as [Hx _].
    apply list_elem_of_fmap in Hx as (e & -> & He).
    unfold NotificationManager._handle_player_join.
    destruct (list_find_elem_of (λ q, name q = name e) r e He eq_refl)
      as [[i e'] ->].
    rewrite event_logs_log_event, length_app. simpl. lia.
  - intros Hdom.
    assert (∀ p, player_join_times nd.1 !! p
                 = if decide (p ∈ previous_players n ∖ current) then None
                   else match player_join_times n !! p with
                        | Some t => Some t
                        | None => if decide (p ∈ current) then Some now else None
                        end) as Hlook.
    { intros p. subst nd. unfold NotificationManager.check_player_changes.
      cbn [fst player_join_times]. fold current.
      rewrite delete_fold_lookup, stamp_join_fold_lookup.
      destruct (decide (p ∈ elements (previous_players n ∖ current)))
        as [Hin|Hout].
      - by rewrite (decide_True (P := p ∈ previous_players n ∖ current))
          by by apply elem_of_elements_names.
      - rewrite (decide_False (P := p ∈ previous_players n ∖ current))
          by (intros H; apply Hout; by apply elem_of_elements_names).
        destruct (player_join_times n !! p); [done|].
        destruct (decide (p ∈ elements current)) as [Hc|Hc].
        + by rewrite (decide_True (P := p ∈ current))
            by by apply elem_of_elements_names.
        + by rewrite (decide_False (P := p ∈ current))
            by (intros H; apply Hc; by apply elem_of_elements_names). }
    split.
    + apply set_eq. intros p. rewrite elem_of_dom, Hlook.
      assert (p ∈ previous_players n ↔ is_Some (player_join_times n !! p))
        as Hp by (by rewrite <- Hdom, elem_of_dom).
      destruct (decide (p ∈ previous_players n ∖ current)) as [Hin|Hout].
      * split; [by intros [? ?]|]. set_solver.
      * destruct (player_join_times n !! p) as [t|] eqn:Ht.
        -- split; [intros _|by eexists].
           assert (p ∈ previous_players n) by (apply Hp; by eexists).
           set_solver.
        -- destruct (decide (p ∈ current)); [by split; [|eexists]|].
           split; [by intros [? ?]|done].
    + intros p Hold Hnew. rewrite Hlook.
      rewrite decide_False by set_solver.
      assert (is_Some (player_join_times n !! p)) as [t ->]; [|done].
      by rewrite <- elem_of_dom, Hdom.
  - subst nd. unfold NotificationManager.check_player_changes at 1.
    cbn [snd]. fold current. rewrite !Hprev.
    assert (current ∖ current = ∅) as -> by set_solver.
    by rewrite elements_empty.
Qed.

Lemma check_player_changes_tracks_roster_witness :
  dom (player_join_times (notification_manager rejoin_bot_2))
  = previous_players (notification_manager rejoin_bot_2).
Proof.
  pose proof (check_player_changes_tracks_roster (timedelta_seconds 30) 0
                [entry "Bob" 50] (notification_manager rejoin_bot_1)
                (AnalyticsManager.log_ping_data (timedelta_seconds 30) (25 # 1)
                   (AnalyticsManager.update_player_data (timedelta_seconds 30)
                      [entry "Bob" 50] (analytics_manager rejoin_bot_1)
                      (db_manager rejoin_bot_1)).1
                   (AnalyticsManager.update_player_data (timedelta_seconds 30)
                      [entry "Bob" 50] (analytics_manager rejoin_bot_1)
                      (db_manager rejoin_bot_1)).2)
                empty_db) as (_ & _ & Hinv & _).
  apply Hinv. by vm_compute.
Defined.

(** ** Sorted and limited queries *)

Section TopK.
Context {A : Type} (key : A → Z).

Lemma insert_desc_by_perm e l : insert_desc_by key e l ≡ₚ e :: l.
Proof.
  induction l as [|x l IH]; [done|]. simpl.
  destruct (key x <=? key e); [done|]. rewrite IH. apply Permutation_swap.
Qed.

Lemma sort_desc_by_perm l : sort_desc_by key l ≡ₚ l.
Proof.
  induction l as [|x l IH]; [done|]. cbn [sort_desc_by foldr].
  rewrite insert_desc_by_perm. by f_equiv.
Qed.

Lemma insert_desc_by_sorted e l :
  StronglySorted (λ x y, key y <= key x) l →
  StronglySorted (λ x y, key y <= key x) (insert_desc_by key e l).
Proof.
  induction 1 as [|x l Hl IH Hx]; simpl.
  - repeat constructor.
  - destruct (Z.leb_spec (key x) (key e)) as [Hle|Hgt].
    + constructor; [by constructor|]. constructor; [done|].
      eapply Forall_impl; [exact Hx|]. simpl. intros y Hy. lia.
    + constructor; [done|]. rewrite insert_desc_by_perm.
      constructor; [lia|done].
Qed.

Lemma sort_desc_by_sorted l :
  StronglySorted (λ x y, key y <= key x) (sort_desc_by key l).
Proof.
  induction l as [|x l IH]; [constructor|].
  cbn [sort_desc_by foldr]. by apply insert_desc_by_sorted.
Qed.

(** The first [limit] elements of the descending sort: sorted, as many as
    asked for if there are that many, and no element left out has a
    larger key than one that is returned. *)
Lemma take_sort_desc_by_spec limit l :
  let res := take limit (sort_desc_by key l) in
  StronglySorted (λ x y, key y <= key x) res
  ∧ length res = Nat.min limit (length l)
  ∧ ∃ rest, res ++ rest ≡ₚ l
            ∧ ∀ x y, x ∈ res → y ∈ rest → key y <= key x.
Proof.
  intros res. pose proof (sort_desc_by_sorted l) as Hsorted.
  rewrite <- (take_drop limit (sort_desc_by key l)) in Hsorted. fold res in Hsorted.
  split; [by eapply StronglySorted_app_1_l|]. split.
  - subst res. by rewrite length_take, (Permutation_length (sort_desc_by_perm l)).
  - exists (drop limit (sort_desc_by key l)). split.
    + subst res. rewrite take_drop. apply sort_desc_by_perm.
    + intros x y Hx Hy.
      exact (StronglySorted_app_1_elem_of _ _ _ x y Hsorted Hx Hy).
Qed.

End TopK.

Lemma insert_desc_as_by e l :
  DatabaseManager.insert_desc e l = insert_desc_by timestamp e l.
Proof. induction l as [|x l IH]; [done|]. simpl. by rewrite IH. Qed.

Lemma sort_desc_as_by l : DatabaseManager.sort_desc l = sort_desc_by timestamp l.
Proof.
  induction l as [|x l IH]; [done|].
  cbn [DatabaseManager.sort_desc sort_desc_by foldr].
  fold (DatabaseManager.sort_desc l). fold (sort_desc_by timestamp l).
  by rewrite insert_desc_as_by, IH.
Qed.

Lemma elem_of_all_players d r :
  r ∈ DatabaseQueries.all_players d ↔ ∃ n, players d !! n = Some r.
Proof.
  unfold DatabaseQueries.all_players. rewrite list_elem_of_fmap. split.
  - intros ([n r'] & -> & Hin). exists n. by apply elem_of_map_to_list.
  - intros [n Hn]. exists (n, r). split; [done|]. by apply elem_of_map_to_list.
Qed.

(** X10.  For a limit of at least one, [get_recent_events] returns events
    of the log newest first, as many as the limit allows, and no event
    it leaves out is more recent than one it returns.
    [get_player_events] does the same within the events of one player:
    newest first, as many of the player's events as the limit allows,
    none left out more recent than one returned. *)
Theorem recent_events_are_the_newest (limit : nat) (d : db) (p : string) :
  (0 < limit)%nat →
  (let res := DatabaseManager.get_recent_events limit d in
   StronglySorted (λ x y, timestamp y <= timestamp x) res
   ∧ length res = Nat.min limit (length (event_logs d))
   ∧ ∃ rest, res ++ rest ≡ₚ event_logs d
             ∧ ∀ x y, x ∈ res → y ∈ rest → timestamp y <= timestamp x)
  ∧ (let res := DatabaseQueries.get_player_events p limit d in
     StronglySorted (λ x y, timestamp y <= timestamp x) res
     ∧ length res = Nat.min limit (length (events_of p (event_logs d)))
     ∧ (∀ x, x ∈ res → player_name x = p ∧ x ∈ event_logs d)
     ∧ ∃ rest, res ++ rest ≡ₚ events_of p (event_logs d)
               ∧ ∀ x y, x ∈ res → y ∈ rest → timestamp y <= timestamp x).
Proof.
  intros _. split.
  - unfold DatabaseManager.get_recent_events. rewrite sort_desc_as_by.
    apply take_sort_desc_by_spec.
  - unfold DatabaseQueries.get_player_events.
    destruct (take_sort_desc_by_spec timestamp limit (events_of p (event_logs d)))
      as (Hsorted & Hlen & rest & Hperm & Htop).
    split; [done|]. split; [done|]. split; [|by exists rest].
    intros x Hx.
    assert (x ∈ events_of p (event_logs d)) as Hin.
    { rewrite <- Hperm. apply elem_of_app. by left. }
    by apply list_elem_of_filter in Hin.
Qed.

Lemma recent_events_are_the_newest_witness :
  length (DatabaseManager.get_recent_events 2 (db_manager rejoin_bot_3))
  = Nat.min 2 (length (event_logs (db_manager rejoin_bot_3)))
  ∧ length (DatabaseQueries.get_player_events "Ann" 2 (db_manager rejoin_bot_3))
    = Nat.min 2 (length (events_of "Ann" (event_logs (db_manager rejoin_bot_3)))).
Proof.
  destruct (recent_events_are_the_newest 2 (db_manager rejoin_bot_3) "Ann")
    as [(_ & Hall & _) (_ & Hown & _)]; [lia|].
  split; [exact Hall|exact Hown].
Defined.

(** X11.  For a limit of at least one, [get_players_by_playtime] returns
    stored records with positive playtime, longest playtime first, as
    many as the limit allows; a stored record with positive playtime
    that is left out has no more playtime than any record returned. *)
Theorem players_by_playtime_are_the_top (limit : nat) (d : db) :
  (0 < limit)%nat →
  let res := DatabaseQueries.get_players_by_playtime limit d in
  StronglySorted (λ x y, playtime y <= playtime x) res
  ∧ (length res ≤ limit)%nat
  ∧ (∀ x, x ∈ res → 0 < playtime x ∧ ∃ n, players d !! n = Some x)
  ∧ (∀ n r, players d !! n = Some r → 0 < playtime r → r ∉ res →
       length res = limit ∧ ∀ x, x ∈ res → playtime r <= playtime x).
Proof.
  intros _ res. subst res. unfold DatabaseQueries.get_players_by_playtime.
  set (l := filter (λ r, 0 < playtime r) (DatabaseQueries.all_players d)).
  destruct (take_sort_desc_by_spec playtime limit l)
    as (Hsorted & Hlen & rest & Hperm & Htop).
  split; [done|]. split; [lia|]. split.
  - intros x Hx. assert (x ∈ l) as Hin.
    { rewrite <- Hperm. apply elem_of_app. by left. }
    subst l. apply list_elem_of_filter in Hin as [Hpos Hin].
    split; [done|]. by apply elem_of_all_players.
  - intros n r Hr Hpos Hout. assert (r ∈ l) as Hin.
    { subst l. apply list_elem_of_filter. split; [done|].
      apply elem_of_all_players. by exists n. }
    rewrite <- Hperm in Hin. apply elem_of_app in Hin as [Hin|Hin]; [done|].
    split; [|intros x Hx; by apply Htop].
    pose proof (Permutation_length Hperm) as Hlens. rewrite length_app in Hlens.
    assert (0 < length rest)%nat by (destruct rest; [by apply elem_of_nil in Hin|simpl; lia]).
    lia.
Qed.

Lemma players_by_playtime_are_the_top_witness :
  (length (DatabaseQueries.get_players_by_playtime 1 (db_manager rejoin_bot_3)) ≤ 1)%nat.
Proof.
  apply (players_by_playtime_are_the_top 1 (db_manager rejoin_bot_3)). lia.
Defined.

(** ** Bounds on the replayed peak *)

Section PeakBounds.

Lemma insert_asc_perm e l : AnalyticsManager.insert_asc e l ≡ₚ e :: l.
Proof.
  induction l as [|x l IH]; [done|]. simpl.
  destruct (timestamp e <=? timestamp x); [done|]. rewrite IH. apply Permutation_swap.
Qed.

Lemma sort_by_timestamp_perm l : AnalyticsManager.sort_by_timestamp l ≡ₚ l.
Proof.
  induction l as [|x l IH]; [done|]. cbn [AnalyticsManager.sort_by_timestamp foldr].
  rewrite insert_asc_perm. by f_equiv.
Qed.

Lemma joined_cons e l :
  joined (e :: l)
  = (match ev_type e with Join => {[player_name e]} | Leave => ∅ end) ∪ joined l.
Proof.
  unfold joined. rewrite filter_cons. destruct (ev_type e) eqn:Hty.
  - rewrite decide_True by done. by rewrite fmap_cons, list_to_set_cons.
  - rewrite decide_False by done. set_solver.
Qed.

Lemma elem_of_joined p l :
  p ∈ joined l ↔ ∃ e, e ∈ l ∧ ev_type e = Join ∧ player_name e = p.
Proof.
  unfold joined. rewrite elem_of_list_to_set, list_elem_of_fmap. split.
  - intros (e & -> & He). apply list_elem_of_filter in He as [? ?]. by exists e.
  - intros (e & He & Hty & <-). exists e. split; [done|].
    by apply list_elem_of_filter.
Qed.

(** The running set stays within the start set and the joined players,
    and so does the running maximum. *)
Lemma replay_fold_bound evs (s : gset string) (m : nat) :
  let r := foldl AnalyticsManager.replay_step (s, m) evs in
  r.1 ⊆ s ∪ joined evs
  ∧ (r.2 ≤ Nat.max m (size (s ∪ joined evs)))%nat
  ∧ (m ≤ r.2)%nat.
Proof.
  revert s m. induction evs as [|e evs IH]; intros s m; simpl.
  - split; [set_solver|]. split; lia.
  - set (s' := match ev_type e with
               | Join => {[player_name e]} ∪ s
               | Leave => s ∖ {[player_name e]} end).
    change (AnalyticsManager.replay_step (s, m) e) with (s', Nat.max m (size s')).
    destruct (IH s' (Nat.max m (size s'))) as (Hsub & Hmax & Hmono).
    rewrite joined_cons.
    assert (s' ⊆ s ∪ ((match ev_type e with
                       | Join => {[player_name e]} | Leave => ∅ end) ∪ joined evs))
      as Hs' by (subst s'; destruct (ev_type e); set_solver).
    assert (s' ∪ joined evs ⊆ s ∪ ((match ev_type e with
                       | Join => {[player_name e]} | Leave => ∅ end) ∪ joined evs))
      as Hs'' by (subst s'; destruct (ev_type e); set_solver).
    split; [set_solver|]. split; [|lia].
    apply subseteq_size in Hs', Hs''. lia.
Qed.

Lemma replay_fold_positive evs (s : gset string) (m : nat) e :
  e ∈ evs → ev_type e = Join →
  (0 < (foldl AnalyticsManager.replay_step (s, m) evs).2)%nat.
Proof.
  revert s m. induction evs as [|x evs IH]; intros s m Hin Hty.
  - by apply elem_of_nil in Hin.
  - simpl. apply elem_of_cons in Hin as [<-|Hin]; [|by apply IH].
    unfold AnalyticsManager.replay_step at 2. cbn [fst snd]. rewrite Hty.
    cbn match.
    match goal with |- (0 < (foldl _ (?s', ?m') evs).2)%nat =>
      destruct (replay_fold_bound evs s' m') as (_ & _ & Hmono);
      assert (0 < size ({[player_name e]} ∪ s))%nat end.
    { assert (size ({[player_name e]} ∪ s) ≠ 0%nat); [|lia].
      intros Hz. apply size_empty_inv in Hz. set_solver. }
    lia.
Qed.

Lemma replay_bounds evs :
  (AnalyticsManager.replay evs ≤ size (joined evs))%nat
  ∧ ((0 < AnalyticsManager.replay evs)%nat ↔ ∃ e, e ∈ evs ∧ ev_type e = Join).
Proof.
  unfold AnalyticsManager.replay.
  destruct (replay_fold_bound evs ∅ 0%nat) as (_ & Hmax & _).
  rewrite (left_id_L ∅ (∪)) in Hmax. split; [lia|]. split.
  - intros Hpos. destruct (decide (joined evs = ∅)) as [Hempty|Hne].
    + rewrite Hempty, size_empty in Hmax. lia.
    + apply set_choose_L in Hne as [p Hp]. apply elem_of_joined in Hp.
      destruct Hp as (e & ? & ? & _). by exists e.
  - intros (e & Hin & Hty). by eapply replay_fold_positive.
Qed.

Lemma joined_perm l l' : l ≡ₚ l' → joined l = joined l'.
Proof.
  intros Hperm. apply set_eq. intros p. rewrite !elem_of_joined.
  by setoid_rewrite Hperm.
Qed.

Lemma size_list_to_set_le (l : list string) :
  (size (list_to_set (C := gset string) l) ≤ length l)%nat.
Proof.
  induction l as [|x l IH]; [by rewrite list_to_set_nil, size_empty|].
  rewrite list_to_set_cons, size_union_alt, size_singleton, length_cons.
  assert (size (list_to_set (C := gset string) l ∖ {[x]})
          ≤ size (list_to_set (C := gset string) l))%nat
    by (apply subseteq_size; set_solver).
  lia.
Qed.

End PeakBounds.

(** X12.  When the recent window holds at least one event, the reported
    peak is at most the number of distinct players with a join event of
    the stored log in the period, and at most the query limit of 1000;
    it is positive exactly when the window holds a join event. *)
Theorem peak_bounded_by_joined_players (now days : Z) (a : analytics) (d : db) :
  let cutoff := now - timedelta_days days in
  let evs := filter (λ e, cutoff <= timestamp e)
               (DatabaseManager.get_recent_events AnalyticsManager.recent_limit d) in
  let peak := AnalyticsManager._calculate_peak_players now days a d in
  evs ≠ [] →
  (peak ≤ size (joined (filter (λ e, (cutoff <= timestamp e)%Z) (event_logs d))))%nat
  ∧ (peak ≤ 1000)%nat
  ∧ ((0 < peak)%nat ↔ ∃ e, e ∈ evs ∧ ev_type e = Join).
Proof.
  intros cutoff evs peak Hne. subst peak.
  unfold AnalyticsManager._calculate_peak_players. fold cutoff. fold evs.
  destruct evs as [|e0 evs'] eqn:Hevs; [done|]. rewrite <- Hevs. clear Hne.
  destruct (replay_bounds (AnalyticsManager.sort_by_timestamp evs)) as [Hle Hpos].
  rewrite (joined_perm _ _ (sort_by_timestamp_perm evs)) in Hle.
  assert (joined evs ⊆ joined (filter (λ e, cutoff <= timestamp e) (event_logs d)))
    as Hsub.
  { intros p. rewrite !elem_of_joined. intros (e & He & Hty & Hp).
    exists e. split; [|done]. subst evs.
    apply list_elem_of_filter in He as [Hcut He]. apply list_elem_of_filter.
    split; [done|]. unfold DatabaseManager.get_recent_events in He.
    apply (subseteq_take AnalyticsManager.recent_limit) in He.
    by rewrite sort_desc_as_by, sort_desc_by_perm in He. }
  split; [apply subseteq_size in Hsub; lia|]. split.
  - etrans; [exact Hle|]. etrans; [apply size_list_to_set_le|].
    rewrite length_fmap. etrans; [apply length_filter|]. subst evs.
    etrans; [apply length_filter|]. unfold DatabaseManager.get_recent_events.
    rewrite length_take. unfold AnalyticsManager.recent_limit. lia.
  - rewrite Hpos. by setoid_rewrite (sort_by_timestamp_perm evs).
Qed.

Lemma peak_bounded_by_joined_players_witness :
  (AnalyticsManager._calculate_peak_players 0 1 empty_analytics
     (db_manager rejoin_bot_3) ≤ 1000)%nat.
Proof.
  refine (proj1 (proj2 (peak_bounded_by_joined_players 0 1 empty_analytics
                          (db_manager rejoin_bot_3) _))).
  by vm_compute.
Defined.

(** ** Order of ping figures *)

Section PingOrder.

Lemma round_half_even_bounds (x : Q) :
  Qfloor x <= round_half_even x <= Qfloor x + 1.
Proof.
  unfold round_half_even.
  destruct (Qcompare (x - inject_Z (Qfloor x)) (1 # 2)); [|lia..].
  destruct (Z.even (Qfloor x)); lia.
Qed.

Lemma round_half_even_mono (x y : Q) :
  (x <= y)%Q → round_half_even x <= round_half_even y.
Proof.
  intros Hxy. pose proof (Qfloor_resp_le x y Hxy) as Hfl.
  destruct (decide (Qfloor x = Qfloor y)) as [Heq|Hne].
  - unfold round_half_even. rewrite <- Heq. set (f := Qfloor x).
    destruct (Qcompare_spec (x - inject_Z f) (1 # 2)) as [Hx|Hx|Hx];
      destruct (Qcompare_spec (y - inject_Z f) (1 # 2)) as [Hy|Hy|Hy];
      try destruct (Z.even f); try lia; exfalso; lra.
  - pose proof (round_half_even_bounds x). pose proof (round_half_even_bounds y).
    lia.
Qed.

Lemma round1_mono (x y : Q) : (x <= y)%Q → (round1 x <= round1 y)%Q.
Proof.
  intros Hxy. unfold round1.
  assert (round_half_even (x * 10) <= round_half_even (y * 10)) as Hz
    by (apply round_half_even_mono; lra).
  rewrite Zle_Qle in Hz. unfold Qdiv. change (/ 10)%Q with (1 # 10)%Q. lra.
Qed.

Lemma Qsum_fmap_le {A} (f g : A → Q) (l : list A) :
  Forall (λ s, (f s <= g s)%Q) l → (Qsum (f <$> l) <= Qsum (g <$> l))%Q.
Proof.
  induction 1 as [|s l Hs _ IH]; [simpl; lra|].
  rewrite !fmap_cons. cbn [Qsum foldr]. by apply Qplus_le_compat.
Qed.

Lemma Qmean_fmap_le {A} (f g : A → Q) (l : list A) :
  Forall (λ s, (f s <= g s)%Q) l → (Qmean (f <$> l) <= Qmean (g <$> l))%Q.
Proof.
  intros Hl. unfold Qmean. rewrite !length_fmap. unfold Qdiv.
  apply Qmult_le_compat_r; [by apply Qsum_fmap_le|].
  apply Qinv_le_0_compat. change 0%Q with (inject_Z 0). rewrite <- Zle_Qle. lia.
Qed.

Lemma Qsum_lower (m : Q) (l : list Q) :
  (∀ x, x ∈ l → (m <= x)%Q) → (inject_Z (Z.of_nat (length l)) * m <= Qsum l)%Q.
Proof.
  induction l as [|x l IH]; intros Hl.
  - cbn [length Qsum foldr]. change (inject_Z (Z.of_nat 0)) with 0%Q. lra.
  - rewrite length_cons, Nat2Z.inj_succ. unfold Z.succ. rewrite inject_Z_plus.
    cbn [Qsum foldr]. fold (Qsum l).
    assert (m <= x)%Q by (apply Hl, list_elem_of_here).
    assert (inject_Z (Z.of_nat (length l)) * m <= Qsum l)%Q
      by (apply IH; intros y Hy; by apply Hl, list_elem_of_further).
    change (inject_Z 1) with 1%Q. lra.
Qed.

Lemma Qsum_upper (m : Q) (l : list Q) :
  (∀ x, x ∈ l → (x <= m)%Q) → (Qsum l <= inject_Z (Z.of_nat (length l)) * m)%Q.
Proof.
  induction l as [|x l IH]; intros Hl.
  - cbn [length Qsum foldr]. change (inject_Z (Z.of_nat 0)) with 0%Q. lra.
  - rewrite length_cons, Nat2Z.inj_succ. unfold Z.succ. rewrite inject_Z_plus.
    cbn [Qsum foldr]. fold (Qsum l).
    assert (x <= m)%Q by (apply Hl, list_elem_of_here).
    assert (Qsum l <= inject_Z (Z.of_nat (length l)) * m)%Q
      by (apply IH; intros y Hy; by apply Hl, list_elem_of_further).
    change (inject_Z 1) with 1%Q. lra.
Qed.

Lemma length_pos_Q {A} (x : A) (l : list A) :
  (0 < inject_Z (Z.of_nat (length (x :: l))))%Q.
Proof. change 0%Q with (inject_Z 0). rewrite <- Zlt_Qlt. simpl. lia. Qed.

Lemma Qmean_lower (m : Q) (x : Q) (l : list Q) :
  (∀ y, y ∈ x :: l → (m <= y)%Q) → (m <= Qmean (x :: l))%Q.
Proof.
  intros Hl. unfold Qmean. apply Qle_shift_div_l; [apply length_pos_Q|].
  pose proof (Qsum_lower m (x :: l) Hl). lra.
Qed.

Lemma Qmean_upper (m : Q) (x : Q) (l : list Q) :
  (∀ y, y ∈ x :: l → (y <= m)%Q) → (Qmean (x :: l) <= m)%Q.
Proof.
  intros Hl. unfold Qmean. apply Qle_shift_div_r; [apply length_pos_Q|].
  pose proof (Qsum_upper m (x :: l) Hl). lra.
Qed.

Lemma foldr_Qmin_le (x : Q) (rest : list Q) y :
  y ∈ x :: rest → (foldr Qmin x rest <= y)%Q.
Proof.
  induction rest as [|z rest IH]; simpl; intros Hy.
  - apply list_elem_of_singleton in Hy as ->. lra.
  - apply elem_of_cons in Hy as [->|Hy].
    + eapply Qle_trans; [apply Q.le_min_r|]. apply IH, list_elem_of_here.
    + apply elem_of_cons in Hy as [->|Hy]; [apply Q.le_min_l|].
      eapply Qle_trans; [apply Q.le_min_r|]. by apply IH, list_elem_of_further.
Qed.

Lemma foldr_Qmax_ge (x : Q) (rest : list Q) y :
  y ∈ x :: rest → (y <= foldr Qmax x rest)%Q.
Proof.
  induction rest as [|z rest IH]; simpl; intros Hy.
  - apply list_elem_of_singleton in Hy as ->. lra.
  - apply elem_of_cons in Hy as [->|Hy].
    + eapply Qle_trans; [|apply Q.le_max_r]. apply IH, list_elem_of_here.
    + apply elem_of_cons in Hy as [->|Hy]; [apply Q.le_max_l|].
      eapply Qle_trans; [|apply Q.le_max_r]. by apply IH, list_elem_of_further.
Qed.

Lemma Forall_filter_keep {A} (P Q : A → Prop) `{∀ x, Decision (Q x)} (l : list A) :
  Forall P l → Forall P (filter Q l).
Proof.
  rewrite !Forall_forall. intros Hl x Hx.
  apply list_elem_of_filter in Hx as [_ Hx]. by apply Hl.
Qed.

Lemma Zsum_bounds (lo hi : Z) (l : list Z) :
  (∀ y, y ∈ l → lo <= y <= hi) →
  Z.of_nat (length l) * lo <= foldr Z.add 0 l <= Z.of_nat (length l) * hi.
Proof.
  induction l as [|x l IH]; intros Hl; [simpl; lia|].
  rewrite length_cons, Nat2Z.inj_succ. cbn [foldr].
  assert (lo <= x <= hi) by (apply Hl, list_elem_of_here).
  assert (Z.of_nat (length l) * lo <= foldr Z.add 0 l <= Z.of_nat (length l) * hi)
    by (apply IH; intros y Hy; by apply Hl, list_elem_of_further).
  lia.
Qed.

(** The sample written by [log_ping_data] has its figures in order. *)
Lemma log_ping_data_ordered now sp a d :
  Forall ordered_sample (ping_logs d) →
  Forall ordered_sample (ping_logs (AnalyticsManager.log_ping_data now sp a d)).
Proof.
  intros Hd. unfold AnalyticsManager.log_ping_data.
  destruct (AnalyticsManager.player_pings a) as [|x rest].
  - cbn. apply Forall_app. split; [done|]. constructor; [|done].
    split; cbn; lra.
  - cbn [DatabaseManager.log_ping_data ping_logs].
    apply Forall_app. split; [done|]. constructor; [|done].
    destruct (foldr_min_spec x rest) as [_ Hmin].
    destruct (foldr_max_spec x rest) as [_ Hmax].
    pose proof (Zsum_bounds (foldr Z.min x rest) (foldr Z.max x rest) (x :: rest))
      as Hsum.
    destruct Hsum as [Hlo Hhi]; [intros y Hy; split; [by apply Hmin|by apply Hmax]|].
    split; cbn [low avg high].
    + apply Qle_shift_div_l; [apply length_pos_Q|].
      rewrite <- inject_Z_mult, <- Zle_Qle. lia.
    + apply Qle_shift_div_r; [apply length_pos_Q|].
      rewrite <- inject_Z_mult, <- Zle_Qle. lia.
Qed.

End PingOrder.

Lemma ordered_update_server_status now server_data b :
  Forall ordered_sample (ping_logs (db_manager b)) →
  Forall ordered_sample
    (ping_logs (db_manager (MotionlifeBot.update_server_status now server_data b))).
Proof.
  intros Hb.
  unfold MotionlifeBot.update_server_status.
  destruct server_data as [sd|]; [|done].
  destruct (online sd); [|done].
  destruct (snap_players sd) as [|e r] eqn:Hr; [done|].
  destruct (AnalyticsManager.update_player_data now (e :: r)
              (analytics_manager b) (db_manager b)) as [a1 d1] eqn:Hupd.
  destruct (NotificationManager.check_player_changes now (e :: r)
              (notification_manager b)
              (AnalyticsManager.log_ping_data now (snap_ping sd) a1 d1))
    as [n1 d3] eqn:Hchk.
  cbn [db_manager].
  pose proof (check_player_changes_ping_logs now (e :: r)
                (notification_manager b)
                (AnalyticsManager.log_ping_data now (snap_ping sd) a1 d1)) as Hp.
  rewrite Hchk in Hp. cbn [snd] in Hp. rewrite Hp.
  apply log_ping_data_ordered.
  pose proof (update_player_data_ping_logs now (e :: r)
                (analytics_manager b) (db_manager b)) as Hp1.
  rewrite Hupd in Hp1. cbn [snd] in Hp1. by rewrite Hp1.
Qed.

Lemma ordered_cleanup_task now hour b :
  Forall ordered_sample (ping_logs (db_manager b)) →
  Forall ordered_sample
    (ping_logs (db_manager (MotionlifeBot.cleanup_task now hour b))).
Proof.
  intros Hb.
  unfold MotionlifeBot.cleanup_task.
  destruct (AnalyticsManager.clean_offline_players now (analytics_manager b)
              (db_manager b)) as [a1 d1] eqn:Hreap.
  cbn [db_manager].
  pose proof (ping_logs_clean_offline_players now (analytics_manager b)
                (db_manager b)) as Hp.
  rewrite Hreap in Hp. cbn [snd] in Hp.
  destruct (hour =? 0).
  - unfold MotionlifeBot.cleanup_old_data. cbn [ping_logs]. rewrite Hp.
    by apply Forall_filter_keep.
  - by rewrite Hp.
Qed.

(** X13.  Every ping sample the bot writes has low <= avg <= high: the
    poll tick and the cleanup task keep a ping log in which all samples
    are ordered that way. *)
Theorem ping_samples_stay_ordered (now hour : Z) (server_data : option snapshot)
    (b : bot) :
  Forall ordered_sample (ping_logs (db_manager b)) →
  Forall ordered_sample
    (ping_logs (db_manager (MotionlifeBot.update_server_status now server_data b)))
  ∧ Forall ordered_sample
      (ping_logs (db_manager (MotionlifeBot.cleanup_task now hour b))).
Proof.
  intros Hb. split;
    [by apply ordered_update_server_status|by apply ordered_cleanup_task].
Qed.

Lemma ping_samples_stay_ordered_witness :
  Forall ordered_sample
    (ping_logs (db_manager (MotionlifeBot.update_server_status 0
       (Some (online_snapshot [entry "Ann" 40; entry "Bob" 75])) initial_bot))).
Proof.
  apply (ping_samples_stay_ordered 0 0
           (Some (online_snapshot [entry "Ann" 40; entry "Bob" 75])) initial_bot).
  constructor.
Defined.

(** X14.  Over a ping log whose samples are ordered, the reported
    statistics are ordered too: min <= low <= avg <= high <= max. *)
Theorem ping_stats_are_ordered (now hours : Z) (d : db)
    (st : DatabaseManager.ping_stats) :
  Forall ordered_sample (ping_logs d) →
  AnalyticsManager.get_ping_stats now hours d = Some st →
  (DatabaseManager.st_min st <= DatabaseManager.st_low st)%Q
  ∧ (DatabaseManager.st_low st <= DatabaseManager.st_avg st)%Q
  ∧ (DatabaseManager.st_avg st <= DatabaseManager.st_high st)%Q
  ∧ (DatabaseManager.st_high st <= DatabaseManager.st_max st)%Q.
Proof.
  intros Hd. unfold AnalyticsManager.get_ping_stats, DatabaseManager.get_ping_stats.
  assert (Forall ordered_sample
            (DatabaseManager.in_window (now - timedelta_hours hours) (ping_logs d)))
    as Hw by (by apply Forall_filter_keep).
  destruct (DatabaseManager.in_window (now - timedelta_hours hours) (ping_logs d))
    as [|s rest]; [done|].
  intros [= <-]. cbn [DatabaseManager.st_min DatabaseManager.st_low
                      DatabaseManager.st_avg DatabaseManager.st_high
                      DatabaseManager.st_max].
  split; [|split; [|split]]; apply round1_mono.
  - apply Qmean_lower. intros y Hy. by apply foldr_Qmin_le.
  - apply (Qmean_fmap_le low avg (s :: rest)).
    eapply Forall_impl; [exact Hw|]. by intros ? [? ?].
  - apply (Qmean_fmap_le avg high (s :: rest)).
    eapply Forall_impl; [exact Hw|]. by intros ? [? ?].
  - apply Qmean_upper. intros y Hy. by apply foldr_Qmax_ge.
Qed.

Lemma ping_stats_are_ordered_witness :
  ∃ st, AnalyticsManager.get_ping_stats 0 1 zero_pings = Some st
        ∧ (DatabaseManager.st_low st <= DatabaseManager.st_avg st)%Q.
Proof.
  eexists. split; [reflexivity|].
  apply (ping_stats_are_ordered 0 1 zero_pings).
  - constructor; [split; by vm_compute|constructor].
  - reflexivity.
Defined.

(** ** Arrivals and departures seen by a whole poll tick *)

Section TickEvents.
Import AnalyticsManager DatabaseManager NotificationManager MotionlifeBot.

Lemma list_find_filter_head (p : string) (r : list roster_entry) e rest :
  filter (λ e, name e = p) r = e :: rest →
  ∃ i, list_find (λ e, name e = p) r = Some (i, e).
Proof.
  induction r as [|x r IH]; [done|]. intros Hf. cbn [list_find].
  destruct (decide (name x = p)) as [Heq|Hne].
  - rewrite filter_cons_True in Hf by done. injection Hf as -> _. by exists 0%nat.
  - rewrite filter_cons_False in Hf by done. destruct (IH Hf) as [i ->].
    by exists (S i).
Qed.

Lemma handle_join_fold now r p l d :
  NoDup l →
  (events_of p (event_logs (foldl (_handle_player_join now r) d l)),
   players (foldl (_handle_player_join now r) d l) !! p)
  = if decide (p ∈ l) then
      match list_find (λ e, name e = p) r with
      | Some (_, e) =>
          (events_of p (event_logs d)
             ++ [Event now Join p
                   (Details (Some (ping e)) (Some (identifiers e)) None None)],
           bump_sessions <$> players d !! p)
      | None => (events_of p (event_logs d), players d !! p)
      end
    else (events_of p (event_logs d), players d !! p).
Proof.
  intros Hnd. revert d. induction Hnd as [|x l Hx Hnd IH]; intros d; [done|].
  cbn [foldl]. rewrite IH. destruct (decide (x = p)) as [->|Hne].
  - rewrite (decide_False (P := p ∈ l)) by done.
    rewrite (decide_True (P := p ∈ p :: l)) by apply list_elem_of_here.
    unfold _handle_player_join. destruct (list_find _ r) as [[? e]|]; [|done].
    by rewrite events_of_log_event_eq, players_log_join_eq.
  - assert (events_of p (event_logs (_handle_player_join now r d x))
            = events_of p (event_logs d)
            ∧ players (_handle_player_join now r d x) !! p = players d !! p)
      as [-> ->].
    { unfold _handle_player_join.
      destruct (list_find (λ e, name e = x) r) as [[? e]|]; [|done].
      by rewrite events_of_log_event_ne, players_log_event_ne by done. }
    destruct (decide (p ∈ l)) as [Hin|Hout].
    + rewrite (decide_True (P := p ∈ x :: l)) by by apply list_elem_of_further.
      done.
    + rewrite (decide_False (P := p ∈ x :: l)); [done|].
      rewrite elem_of_cons. intros [?|?]; congruence.
Qed.

Lemma handle_leave_fold now (times : gmap string Z) p l d :
  NoDup l →
  (events_of p (event_logs (foldl (_handle_player_leave now times) d l)),
   players (foldl (_handle_player_leave now times) d l) !! p)
  = if decide (p ∈ l) then
      (events_of p (event_logs d)
         ++ [Event now Leave p
               (Details None None
                  (Some (match times !! p with
                         | Some join_time => now - join_time
                         | None => 0
                         end)) None)],
       players d !! p)
    else (events_of p (event_logs d), players d !! p).
Proof.
  intros Hnd. revert d. induction Hnd as [|x l Hx Hnd IH]; intros d; [done|].
  cbn [foldl]. rewrite IH. destruct (decide (x = p)) as [->|Hne].
  - rewrite (decide_False (P := p ∈ l)) by done.
    rewrite (decide_True (P := p ∈ p :: l)) by apply list_elem_of_here.
    unfold _handle_player_leave.
    by rewrite events_of_log_event_eq, players_log_leave.
  - assert (events_of p (event_logs (_handle_player_leave now times d x))
            = events_of p (event_logs d)
            ∧ players (_handle_player_leave now times d x) !! p = players d !! p)
      as [-> ->].
    { unfold _handle_player_leave.
      by rewrite events_of_log_event_ne, players_log_leave by done. }
    destruct (decide (p ∈ l)) as [Hin|Hout].
    + rewrite (decide_True (P := p ∈ x :: l)) by by apply list_elem_of_further.
      done.
    + rewrite (decide_False (P := p ∈ x :: l)); [done|].
      rewrite elem_of_cons. intros [?|?]; congruence.
Qed.

(** The notification diff seen from one player: the events it appends
    for that player and what it does to the player's record. *)
Lemma check_player_changes_player now r n d p :
  let nd := check_player_changes now r n d in
  let listed := p ∈ name <$> r ∧ p ≠ "" in
  (events_of p (event_logs nd.2), players nd.2 !! p)
  = if decide (listed ∧ p ∉ previous_players n) then
      match list_find (λ e, name e = p) r with
      | Some (_, e) =>
          (events_of p (event_logs d)
             ++ [Event now Join p
                   (Details (Some (ping e)) (Some (identifiers e)) None None)],
           bump_sessions <$> players d !! p)
      | None => (events_of p (event_logs d), players d !! p)
      end
    else if decide (p ∈ previous_players n ∧ ¬ listed) then
      (events_of p (event_logs d)
         ++ [Event now Leave p
               (Details None None
                  (Some (match player_join_times n !! p with
                         | Some join_time => now - join_time
                         | None => 0
                         end)) None)],
       players d !! p)
    else (events_of p (event_logs d), players d !! p).
Proof.
  intros nd listed. subst nd. unfold check_player_changes. cbn [snd].
  pose proof (elem_of_current_players r p) as Hcur. fold listed in Hcur.
  revert Hcur.
  generalize (list_to_set (filter (λ s, s ≠ "") (name <$> r)) : gset string).
  intros cur Hcur.
  rewrite handle_leave_fold by apply NoDup_elements.
  pose proof (handle_join_fold now r p (elements (cur ∖ previous_players n)) d
                (NoDup_elements _)) as Hjoin.
  pose proof (f_equal fst Hjoin) as Hj1. pose proof (f_equal snd Hjoin) as Hj2.
  cbn [fst snd] in Hj1, Hj2. rewrite Hj1, Hj2. clear Hj1 Hj2 Hjoin.
  assert (p ∈ elements (cur ∖ previous_players n)
          ↔ listed ∧ p ∉ previous_players n) as HJ.
  { rewrite elem_of_elements_names, elem_of_difference. tauto. }
  assert (p ∈ elements (previous_players n ∖ cur)
          ↔ p ∈ previous_players n ∧ ¬ listed) as HL.
  { rewrite elem_of_elements_names, elem_of_difference. tauto. }
  destruct (decide (listed ∧ p ∉ previous_players n)) as [Hjn|Hjn].
  - rewrite (decide_True (P := p ∈ elements (cur ∖ previous_players n)))
      by by apply HJ.
    rewrite (decide_False (P := p ∈ elements (previous_players n ∖ cur)))
      by (rewrite HL; tauto).
    by destruct (list_find _ r) as [[? ?]|].
  - rewrite (decide_False (P := p ∈ elements (cur ∖ previous_players n)))
      by by rewrite HJ.
    cbn [fst snd].
    destruct (decide (p ∈ previous_players n ∧ ¬ listed)) as [Hlv|Hlv].
    + by rewrite (decide_True (P := p ∈ elements (previous_players n ∖ cur)))
        by by apply HL.
    + by rewrite (decide_False (P := p ∈ elements (previous_players n ∖ cur)))
        by by rewrite HL.
Qed.

Lemma check_player_changes_join now r n d p i e :
  p ∈ name <$> r → p ≠ "" → p ∉ previous_players n →
  list_find (λ e, name e = p) r = Some (i, e) →
  events_of p (event_logs (check_player_changes now r n d).2)
  = events_of p (event_logs d)
    ++ [Event now Join p
          (Details (Some (ping e)) (Some (identifiers e)) None None)]
  ∧ players (check_player_changes now r n d).2 !! p
    = bump_sessions <$> players d !! p.
Proof.
  intros Hin Hne Hprev Hfind.
  pose proof (check_player_changes_player now r n d p) as Hchk.
  cbv zeta in Hchk. rewrite decide_True, Hfind in Hchk by done.
  split; [exact (f_equal fst Hchk)|exact (f_equal snd Hchk)].
Qed.

Lemma check_player_changes_leave now r n d p :
  p ∉ name <$> r → p ∈ previous_players n →
  events_of p (event_logs (check_player_changes now r n d).2)
  = events_of p (event_logs d)
    ++ [Event now Leave p
          (Details None None
             (Some (match player_join_times n !! p with
                    | Some join_time => now - join_time
                    | None => 0
                    end)) None)]
  ∧ players (check_player_changes now r n d).2 !! p = players d !! p.
Proof.
  intros Hout Hprev.
  pose proof (check_player_changes_player now r n d p) as Hchk.
  cbv zeta in Hchk. rewrite decide_False, decide_True in Hchk by tauto.
  split; [exact (f_equal fst Hchk)|exact (f_equal snd Hchk)].
Qed.

(** The reconciler on the arrival of an untracked player. *)
Lemma update_player_data_arrival now r a d p :
  p ≠ "" → p ≠ "Unknown" →
  current_players a !! p = None →
  p ∈ name <$> r →
  let st := update_player_data now r a d in
  ∃ e rest rec',
    filter (λ e, name e = p) r = e :: rest
    ∧ events_of p (event_logs st.2)
      = events_of p (event_logs d)
        ++ [Event now Join p
              (Details (Some (ping e)) (Some (identifiers e)) None None)]
    ∧ players st.2 !! p = Some rec'
    ∧ totalSessions rec'
      = match players d !! p with
        | Some rec => totalSessions rec + 1
        | None => 0
        end.
Proof.
  intros Hne1 Hne2 Hcp Hin st.
  destruct (filter_name_present p r Hin) as (e & rest & Hocc & Hein & Hname).
  pose proof (Forall_filter_name p r) as Hall. rewrite Hocc in Hall.
  apply Forall_cons in Hall as [_ Hrest].
  pose proof (update_player_data_view now r a d p) as Hv. fold st in Hv.
  rewrite Hocc in Hv. unfold view_of in Hv at 2. cbn [fst snd] in Hv.
  rewrite Hcp in Hv. unfold player_step in Hv. cbn [foldl] in Hv.
  unfold present_view in Hv at 2.
  rewrite decide_False in Hv by (rewrite Hname; tauto).
  rewrite bool_decide_eq_true_2 in Hv by done.
  match type of Hv with
  | context [foldl _ (true, (Some ?pr0, ?s0, Some ?rec0, ?evs0)) rest] =>
      destruct (present_view_continuing now p Hne1 Hne2 rest Hrest
                  true pr0 s0 rec0 evs0)
        as (b' & pr' & rec3 & Hfold & Hb & Hs3 & _)
  end.
  rewrite Hfold in Hv. clear Hfold. rewrite (Hb eq_refl) in Hv.
  unfold view_of in Hv. injection Hv as _ _ Hrec Hev.
  exists e, rest, rec3. split; [done|]. split; [by rewrite Hev, Hname|].
  split; [done|]. rewrite Hs3. by destruct (players d !! p).
Qed.

End TickEvents.

(** X15.  A poll tick whose roster lists a player that neither the
    reconciler nor the notification manager is tracking logs the join
    twice: it appends two join events for the player, one by each
    component, both carrying the ping and identifiers of the player's
    roster entry.  The session count of an existing record goes up by
    two; a record created by this tick ends with a session count of
    one. *)
Theorem poll_tick_logs_arrival_twice (now : Z) (sd : snapshot) (b : bot)
    (p : string) :
  online sd = true →
  p ∈ name <$> snap_players sd →
  p ≠ "" → p ≠ "Unknown" →
  current_players (analytics_manager b) !! p = None →
  p ∉ previous_players (notification_manager b) →
  let b' := MotionlifeBot.update_server_status now (Some sd) b in
  ∃ e j1 j2, e ∈ snap_players sd ∧ name e = p
       ∧ events_of p (event_logs (db_manager b'))
         = events_of p (event_logs (db_manager b)) ++ [j1; j2]
       ∧ ev_type j1 = Join ∧ ev_type j2 = Join
       ∧ player_name j1 = p ∧ player_name j2 = p
       ∧ ev_details j1
         = Details (Some (ping e)) (Some (identifiers e)) None None
       ∧ ev_details j2
         = Details (Some (ping e)) (Some (identifiers e)) None None
       ∧ DatabaseManager.get_totalSessions p (db_manager b')
         = match players (db_manager b) !! p with
           | Some rec => totalSessions rec + 2
           | None => 1
           end.
Proof.
  intros Hon Hin Hne1 Hne2 Hcp Hprev b'. subst b'.
  assert (snap_players sd ≠ []) as Hr
    by (intros Hnil; rewrite Hnil in Hin; by apply elem_of_nil in Hin).
  rewrite update_server_status_roster by done. cbn [db_manager].
  destruct (update_player_data_arrival now (snap_players sd) (analytics_manager b)
              (db_manager b) p Hne1 Hne2 Hcp Hin)
    as (e & rest & rec' & Hocc & Hev & Hrec & Hsess).
  destruct (list_find_filter_head p (snap_players sd) e rest Hocc) as [i Hfind].
  destruct (check_player_changes_join now (snap_players sd)
              (notification_manager b)
              (AnalyticsManager.log_ping_data now (snap_ping sd)
                 (AnalyticsManager.update_player_data now (snap_players sd)
                    (analytics_manager b) (db_manager b)).1
                 (AnalyticsManager.update_player_data now (snap_players sd)
                    (analytics_manager b) (db_manager b)).2) p i e
              Hin Hne1 Hprev Hfind) as [Hev' Hrec'].
  rewrite log_ping_data_event_logs in Hev'.
  rewrite players_log_ping_data in Hrec'.
  assert (e ∈ snap_players sd ∧ name e = p) as [Hein Hname].
  { assert (e ∈ filter (λ e, name e = p) (snap_players sd)) as He
      by (rewrite Hocc; apply list_elem_of_here).
    by apply list_elem_of_filter in He as [? ?]. }
  exists e, (Event now Join p
               (Details (Some (ping e)) (Some (identifiers e)) None None)),
    (Event now Join p
       (Details (Some (ping e)) (Some (identifiers e)) None None)).
  split; [done|]. split; [done|].
  split; [by rewrite Hev', Hev, <- app_assoc|].
  do 6 (split; [done|]).
  unfold DatabaseManager.get_totalSessions. rewrite Hrec', Hrec. cbn.
  rewrite Hsess. destruct (players (db_manager b) !! p); lia.
Qed.

Lemma poll_tick_logs_arrival_twice_witness :
  DatabaseManager.get_totalSessions "Ann"
    (db_manager (MotionlifeBot.update_server_status 0
       (Some (online_snapshot [entry "Ann" 40])) initial_bot)) = 1.
Proof.
  destruct (poll_tick_logs_arrival_twice 0 (online_snapshot [entry "Ann" 40])
              initial_bot "Ann")
    as (e & j1 & j2 & _ & _ & _ & _ & _ & _ & _ & _ & _ & Hs); try done.
  apply list_elem_of_here.
Defined.

(** X16.  A poll tick with a non-empty roster that no longer lists a
    player tracked by both the reconciler and the notification manager
    logs the departure twice: first the reconciler's leave event with
    the time since its session start, then the notification manager's
    leave event with the time since its own recorded join time (zero if
    it has none).  The stored session count is unchanged. *)
Theorem poll_tick_logs_departure_twice (now : Z) (sd : snapshot) (b : bot)
    (p : string) (pr : presence) (start : Z) :
  online sd = true →
  snap_players sd ≠ [] →
  p ∉ name <$> snap_players sd →
  current_players (analytics_manager b) !! p = Some pr →
  session_start_times (analytics_manager b) !! p = Some start →
  p ∈ previous_players (notification_manager b) →
  let b' := MotionlifeBot.update_server_status now (Some sd) b in
  events_of p (event_logs (db_manager b'))
  = events_of p (event_logs (db_manager b))
    ++ [Event now Leave p (Details None None (Some (now - start)) None);
        Event now Leave p
          (Details None None
             (Some (match player_join_times (notification_manager b) !! p with
                    | Some join_time => now - join_time
                    | None => 0
                    end)) None)]
  ∧ DatabaseManager.get_totalSessions p (db_manager b')
    = DatabaseManager.get_totalSessions p (db_manager b)
  ∧ current_players (analytics_manager b') !! p = None
  ∧ p ∉ previous_players (notification_manager b').
Proof.
  intros Hon Hr Hout Hcp Hsst Hprev b'. subst b'.
  rewrite update_server_status_roster by done.
  cbn [db_manager analytics_manager notification_manager].
  destruct (update_player_data_departure now (snap_players sd)
              (analytics_manager b) (db_manager b) p pr start Hout Hcp Hsst)
    as (Hgone & _ & Hev).
  pose proof (update_player_data_view now (snap_players sd) (analytics_manager b)
                (db_manager b) p) as Hv.
  rewrite filter_name_absent in Hv by done.
  unfold view_of in Hv at 2. cbn [fst snd] in Hv. rewrite Hcp, Hsst in Hv.
  unfold player_step, left_view in Hv. cbn [foldl fst snd] in Hv.
  unfold view_of in Hv. injection Hv as _ _ Hrec _.
  destruct (check_player_changes_leave now (snap_players sd)
              (notification_manager b)
              (AnalyticsManager.log_ping_data now (snap_ping sd)
                 (AnalyticsManager.update_player_data now (snap_players sd)
                    (analytics_manager b) (db_manager b)).1
                 (AnalyticsManager.update_player_data now (snap_players sd)
                    (analytics_manager b) (db_manager b)).2) p
              Hout Hprev) as [Hev' Hrec'].
  rewrite log_ping_data_event_logs in Hev'.
  rewrite players_log_ping_data in Hrec'.
  split; [by rewrite Hev', Hev, <- app_assoc|]. split.
  - unfold DatabaseManager.get_totalSessions. rewrite Hrec', Hrec.
    destruct (0 <? _); [|done]. by destruct (players (db_manager b) !! p).
  - split; [done|].
    unfold NotificationManager.check_player_changes. cbn [fst previous_players].
    rewrite elem_of_current_players. tauto.
Qed.

Lemma poll_tick_logs_departure_twice_witness :
  current_players
    (analytics_manager
       (MotionlifeBot.update_server_status (timedelta_seconds 30)
          (Some (online_snapshot [entry "Bob" 50])) rejoin_bot_1)) !! "Ann" = None.
Proof.
  refine (proj1 (proj2 (proj2
    (poll_tick_logs_departure_twice (timedelta_seconds 30)
       (online_snapshot [entry "Bob" 50]) rejoin_bot_1 "Ann"
       (Presence 0 40 [] "civilian" "civilian") 0 _ _ _ _ _ _)))).
  - reflexivity.
  - discriminate.
  - apply (bool_decide_unpack _). by vm_compute.
  - by vm_compute.
  - by vm_compute.
  - apply (bool_decide_unpack _). by vm_compute.
Defined.

(** ** Server status notifications *)

Section StatusNotices.
Import MotionlifeBot.

Lemma last_server_online_update_server_status now server_data b :
  last_server_online (update_server_status now server_data b)
  = negb (is_offline server_data).
Proof.
  unfold update_server_status. destruct server_data as [sd|]; [|done].
  cbn [is_offline]. destruct (online sd); [|done].
  destruct (snap_players sd); [done|].
  destruct (AnalyticsManager.update_player_data _ _ _ _) as [a1 d1].
  by destruct (NotificationManager.check_player_changes _ _ _ _) as [n1 d3].
Qed.

Lemma status_notifications_alternate ticks b :
  alternating (if last_server_online b then ServerOffline else ServerOnline)
    (status_notifications ticks b).
Proof.
  revert b. induction ticks as [|[now server_data] ticks IH]; intros b; [done|].
  cbn [status_notifications].
  specialize (IH (update_server_status now server_data b)).
  rewrite last_server_online_update_server_status in IH.
  unfold status_notification.
  destruct (is_offline server_data), (last_server_online b); simpl in *; auto.
Qed.

End StatusNotices.

(** X17.  Over any run of poll ticks the server status notifications
    alternate: the first one is "online" if the server was last seen
    offline (as at start-up) and "offline" otherwise, no notification is
    ever sent twice in a row, and a tick sends one exactly when the
    status it sees differs from the one last seen. *)
Theorem status_notifications_never_repeat
    (ticks : list (Z * option snapshot)) (b : bot) :
  alternating (if last_server_online b then ServerOffline else ServerOnline)
    (status_notifications ticks b)
  ∧ alternating ServerOnline (status_notifications ticks initial_bot)
  ∧ (length (status_notifications ticks b) ≤ length ticks)%nat
  ∧ ∀ server_data,
      is_Some (status_notification server_data b)
      ↔ last_server_online b = is_offline server_data.
Proof.
  split; [apply status_notifications_alternate|].
  split; [apply (status_notifications_alternate ticks initial_bot)|]. split.
  - revert b. induction ticks as [|[now server_data] ticks IH]; intros b; [done|].
    cbn [status_notifications]. rewrite length_app, length_cons.
    specialize (IH (MotionlifeBot.update_server_status now server_data b)).
    destruct (status_notification server_data b); simpl; lia.
  - intros server_data. unfold status_notification.
    destruct (is_offline server_data), (last_server_online b); split;
      intros H; try done; try (by eexists); by destruct H.
Qed.

(** ** Activity trend *)

Section Trends.
Import DatabaseQueries AnalyticsReports.

Lemma length_filter_split {A} (P Q : A → Prop)
    `{∀ x, Decision (P x)} `{∀ x, Decision (Q x)} (l : list A) :
  (∀ x, P x → Q x) →
  length (filter Q l)
  = (length (filter P l) + length (filter (λ x, Q x ∧ ¬ P x) l))%nat.
Proof.
  intros HPQ. induction l as [|x l IH]; [done|].
  rewrite !filter_cons. destruct (decide (P x)) as [HP|HP].
  - rewrite (decide_True (P := Q x)) by auto.
    rewrite (decide_False (P := Q x ∧ ¬ P x)) by tauto. simpl. lia.
  - destruct (decide (Q x)) as [HQ|HQ].
    + rewrite (decide_True (P := Q x ∧ ¬ P x)) by tauto. simpl. lia.
    + rewrite (decide_False (P := Q x ∧ ¬ P x)) by tauto. simpl. lia.
Qed.

Lemma get_active_players_count_mono now hours hours' d :
  hours <= hours' →
  (get_active_players_count now hours d ≤ get_active_players_count now hours' d)%nat.
Proof.
  intros Hle. unfold get_active_players_count.
  rewrite (length_filter_split
             (λ r, now - timedelta_hours hours <= lastSeen r)
             (λ r, now - timedelta_hours hours' <= lastSeen r)); [lia|].
  intros r. unfold timedelta_hours, timedelta_seconds, us_per_second. lia.
Qed.

Lemma trend_sign (k p : Z) :
  0 < p →
  ((0 < inject_Z k / inject_Z p * 100)%Q ↔ 0 < k)
  ∧ ((inject_Z k / inject_Z p * 100 < 0)%Q ↔ k < 0).
Proof.
  intros Hp. destruct p as [|pp|pp]; try lia.
  unfold Qlt, Qdiv, Qmult, Qinv, inject_Z. simpl. lia.
Qed.

End Trends.

(** X18.  [get_active_players_count] grows with the period, so in
    [generate_player_trends] the previous-week figure is the number of
    players last seen between 14 and 7 days ago, and the reported
    direction compares the two weeks: up exactly when more players were
    active this week than in the week before, down exactly when fewer,
    stable exactly when as many.  At most five top players are listed. *)
Theorem player_trend_compares_weeks (now : Z) (d : db) :
  let t := AnalyticsReports.generate_player_trends now d in
  let players := DatabaseQueries.all_players d in
  let week :=
    Z.of_nat (length (filter (λ r, now - timedelta_days 7 <= lastSeen r) players)) in
  let before :=
    Z.of_nat (length (filter (λ r, now - timedelta_days 14 <= lastSeen r
                                   ∧ ¬ now - timedelta_days 7 <= lastSeen r)
                        players)) in
  AnalyticsReports.current_week_active t = week
  ∧ AnalyticsReports.previous_week_active t = before
  ∧ (AnalyticsReports.trend_direction_of t = AnalyticsReports.Up ↔ before < week)
  ∧ (AnalyticsReports.trend_direction_of t = AnalyticsReports.Down ↔ week < before)
  ∧ (AnalyticsReports.trend_direction_of t = AnalyticsReports.Stable ↔ week = before)
  ∧ (length (AnalyticsReports.top_players t) ≤ 5)%nat
  ∧ ∀ hours hours',
      hours <= hours' →
      (DatabaseQueries.get_active_players_count now hours d
       ≤ DatabaseQueries.get_active_players_count now hours' d)%nat.
Proof.
  intros t players week before.
  assert (AnalyticsReports.current_week_active t = week) as Hweek by reflexivity.
  assert (AnalyticsReports.previous_week_active t = before) as Hbefore.
  { subst t. unfold AnalyticsReports.generate_player_trends.
    cbn [AnalyticsReports.previous_week_active].
    unfold DatabaseQueries.get_active_players_count. fold players.
    change (timedelta_hours (24 * 7)) with (timedelta_days 7).
    change (timedelta_hours (24 * 14)) with (timedelta_days 14).
    rewrite (length_filter_split
               (λ r, now - timedelta_days 7 <= lastSeen r)
               (λ r, now - timedelta_days 14 <= lastSeen r) players).
    - subst before. lia.
    - intros r. unfold timedelta_days, timedelta_seconds, us_per_second. lia. }
  split; [done|]. split; [done|].
  assert (0 <= week ∧ 0 <= before) as [Hw0 Hb0] by (subst week before; lia).
  assert ((AnalyticsReports.trend_direction_of t = AnalyticsReports.Up
           ↔ before < week)
          ∧ (AnalyticsReports.trend_direction_of t = AnalyticsReports.Down
             ↔ week < before)
          ∧ (AnalyticsReports.trend_direction_of t = AnalyticsReports.Stable
             ↔ week = before)) as Hdir.
  { revert Hweek Hbefore. subst t. unfold AnalyticsReports.generate_player_trends.
    cbn [AnalyticsReports.current_week_active AnalyticsReports.previous_week_active
         AnalyticsReports.trend_direction_of].
    intros -> ->.
    destruct (Z.ltb_spec 0 before) as [Hpos|Hzero].
    - destruct (trend_sign (week - before) before Hpos) as [Hup Hdown].
      destruct (Qlt_le_dec 0 _) as [Hq|Hq].
      + apply Hup in Hq. split; [|split]; split; intros; try done; lia.
      + destruct (Qlt_le_dec _ 0) as [Hq'|Hq'].
        * apply Hdown in Hq'. split; [|split]; split; intros; try done; lia.
        * assert (¬ 0 < week - before)
            by (intros Hk; apply Hup in Hk; by apply Qlt_not_le in Hk).
          assert (¬ week - before < 0)
            by (intros Hk; apply Hdown in Hk; by apply Qlt_not_le in Hk).
          split; [|split]; split; intros; try done; lia.
    - assert (before = 0) as -> by lia.
      destruct (Z.ltb_spec 0 week) as [Hw|Hw].
      + destruct (Qlt_le_dec 0 100) as [_|Hq]; [|by vm_compute in Hq].
        split; [|split]; split; intros; try done; lia.
      + assert (week = 0) as Hwz by lia. rewrite Hwz.
        destruct (Qlt_le_dec 0 0) as [Hq|_]; [by vm_compute in Hq|].
        destruct (Qlt_le_dec 0 0) as [Hq|_]; [by vm_compute in Hq|].
        split; [|split]; split; intros; try done; lia. }
  destruct Hdir as (? & ? & ?). split; [done|]. split; [done|]. split; [done|].
  split.
  - subst t. cbn. unfold DatabaseQueries.get_players_by_playtime.
    rewrite length_take. lia.
  - intros hours hours'. apply get_active_players_count_mono.
Qed.

(** ** Uptime estimate *)

Section Uptime.
Import AnalyticsReports.

Lemma round1_0 : (round1 0 == 0)%Q.
Proof. by vm_compute. Qed.

Lemma round1_100 : (round1 100 == 100)%Q.
Proof. by vm_compute. Qed.

Lemma round1_between_0_100 (q : Q) :
  (0 <= q)%Q → (q <= 100)%Q → (0 <= round1 q)%Q ∧ (round1 q <= 100)%Q.
Proof.
  intros H0 H100. pose proof (round1_mono 0 q H0). pose proof (round1_mono q 100 H100).
  pose proof round1_0. pose proof round1_100. split; lra.
Qed.

Lemma expected_updates_pos (days : Z) :
  0 < days → (0 < inject_Z (days * 24 * 60 * 60) / 30)%Q.
Proof.
  intros Hd. unfold Qlt, Qdiv, Qmult, Qinv, inject_Z. simpl. lia.
Qed.

End Uptime.

(** X19.  For a period of at least one day the uptime estimate lies
    between 0 and 100; it is 100 as soon as the period holds one ping
    sample per 30 seconds (2880 per day) or more, and 0 when it holds
    none. *)
Theorem uptime_percentage_bounds (now days : Z) (d : db) :
  0 < days →
  let u := AnalyticsReports._calculate_uptime_percentage now days d in
  let actual :=
    length (filter (λ s, now - timedelta_days days <= ps_timestamp s)
              (ping_logs d)) in
  (0 <= u)%Q ∧ (u <= 100)%Q
  ∧ (days * 2880 <= Z.of_nat actual → (u == 100)%Q)
  ∧ (actual = 0%nat → (u == 0)%Q).
Proof.
  intros Hdays u actual. subst u.
  unfold AnalyticsReports._calculate_uptime_percentage. fold actual.
  pose proof (expected_updates_pos days Hdays) as Hexp.
  set (expected := (inject_Z (days * 24 * 60 * 60) / 30)%Q) in *.
  destruct (Qeq_dec expected 0) as [Hz|_]; [rewrite Hz in Hexp; by vm_compute in Hexp|].
  assert (0 <= inject_Z (Z.of_nat actual))%Q as Hact
    by (change 0%Q with (inject_Z 0); rewrite <- Zle_Qle; lia).
  assert (0 <= inject_Z (Z.of_nat actual) / expected)%Q as Hratio.
  { apply Qle_shift_div_l; [done|]. lra. }
  set (ratio := (inject_Z (Z.of_nat actual) / expected)%Q) in *.
  assert (0 <= Qmin (ratio * 100) 100)%Q as Hlo by (apply Q.min_glb; lra).
  assert (Qmin (ratio * 100) 100 <= 100)%Q as Hhi by apply Q.le_min_r.
  destruct (round1_between_0_100 _ Hlo Hhi) as [Hr0 Hr100].
  split; [done|]. split; [done|]. split.
  - intros Hfull. apply Qle_antisym; [done|].
    assert (1 <= ratio)%Q as Hone.
    { subst ratio. apply Qle_shift_div_l; [done|]. subst expected.
      unfold Qle, Qdiv, Qmult, Qinv, inject_Z. simpl. lia. }
    assert (100 <= Qmin (ratio * 100) 100)%Q as Hge by (apply Q.min_glb; lra).
    pose proof (round1_mono _ _ Hge). pose proof round1_100. lra.
  - intros Hnone. apply Qle_antisym; [|done].
    assert (ratio == 0)%Q as Hzero.
    { subst ratio. rewrite Hnone. unfold Qdiv. change (inject_Z (Z.of_nat 0)) with 0%Q.
      lra. }
    assert (Qmin (ratio * 100) 100 <= 0)%Q as Hle.
    { eapply Qle_trans; [apply Q.le_min_l|]. lra. }
    pose proof (round1_mono _ _ Hle). pose proof round1_0. lra.
Qed.

Lemma uptime_percentage_bounds_witness :
  (AnalyticsReports._calculate_uptime_percentage 0 1 zero_pings <= 100)%Q.
Proof.
  refine (proj1 (proj2 (uptime_percentage_bounds 0 1 zero_pings _))). lia.
Defined.

(** ** Session statistics *)

Section Sessions.
Import AnalyticsQueries.

Lemma elem_of_get_current_online_players now a o :
  o ∈ get_current_online_players now a ↔
  ∃ p pr, current_players a !! p = Some pr
          ∧ o = OnlinePlayer p (p_ping pr)
                  (default (last_update pr) (session_start_times a !! p))
                  (Z.quot (now - default (last_update pr)
                                   (session_start_times a !! p)) us_per_second)
                  (p_job pr) (p_role pr).
Proof.
  unfold get_current_online_players. rewrite list_elem_of_fmap. split.
  - intros ([p pr] & -> & Hin). apply elem_of_map_to_list in Hin. by exists p, pr.
  - intros (p & pr & Hcp & ->). exists (p, pr). split; [done|].
    by apply elem_of_map_to_list.
Qed.

Lemma quot_mean_le_max (x : Z) (rest : list Z) :
  Z.quot (Zsum (x :: rest)) (Z.of_nat (length (x :: rest)))
  <= foldr Z.max x rest.
Proof.
  apply Z.quot_le_upper_bound; [simpl; lia|].
  destruct (foldr_min_spec x rest) as [_ Hmin].
  destruct (foldr_max_spec x rest) as [_ Hmax].
  destruct (Zsum_bounds (foldr Z.min x rest) (foldr Z.max x rest) (x :: rest))
    as [_ Hhi]; [intros y Hy; split; [by apply Hmin|by apply Hmax]|].
  exact Hhi.
Qed.

End Sessions.

(** X20.  [get_current_online_players] lists every tracked player
    exactly once, with the session counted in whole seconds from the
    session start (from the last update when there is none).  In
    [get_session_statistics] the number online is the number of tracked
    players, the longest session is that of a listed player and at least
    as long as every listed session, and the average session never
    exceeds the longest one. *)
Theorem session_statistics_are_consistent (now : Z) (a : analytics) :
  let online := AnalyticsQueries.get_current_online_players now a in
  let s := AnalyticsQueries.get_session_statistics now a in
  length online = AnalyticsQueries.get_current_online_count a
  ∧ NoDup (op_name <$> online)
  ∧ (∀ p pr, current_players a !! p = Some pr →
       ∃ o, o ∈ online ∧ op_name o = p ∧ op_ping o = p_ping pr
            ∧ op_session_duration o
              = match session_start_times a !! p with
                | Some _ => AnalyticsManager._get_current_session_duration now p a
                | None => Z.quot (now - last_update pr) us_per_second
                end)
  ∧ total_online s = AnalyticsQueries.get_current_online_count a
  ∧ (∀ o, o ∈ online → op_session_duration o <= longest_session s)
  ∧ (online ≠ [] → ∃ o, o ∈ online ∧ op_session_duration o = longest_session s)
  ∧ average_session_time s <= longest_session s.
Proof.
  intros online s.
  assert (length online = AnalyticsQueries.get_current_online_count a) as Hlen.
  { subst online. unfold AnalyticsQueries.get_current_online_players,
      AnalyticsQueries.get_current_online_count.
    by rewrite length_fmap, length_map_to_list. }
  split; [done|]. split.
  { subst online. unfold AnalyticsQueries.get_current_online_players.
    rewrite <- list_fmap_compose.
    apply (NoDup_fst_map_to_list (current_players a)). }
  split.
  { intros p pr Hcp. eexists. split.
    - apply elem_of_get_current_online_players. by exists p, pr.
    - cbn. split; [done|]. split; [done|].
      unfold AnalyticsManager._get_current_session_duration.
      by destruct (session_start_times a !! p). }
  subst s. unfold AnalyticsQueries.get_session_statistics. fold online.
  destruct online as [|o rest] eqn:Honline.
  { cbn. split; [done|]. split; [intros ? []%elem_of_nil|]. split; [done|lia]. }
  cbn [total_online longest_session average_session_time].
  destruct (foldr_max_spec (op_session_duration o) (op_session_duration <$> rest))
    as [Hin Hmax].
  split; [done|]. split.
  { intros o' Ho'. apply Hmax. rewrite <- fmap_cons.
    apply list_elem_of_fmap. by exists o'. }
  split.
  { intros _. rewrite <- fmap_cons in Hin.
    apply list_elem_of_fmap in Hin as (o' & Heq & Ho'). by exists o'. }
  rewrite fmap_cons. apply quot_mean_le_max.
Qed.

(** ** Forced update and player information *)

Section PlayerQueries.
Import AnalyticsQueries DatabaseManager.

Lemma get_totalSessions_upsert t pd d :
  get_totalSessions (pd_name pd) (upsert_player t pd d)
  = get_totalSessions (pd_name pd) d.
Proof.
  unfold get_totalSessions, upsert_player. simpl. rewrite lookup_insert_eq.
  by destruct (players d !! pd_name pd).
Qed.

Lemma force_player_update_tracked now p a d pr :
  current_players a !! p = Some pr →
  force_player_update now p a d
  = (true,
     upsert_player now
       (PlayerData p (p_identifiers pr) (p_ping pr)
          (AnalyticsManager._get_current_session_duration now p a)
          (p_job pr) (p_role pr)) d).
Proof.
  intros Hcp. unfold force_player_update. by rewrite Hcp.
Qed.

Lemma StronglySorted_filter_keep {A} (R : A → A → Prop) (P : A → Prop)
    `{∀ x, Decision (P x)} (l : list A) :
  StronglySorted R l → StronglySorted R (filter P l).
Proof.
  induction 1 as [|x l Hl IH Hx]; [constructor|].
  rewrite filter_cons. destruct (decide (P x)); [|done].
  constructor; [done|]. by apply Forall_filter_keep.
Qed.

Lemma StronglySorted_take {A} (R : A → A → Prop) (n : nat) (l : list A) :
  StronglySorted R l → StronglySorted R (take n l).
Proof.
  intros Hl. rewrite <- (take_drop n l) in Hl. by eapply StronglySorted_app_1_l.
Qed.

Lemma Zsum_nonneg (l : list Z) : Forall (λ x, 0 <= x) l → 0 <= Zsum l.
Proof. induction 1; simpl; lia. Qed.

Lemma sublist_filter_mono {A} (P : A → Prop) `{∀ x, Decision (P x)}
    (l1 l2 : list A) :
  l1 `sublist_of` l2 → filter P l1 `sublist_of` filter P l2.
Proof.
  induction 1 as [|x l1 l2 Hsub IH|x l1 l2 Hsub IH]; [constructor| |].
  - rewrite !filter_cons. destruct (decide (P x)); [by constructor|done].
  - rewrite filter_cons. destruct (decide (P x)); [by constructor|done].
Qed.

End PlayerQueries.

(** X21.  [force_player_update] returns true exactly for a tracked
    player and leaves the store untouched otherwise.  For a tracked
    player it adds the whole running session, in whole seconds, to the
    stored playtime (on top of what the poll ticks have accrued), so two
    calls at the same instant add it twice; the session count, the other
    players' records and both logs are unchanged. *)
Theorem force_player_update_adds_running_session (now : Z) (p : string)
    (a : analytics) (d : db) :
  let r := AnalyticsQueries.force_player_update now p a d in
  let running := AnalyticsManager._get_current_session_duration now p a in
  (r.1 = true ↔ is_Some (current_players a !! p))
  ∧ (current_players a !! p = None → r.2 = d)
  ∧ (is_Some (current_players a !! p) →
     DatabaseManager.get_playtime p r.2 = DatabaseManager.get_playtime p d + running
     ∧ DatabaseManager.get_playtime p
         (AnalyticsQueries.force_player_update now p a r.2).2
       = DatabaseManager.get_playtime p d + 2 * running
     ∧ is_Some (players r.2 !! p))
  ∧ DatabaseManager.get_totalSessions p r.2 = DatabaseManager.get_totalSessions p d
  ∧ (∀ q, q ≠ p → players r.2 !! q = players d !! q)
  ∧ event_logs r.2 = event_logs d
  ∧ ping_logs r.2 = ping_logs d.
Proof.
  intros r running. subst r.
  destruct (current_players a !! p) as [pr|] eqn:Hcp.
  - rewrite (force_player_update_tracked now p a d pr Hcp). cbn [fst snd].
    fold running.
    set (pd := PlayerData p (p_identifiers pr) (p_ping pr) running (p_job pr)
                 (p_role pr)).
    split; [by split|]. split; [done|]. split.
    + intros _. split; [apply (get_playtime_upsert now pd d)|]. split.
      * rewrite (force_player_update_tracked now p a _ pr Hcp). cbn [snd].
        fold running. fold pd.
        rewrite (get_playtime_upsert now pd), (get_playtime_upsert now pd d).
        simpl. lia.
      * unfold DatabaseManager.upsert_player. simpl. rewrite lookup_insert_eq.
        by eexists.
    + split; [apply (get_totalSessions_upsert now pd d)|]. split; [|done].
      intros q Hq. by apply (players_upsert_ne q now pd d).
  - unfold AnalyticsQueries.force_player_update. rewrite Hcp. cbn [fst snd].
    split; [split; [done|by intros [? ?]]|]. split; [done|].
    split; [by intros [? ?]|]. done.
Qed.

(** X22.  [get_player_info] answers exactly for the players with a
    stored record, and reports a player online exactly when the
    reconciler tracks it.  Its session figure is the number of join
    events of the player among the 50 newest events of all players, so
    it never exceeds 50 nor the number of join events logged for the
    player; the recent events are the first five events of the player
    among those 50, newest first; the ping is the stored one; the
    average session is never negative. *)
Theorem player_info_reads_recent_events (now : Z) (p : string)
    (a : analytics) (d : db) :
  (AnalyticsQueries.get_player_info now p a d = None ↔ players d !! p = None)
  ∧ ∀ info,
      AnalyticsQueries.get_player_info now p a d = Some info →
      players d !! p = Some (pi_player info)
      ∧ (pi_is_online info = true ↔ is_Some (current_players a !! p))
      ∧ pi_total_sessions info
        = length (filter (λ e, ev_type e = Join)
                    (events_of p (DatabaseManager.get_recent_events 50 d)))
      ∧ pi_recent_events info
        = take 5 (events_of p (DatabaseManager.get_recent_events 50 d))
      ∧ pi_avg_ping info = r_ping (pi_player info)
      ∧ (pi_total_sessions info ≤ 50)%nat
      ∧ (pi_total_sessions info
         ≤ length (filter (λ e, ev_type e = Join) (events_of p (event_logs d))))%nat
      ∧ (length (pi_recent_events info) ≤ 5)%nat
      ∧ (∀ e, e ∈ pi_recent_events info → player_name e = p ∧ e ∈ event_logs d)
      ∧ StronglySorted (λ x y, timestamp y <= timestamp x) (pi_recent_events info)
      ∧ 0 <= pi_avg_session_duration info
      ∧ pi_current_session_duration info
        = AnalyticsManager._get_current_session_duration now p a.
Proof.
  unfold AnalyticsQueries.get_player_info.
  destruct (players d !! p) as [rec|] eqn:Hrec; [|by split].
  split; [by split|]. intros info [= <-].
  cbn [pi_player pi_is_online pi_total_sessions pi_recent_events
       pi_avg_ping pi_avg_session_duration pi_current_session_duration].
  set (recent := DatabaseManager.get_recent_events 50 d).
  assert (recent `sublist_of` DatabaseManager.sort_desc (event_logs d)) as Hsub
    by apply sublist_take.
  assert (length recent ≤ 50)%nat as Hlen
    by (subst recent; unfold DatabaseManager.get_recent_events;
        rewrite length_take; lia).
  assert (StronglySorted (λ x y, timestamp y <= timestamp x) recent) as Hsorted.
  { subst recent. unfold DatabaseManager.get_recent_events.
    apply StronglySorted_take. rewrite sort_desc_as_by. apply sort_desc_by_sorted. }
  split; [done|]. split; [apply bool_decide_eq_true|].
  split; [done|]. split; [done|]. split; [done|]. split.
  { etrans; [apply length_filter|]. etrans; [apply length_filter|]. done. }
  split.
  { etrans; [apply sublist_length; do 2 apply sublist_filter_mono; exact Hsub|].
    rewrite sort_desc_as_by. unfold events_of.
    assert (filter (λ e, ev_type e = Join)
              (filter (λ e, player_name e = p)
                 (sort_desc_by timestamp (event_logs d)))
            ≡ₚ filter (λ e, ev_type e = Join)
                 (filter (λ e, player_name e = p) (event_logs d))) as Hperm
      by (by rewrite sort_desc_by_perm).
    by rewrite (Permutation_length Hperm). }
  split; [rewrite length_take; lia|]. split.
  { intros e He. apply (subseteq_take 5) in He.
    apply list_elem_of_filter in He as [Hname He]. split; [done|].
    pose proof (elem_of_sublist _ _ _ He Hsub) as He'.
    by rewrite sort_desc_as_by, sort_desc_by_perm in He'. }
  split; [by apply StronglySorted_take, StronglySorted_filter_keep|].
  split; [|done].
  match goal with
  | |- 0 <= match ?l with [] => 0 | _ :: _ => _ end =>
      assert (Forall (λ x, 0 <= x) l) as Hpos
        by (apply Forall_forall; intros x Hx;
            apply list_elem_of_filter in Hx as [? _]; lia);
      destruct l as [|x l'] eqn:Hl; [done|]
  end.
  apply Z.quot_pos; [by apply Zsum_nonneg|].
  unfold us_per_second. simpl length. lia.
Qed.

(** ** The store invariant *)

Section SaneStore.
Import AnalyticsManager DatabaseManager NotificationManager MotionlifeBot.

Lemma foldl_invariant {S B : Type} (P : S → Prop) (f : S → B → S) :
  (∀ st x, P st → P (f st x)) → ∀ l st, P st → P (foldl f st l).
Proof.
  intros Hstep l. induction l as [|x l IH]; intros st Hst; [done|].
  cbn [foldl]. by apply IH, Hstep.
Qed.

Lemma sane_store_upsert t pd d :
  0 <= pd_session_time pd → sane_store d → sane_store (upsert_player t pd d).
Proof.
  intros Hpos Hd. unfold sane_store, upsert_player. cbn [players].
  apply map_Forall_insert_2; [|done]. unfold sane_record, upsert_doc.
  destruct (players d !! pd_name pd) as [r|] eqn:Hr; simpl;
    [|split; [done|lia]].
  destruct (Hd _ _ Hr) as (_ & ? & ?). split; [done|lia].
Qed.

Lemma sane_store_log_event t ty n dt d :
  sane_store d → sane_store (log_event t ty n dt d).
Proof.
  intros Hd. unfold log_event. destruct ty; [|done].
  unfold sane_store, increment_player_sessions. cbn [players].
  intros k r Hk. destruct (decide (n = k)) as [->|Hne].
  - rewrite lookup_alter_eq in Hk.
    destruct (players d !! k) as [r0|] eqn:Hr0; [|done].
    injection Hk as <-. destruct (Hd _ _ Hr0) as (? & ? & ?).
    unfold sane_record, bump_sessions. simpl. repeat split; [done|done|lia].
  - rewrite lookup_alter_ne in Hk by done. by apply Hd.
Qed.

Lemma sane_store_update_player_data now r a d :
  sane_store d → sane_store (update_player_data now r a d).2.
Proof.
  intros Hd. unfold update_player_data.
  assert (sane_store (foldl (process_player now) (∅, a, d) r).2) as Hloop.
  { apply (foldl_invariant (λ st : loop_state, sane_store st.2)); [|done].
    intros [[ns a0] d0] e Hd0. unfold process_player. cbn [snd] in *.
    destruct (decide _); [done|]. cbn [snd].
    apply sane_store_upsert.
    - cbn [pd_session_time]. destruct (bool_decide _); unfold tick_seconds; lia.
    - destruct (bool_decide _); [by apply sane_store_log_event|done]. }
  destruct (foldl (process_player now) (∅, a, d) r) as [[names a1] d1].
  cbn [snd] in Hloop.
  apply (foldl_invariant (λ st : analytics * db, sane_store st.2)); [|done].
  intros [a0 d0] q Hd0. unfold process_left. cbn [snd] in *.
  destruct (session_start_times a0 !! q) as [start|]; [|done]. cbn [snd].
  destruct (0 <? remaining_time (now - start)) eqn:Hrem.
  - apply sane_store_upsert; [|by apply sane_store_log_event].
    cbn [pd_session_time]. apply Z.ltb_lt in Hrem. lia.
  - by apply sane_store_log_event.
Qed.

Lemma sane_store_check_player_changes now r n d :
  sane_store d → sane_store (check_player_changes now r n d).2.
Proof.
  intros Hd. unfold check_player_changes. cbn [snd].
  apply (foldl_invariant sane_store).
  { intros d0 x Hd0. by apply sane_store_log_event. }
  apply (foldl_invariant sane_store); [|done].
  intros d0 x Hd0. unfold _handle_player_join.
  destruct (list_find _ r) as [[? ?]|]; [|done]. by apply sane_store_log_event.
Qed.

Lemma sane_store_cleanup_old_data now d :
  sane_store d → sane_store (cleanup_old_data now d).
Proof.
  intros Hd k r Hk. rewrite cleanup_old_data_lookup in Hk.
  destruct (players d !! k) as [r0|] eqn:Hr0; [|done].
  injection Hk as <-. specialize (Hd _ _ Hr0).
  by destruct (lastSeen r0 <? now - timedelta_days 30).
Qed.

End SaneStore.

Lemma sane_store_update_server_status now server_data b :
  sane_store (db_manager b) →
  sane_store (db_manager (MotionlifeBot.update_server_status now server_data b)).
Proof.
  intros Hb.
  destruct (is_offline server_data) eqn:Hoff.
  { by rewrite update_server_status_offline by done. }
  destruct server_data as [sd|]; [|done].
  assert (online sd = true) as Hon by (simpl in Hoff; by destruct (online sd)).
  destruct (decide (snap_players sd = [])) as [Hr|Hr].
  { by rewrite update_server_status_empty by done. }
  rewrite update_server_status_roster by done. cbn [db_manager].
  apply sane_store_check_player_changes.
  unfold sane_store. rewrite players_log_ping_data.
  by apply sane_store_update_player_data.
Qed.

Lemma sane_store_cleanup_task now hour b :
  sane_store (db_manager b) →
  sane_store (db_manager (MotionlifeBot.cleanup_task now hour b)).
Proof.
  intros Hb.
  unfold MotionlifeBot.cleanup_task.
  pose proof (players_clean_offline_players now (analytics_manager b)
                (db_manager b)) as Hp.
  destruct (AnalyticsManager.clean_offline_players now (analytics_manager b)
              (db_manager b)) as [a1 d1].
  cbn [snd] in Hp. cbn [db_manager].
  assert (sane_store d1) as Hd1 by (unfold sane_store; by rewrite Hp).
  destruct (hour =? 0); [by apply sane_store_cleanup_old_data|done].
Qed.

(** X23.  The poll tick and the cleanup task keep the store sane: every
    record stays under its own name, and no stored playtime or session
    count ever becomes negative. *)
Theorem store_records_stay_sane (now hour : Z) (server_data : option snapshot)
    (b : bot) :
  sane_store (db_manager b) →
  sane_store (db_manager (MotionlifeBot.update_server_status now server_data b))
  ∧ sane_store (db_manager (MotionlifeBot.cleanup_task now hour b)).
Proof.
  intros Hb. split;
    [by apply sane_store_update_server_status|by apply sane_store_cleanup_task].
Qed.

Lemma store_records_stay_sane_witness :
  sane_store (db_manager (MotionlifeBot.update_server_status 0
     (Some (online_snapshot [entry "Ann" 40; entry "Bob" 50])) initial_bot)).
Proof.
  refine (proj1 (store_records_stay_sane 0 0
     (Some (online_snapshot [entry "Ann" 40; entry "Bob" 50])) initial_bot _)).
  apply map_Forall_empty.
Defined.

(** ** Player rank *)

Section Rank.
Import DatabaseQueries.

Lemma filter_all {A} (P : A → Prop) `{∀ x, Decision (P x)} (l : list A) :
  Forall P l → filter P l = l.
Proof.
  induction 1 as [|x l Hx Hl IH]; [done|].
  by rewrite filter_cons_True, IH by done.
Qed.

(** Where the rank search stops: at the player's own record, which has
    positive playtime. *)
Lemma rank_search_finds_record p d rec i r :
  sane_store d → players d !! p = Some rec →
  list_find (λ r, r_name r = p) (get_players_by_playtime 1000 d) = Some (i, r) →
  r = rec ∧ 0 < playtime rec ∧ (i < 1000)%nat
  ∧ sort_desc_by playtime (filter (λ r, 0 < playtime r) (all_players d)) !! i
    = Some rec.
Proof.
  intros Hsane Hrec Hfind. apply list_find_Some in Hfind as (Hi & Hname & _).
  unfold get_players_by_playtime in Hi. apply lookup_take_Some in Hi as [Hi Hlt].
  assert (r ∈ filter (λ r, 0 < playtime r) (all_players d)) as Hin.
  { rewrite <- (sort_desc_by_perm playtime). by eapply list_elem_of_lookup_2. }
  apply list_elem_of_filter in Hin as [Hpos Hin].
  apply elem_of_all_players in Hin as [n Hn].
  destruct (Hsane _ _ Hn) as (Hkey & _). rewrite Hname in Hkey. subst n.
  assert (r = rec) as -> by congruence. done.
Qed.

End Rank.

(** X24.  In a sane store, the rank shown for a player with a record is
    "Unranked" when the playtime is zero; otherwise a rank k lies between
    1 and 1000, fewer than k players have strictly more playtime, and at
    least k players have as much playtime or more.  A player with
    positive playtime is ranked whenever at most 1000 players have
    positive playtime. *)
Theorem rank_counts_players_ahead (p : string) (d : db) (rec : player_record) :
  sane_store d →
  players d !! p = Some rec →
  let everyone := DatabaseQueries.all_players d in
  let ahead := filter (λ r, playtime rec < playtime r) everyone in
  let level := filter (λ r, playtime rec <= playtime r) everyone in
  let ranked := filter (λ r, 0 < playtime r) everyone in
  (playtime rec = 0 → player_rank p d = None)
  ∧ (∀ k, player_rank p d = Some k →
       0 < playtime rec ∧ (1 ≤ k ≤ 1000)%nat
       ∧ (length ahead < k)%nat ∧ (k ≤ length level)%nat)
  ∧ (0 < playtime rec → (length ranked ≤ 1000)%nat →
     is_Some (player_rank p d)).
Proof.
  intros Hsane Hrec everyone ahead level pos. subst ahead level.
  unfold player_rank.
  set (L := sort_desc_by playtime pos).
  assert (L ≡ₚ pos) as Hperm by apply sort_desc_by_perm.
  split; [|split].
  - intros Hzero.
    destruct (list_find _ _) as [[i r]|] eqn:Hfind; [|done].
    destruct (rank_search_finds_record p d rec i r Hsane Hrec Hfind)
      as (_ & Hpos & _). lia.
  - intros k Hk.
    destruct (list_find _ _) as [[i r]|] eqn:Hfind; [|done].
    injection Hk as <-. cbn [fst].
    destruct (rank_search_finds_record p d rec i r Hsane Hrec Hfind)
      as (-> & Hpos & Hi & HL).
    fold everyone in HL. fold pos in HL. fold L in HL.
    split; [done|]. split; [lia|].
    pose proof (take_drop_middle L i rec HL) as Hsplit.
    pose proof (sort_desc_by_sorted playtime pos) as Hsorted.
    fold L in Hsorted. rewrite <- Hsplit in Hsorted.
    assert (Forall (λ r, playtime rec <= playtime r) (take i L)) as Hbefore.
    { apply Forall_forall. intros x Hx.
      apply (StronglySorted_app_1_elem_of _ _ _ x rec Hsorted Hx).
      apply list_elem_of_here. }
    assert (Forall (λ r, ¬ playtime rec < playtime r) (drop (S i) L)) as Hafter.
    { apply StronglySorted_app_1_r in Hsorted.
      apply StronglySorted_inv in Hsorted as [_ Hall].
      eapply Forall_impl; [exact Hall|]. simpl. intros x Hx. lia. }
    assert (length (take i L) = i) as Hlen.
    { apply length_take_le. apply lookup_lt_Some in HL. lia. }
    split.
    + assert (filter (λ r, playtime rec < playtime r) everyone
              = filter (λ r, playtime rec < playtime r) pos) as ->.
      { subst pos. rewrite list_filter_filter. apply list_filter_iff.
        intros x. lia. }
      rewrite <- (Permutation_length
                    (filter_Permutation (λ r, playtime rec < playtime r) L pos Hperm)).
      rewrite <- Hsplit, filter_app, length_app, filter_cons_False by lia.
      rewrite (filter_none _ _ Hafter). simpl.
      pose proof (length_filter (λ r, playtime rec < playtime r) (take i L)). lia.
    + assert (length (filter (λ r, (playtime rec <= playtime r)%Z) pos)
              ≤ length (filter (λ r, (playtime rec <= playtime r)%Z) everyone))%nat
        as Hmono.
      { apply sublist_length, sublist_filter_mono. subst pos. apply sublist_filter. }
      rewrite <- (Permutation_length
                    (filter_Permutation (λ r, playtime rec <= playtime r) L pos Hperm))
        in Hmono.
      rewrite <- Hsplit, filter_app, length_app, (filter_all _ _ Hbefore), Hlen,
        filter_cons_True in Hmono by lia.
      simpl in Hmono. lia.
  - intros Hpos Hsmall.
    assert (rec ∈ DatabaseQueries.get_players_by_playtime 1000 d) as Hin.
    { unfold DatabaseQueries.get_players_by_playtime. fold everyone. fold pos.
      fold L. rewrite take_ge by (rewrite (Permutation_length Hperm); done).
      rewrite Hperm. subst pos. apply list_elem_of_filter. split; [done|].
      apply elem_of_all_players. by exists p. }
    destruct (Hsane _ _ Hrec) as (Hname & _).
    destruct (list_find_elem_of (λ r, r_name r = p) _ rec Hin Hname) as [[i r] ->].
    by eexists.
Qed.

Lemma rank_counts_players_ahead_witness :
  is_Some (player_rank "Bob" (db_manager rejoin_bot_3)).
Proof.
  refine (proj2 (proj2 (rank_counts_players_ahead "Bob" (db_manager rejoin_bot_3)
     (PlayerRecord "Bob" [] 0 (timedelta_seconds 60) 60 1 50 "civilian" "civilian"
        None) _ _)) _ _).
  - apply (bool_decide_unpack _). by vm_compute.
  - by vm_compute.
  - by vm_compute.
  - vm_compute. lia.
Defined.

Lemma force_player_update_adds_running_session_witness :
  DatabaseManager.get_playtime "Bob"
    (AnalyticsQueries.force_player_update (timedelta_seconds 45) "Bob"
       (analytics_manager rejoin_bot_1) (db_manager rejoin_bot_1)).2
  = DatabaseManager.get_playtime "Bob" (db_manager rejoin_bot_1) + 45.
Proof.
  refine (proj1 (proj1 (proj2 (proj2
    (force_player_update_adds_running_session (timedelta_seconds 45) "Bob"
       (analytics_manager rejoin_bot_1) (db_manager rejoin_bot_1)))) _)).
  apply (bool_decide_unpack _). by vm_compute.
Defined.

Lemma player_info_reads_recent_events_witness :
  ∃ info,
    AnalyticsQueries.get_player_info (timedelta_seconds 60) "Bob"
      (analytics_manager rejoin_bot_3) (db_manager rejoin_bot_3) = Some info
    ∧ (pi_total_sessions info ≤ 50)%nat.
Proof.
  destruct (AnalyticsQueries.get_player_info (timedelta_seconds 60) "Bob"
              (analytics_manager rejoin_bot_3) (db_manager rejoin_bot_3))
    as [info|] eqn:Hinfo; [|by vm_compute in Hinfo].
  exists info. split; [done|].
  exact (proj1 (proj2 (proj2 (proj2 (proj2 (proj2 (proj2
    (player_info_reads_recent_events (timedelta_seconds 60) "Bob"
       (analytics_manager rejoin_bot_3) (db_manager rejoin_bot_3)) info Hinfo))))))).
Defined.

Lemma session_statistics_are_consistent_witness :
  total_online
    (AnalyticsQueries.get_session_statistics (timedelta_seconds 60)
       (analytics_manager rejoin_bot_3))
  = AnalyticsQueries.get_current_online_count (analytics_manager rejoin_bot_3).
Proof.
  exact (proj1 (proj2 (proj2 (proj2
    (session_statistics_are_consistent (timedelta_seconds 60)
       (analytics_manager rejoin_bot_3)))))).
Defined.

(** ** Reachable states of the bot *)

Section Reachable.
Import AnalyticsManager DatabaseManager NotificationManager MotionlifeBot.

Lemma dom_update_player_data now r a d :
  dom (current_players a) = dom (session_start_times a) →
  dom (current_players (update_player_data now r a d).1)
  = dom (session_start_times (update_player_data now r a d).1).
Proof.
  intros Hdom. apply set_eq. intros p. rewrite !elem_of_dom.
  apply (update_player_data_facts now r a d p).
  by rewrite <- !elem_of_dom, Hdom.
Qed.

Lemma clean_offline_players_lookup now a d p :
  current_players (clean_offline_players now a d).1 !! p
  = (if decide (p ∈ offline_players now a) then None else current_players a !! p)
  ∧ session_start_times (clean_offline_players now a d).1 !! p
    = (if decide (p ∈ offline_players now a) then None
       else session_start_times a !! p).
Proof.
  pose proof (clean_offline_players_view now a d p) as Hview.
  rewrite (surjective_pairing (clean_offline_players now a d)), !view_of_eq
    in Hview.
  destruct (decide (p ∈ offline_players now a)).
  - unfold reap_view in Hview. by injection Hview as -> -> _ _.
  - by injection Hview as -> -> _ _.
Qed.

Lemma dom_clean_offline_players now a d :
  dom (current_players a) = dom (session_start_times a) →
  dom (current_players (clean_offline_players now a d).1)
  = dom (session_start_times (clean_offline_players now a d).1).
Proof.
  intros Hdom. apply set_eq. intros p. rewrite !elem_of_dom.
  destruct (clean_offline_players_lookup now a d p) as [-> ->].
  destruct (decide (p ∈ offline_players now a)); [done|].
  by rewrite <- !elem_of_dom, Hdom.
Qed.

Lemma record_grows_is_Some o o' : record_grows o o' → is_Some o → is_Some o'.
Proof. intros Hg [r ->]. destruct Hg as (r' & -> & _). by eexists. Qed.

Lemma bot_invariant_step b s : bot_invariant b → bot_invariant (bot_step_run b s).
Proof.
  intros (Hdom & Htracked & Hsane & Hord).
  destruct s as [now server_data|now hour]; cbn [bot_step_run].
  - split; [|split; [|split]];
      [| |by apply sane_store_update_server_status
         |by apply ordered_update_server_status].
    + destruct (is_offline server_data) eqn:Hoff.
      { by rewrite update_server_status_offline by done. }
      destruct server_data as [sd|]; [|done].
      assert (online sd = true) as Hon by (simpl in Hoff; by destruct (online sd)).
      destruct (decide (snap_players sd = [])) as [Hr|Hr].
      { by rewrite update_server_status_empty by done. }
      rewrite update_server_status_roster by done. cbn [analytics_manager].
      by apply dom_update_player_data.
    + destruct (is_offline server_data) eqn:Hoff.
      { by rewrite update_server_status_offline by done. }
      destruct server_data as [sd|]; [|done].
      assert (online sd = true) as Hon by (simpl in Hoff; by destruct (online sd)).
      destruct (decide (snap_players sd = [])) as [Hr|Hr].
      { by rewrite update_server_status_empty by done. }
      rewrite update_server_status_roster by done.
      cbn [analytics_manager db_manager notification_manager].
      intros p Hp.
      pose proof Hp as Hlisted.
      apply update_player_data_tracked in Hlisted as (Hin & Hne1 & Hne2).
      split; [done|]. split; [done|]. split.
      * eapply record_grows_is_Some; [apply check_player_changes_grows|].
        rewrite players_log_ping_data.
        destruct Hp as [pr Hpr].
        destruct (update_player_data_facts now (snap_players sd)
                    (analytics_manager b) (db_manager b) p) as (_ & _ & Hag & _).
        destruct (Hag pr Hpr) as (rec & -> & _). by eexists.
      * unfold check_player_changes. cbn [fst previous_players].
        by apply elem_of_current_players.
  - unfold cleanup_task.
    pose proof (dom_clean_offline_players now (analytics_manager b) (db_manager b)
                  Hdom) as Hdom'.
    pose proof (players_clean_offline_players now (analytics_manager b)
                  (db_manager b)) as Hplayers.
    pose proof (ping_logs_clean_offline_players now (analytics_manager b)
                  (db_manager b)) as Hpings.
    pose proof (λ p, clean_offline_players_lookup now (analytics_manager b)
                       (db_manager b) p) as Hlook.
    destruct (clean_offline_players now (analytics_manager b) (db_manager b))
      as [a1 d1].
    cbn [fst snd] in *.
    unfold bot_invariant. cbn [analytics_manager db_manager notification_manager].
    split; [done|].
    assert (sane_store d1) as Hsane1 by (unfold sane_store; by rewrite Hplayers).
    assert (∀ p, is_Some (current_players a1 !! p) →
                 p ≠ "" ∧ p ≠ "Unknown" ∧ is_Some (players d1 !! p)
                 ∧ p ∈ previous_players (notification_manager b)) as Htracked1.
    { intros p Hp. destruct (Hlook p) as [Hcp _]. rewrite Hcp in Hp.
      destruct (decide (p ∈ offline_players now (analytics_manager b)));
        [by destruct Hp|].
      rewrite Hplayers. by apply Htracked. }
    destruct (hour =? 0).
    + split; [|split].
      * intros p Hp. destruct (Htracked1 p Hp) as (? & ? & [rec Hrec] & ?).
        split; [done|]. split; [done|]. split; [|done].
        rewrite cleanup_old_data_lookup, Hrec. by eexists.
      * by apply sane_store_cleanup_old_data.
      * unfold cleanup_old_data. cbn [ping_logs]. apply Forall_filter_keep.
        by rewrite Hpings.
    + split; [done|]. split; [done|]. by rewrite Hpings.
Qed.

End Reachable.

(** X25.  After any interleaving of poll ticks and cleanup runs from the
    initial state: the two tracking maps of the reconciler hold the same
    names; every tracked player has a name other than the empty one and
    "Unknown", a stored record, and is remembered by the notification
    manager; every record sits under its own name with playtime and
    session count not negative; every ping sample has
    low <= avg <= high. *)
Theorem reachable_states_are_consistent (steps : list bot_step) :
  bot_invariant (bot_run steps initial_bot).
Proof.
  unfold bot_run.
  apply (foldl_invariant bot_invariant bot_step_run bot_invariant_step).
  unfold bot_invariant, initial_bot. cbn.
  split; [done|]. split; [|split; [apply map_Forall_empty|constructor]].
  intros p [pr Hp]. by rewrite lookup_empty in Hp.
Qed.
